(** * dynadojo: the experiment-evaluation engine

    A shallow embedding of
    - [src/dynadojo/challenges.py]: [FixedError.system_run] with its three
      closures [get_training_set], [model_run] (and [run_helper]) and
      [search];
    - [dynascale/abstractions.py]: [Model], [Challenge] and [Task.evaluate].

    Python integers are [Z]; a floating point number is the rational it
    stands for, an infinity or not-a-number, comparisons behave as in
    Python (every comparison with NaN is false) and the results of float
    arithmetic are rounded to the nearest double; closures that mutate
    [nonlocal] variables are state-passing functions over a session record;
    the memo dictionary is a [gmap], the history set a [gset]. *)

From Stdlib Require Import ZArith QArith Qabs Lia.
From stdpp Require Import base option list gmap sets sorting.

Local Open Scope Z_scope.

(** ** Floating point values *)

Inductive float := Num (q : Q) | NaN | PInf | NInf.

Definition Qltb (x y : Q) : bool := negb (Qle_bool y x).

(** [a <= b], [a < b] and [a > b] on floats. *)
Definition fle (a b : float) : bool :=
  match a, b with
  | Num x, Num y => Qle_bool x y
  | NInf, (Num _ | PInf | NInf) => true
  | (Num _ | PInf), PInf => true
  | _, _ => false
  end.
Definition flt (a b : float) : bool :=
  match a, b with
  | Num x, Num y => Qltb x y
  | NInf, (Num _ | PInf) => true
  | Num _, PInf => true
  | _, _ => false
  end.
Definition fgt (a b : float) : bool := flt b a.

(** A number that is an [int] or [np.inf]. *)
Inductive ext := Fin (z : Z) | Inf.

(** [n < best] for an int [n] and [best] an int or [np.inf]. *)
Definition lt_ext (n : Z) (best : ext) : bool :=
  match best with Fin b => n <? b | Inf => true end.

(** ** Rounding to a double *)

(** The integer nearest to [n / d], for [0 < d]; of two that are equally
    near, the even one. *)
Definition round_half_even (n d : Z) : Z :=
  let q := n / d in
  let r := n mod d in
  if 2 * r <? d then q
  else if d <? 2 * r then q + 1
  else if Z.even q then q else q + 1.

(** The [e] with [2^e <= n / d < 2^(e+1)], for [0 < n] and [0 < d]. *)
Definition floor_log2 (n d : Z) : Z :=
  let e := Z.log2 n - Z.log2 d in
  if (if 0 <=? e then d * 2 ^ e <=? n else d <=? n * 2 ^ (- e))
  then e else e - 1.

(** The double nearest to a rational (IEEE 754 binary64, round to nearest,
    ties to even): 53 significant bits, no bit below [2^-1074], and an
    infinity from [2^1024] on. *)
Definition round_double (q : Q) : float :=
  let n := Z.abs (Qnum q) in
  let d := Z.pos (Qden q) in
  if n =? 0 then Num 0
  else
    let t := Z.max (floor_log2 n d - 52) (-1074) in
    let m := if 0 <=? t then round_half_even n (d * 2 ^ t)
             else round_half_even (n * 2 ^ (- t)) d in
    if 0 <=? t then
      if 2 ^ 1024 <=? m * 2 ^ t
      then (if 0 <? Qnum q then PInf else NInf)
      else Num (inject_Z (Z.sgn (Qnum q) * m * 2 ^ t))
    else Num (Qred (Z.sgn (Qnum q) * m # Z.to_pos (2 ^ (- t)))).

(** [a + b] and [a / 2] on floats. *)
Definition fadd (a b : float) : float :=
  match a, b with
  | NaN, _ | _, NaN => NaN
  | PInf, NInf | NInf, PInf => NaN
  | PInf, _ | _, PInf => PInf
  | NInf, _ | _, NInf => NInf
  | Num x, Num y => round_double (x + y)
  end.
Definition fhalf (a : float) : float :=
  match a with
  | Num x => round_double (x / 2)
  | _ => a
  end.

(** ** [np.median] *)

Definition is_nan (a : float) : bool :=
  match a with NaN => true | _ => false end.

Fixpoint finsert (x : float) (l : list float) : list float :=
  match l with
  | [] => [x]
  | y :: l' => if fle x y then x :: l else y :: finsert x l'
  end.

Definition fsort (l : list float) : list float := foldr finsert [] l.

(** The median of the empty list and of a list holding a NaN is NaN. An
    odd number of values gives the middle one; an even number gives the
    mean of the two middle ones as [np.mean] computes it: their sum,
    rounded, and then the half of it, rounded. *)
Definition median (l : list float) : float :=
  if existsb is_nan l then NaN
  else
    let s := fsort l in
    let k := length s in
    match k with
    | O => NaN
    | _ =>
        if Nat.odd k then nth (k / 2)%nat s NaN
        else fhalf (fadd (nth (k / 2 - 1)%nat s NaN) (nth (k / 2)%nat s NaN))
    end.

(** ** Python ranges and slices *)

(** [range(a, b)] *)
Definition py_range (a b : Z) : list Z := seqZ a (b - a).

(** [l[:n]] on the first axis; a negative [n] counts from the end. *)
Definition slice_to {A} (l : list A) (n : Z) : list A :=
  if 0 <=? n then take (Z.to_nat n) l
  else take (Z.to_nat (Z.of_nat (length l) + n)) l.

(** ** A state monad for the closures of [system_run] *)

Definition M (S A : Type) : Type := S -> A * S.
Definition ret {S A} (a : A) : M S A := fun s => (a, s).
Definition bind {S A B} (m : M S A) (k : A -> M S B) : M S B :=
  fun s => let '(a, s') := m s in k a s'.
Definition gets {S A} (f : S -> A) : M S A := fun s => (f s, s).
Definition modify {S} (f : S -> S) : M S unit := fun s => (tt, f s).

Notation "'let*' x := m 'in' k" := (bind m (fun x => k))
  (at level 10, x name, m at level 100, k at level 200, only parsing).
Notation "'let*' ' p := m 'in' k" := (bind m (fun x => let 'p := x in k))
  (at level 10, p pattern, m at level 100, k at level 200, only parsing).

(** [[f(x) for x in l]], effects in list order. *)
Fixpoint mapM {S A B} (f : A -> M S B) (l : list A) : M S (list B) :=
  match l with
  | [] => ret []
  | x :: l' => let* y := f x in let* ys := mapM f l' in ret (y :: ys)
  end.

(** ** The cell of one [system_run] *)

(** One row of the result table. The duration column is wall-clock time and
    is left out. *)
Record row := {
  row_rep : Z;
  row_n : Z;
  row_latent_dim : Z;
  row_embed_dim : Z;
  row_timesteps : Z;
  row_total_cost : float;
  row_error : float;
  row_ood_error : option float;
}.

(** What [system_run] is given: the configuration of the challenge and the
    collaborators, whose code is outside the engine. [W] is the state of the
    system simulator (and of every random generator), [Traj] a trajectory
    and [Mdl] a model object. *)
Record env (W Traj Mdl : Type) := {
  rep_id : Z;
  latent_dim : Z;
  embed_dim : Z;
  timesteps : Z;                 (* self._t *)
  test_ood : bool;
  n_start : Z;                   (* self.n_starts.get(latent_dim, 1) *)
  n_max : Z;
  n_precision : Z;
  n_window : Z;
  target_error : float;
  (* self._gen_trainset(system, k, self._t, noisy) *)
  gen_trainset : Z -> W -> list Traj * W;
  (* model_cls(embed_dim, self._t, max_control_cost, seed=model_seed, ...) *)
  model_cls : Mdl;
  (* self._fit_model(system, model, training_set, ...): the trained model and
     the total control cost *)
  fit_model : Mdl -> list Traj -> W -> (Mdl * float) * W;
  (* model.predict_wrapper on the test set (true) or the out-of-distribution
     test set (false), then system.calc_error_wrapper *)
  test_error : Mdl -> bool -> W -> float * W;
}.
Arguments rep_id {W Traj Mdl}.
Arguments latent_dim {W Traj Mdl}.
Arguments embed_dim {W Traj Mdl}.
Arguments timesteps {W Traj Mdl}.
Arguments test_ood {W Traj Mdl}.
Arguments n_start {W Traj Mdl}.
Arguments n_max {W Traj Mdl}.
Arguments n_precision {W Traj Mdl}.
Arguments n_window {W Traj Mdl}.
Arguments target_error {W Traj Mdl}.
Arguments gen_trainset {W Traj Mdl}.
Arguments model_cls {W Traj Mdl}.
Arguments fit_model {W Traj Mdl}.
Arguments test_error {W Traj Mdl}.

(** The variables the closures share. [models_built] counts the calls of
    [model_cls]; it is not a variable of the source. *)
Record session (W Traj : Type) := {
  world : W;
  master_training_set : list Traj;
  memo : gmap Z (float * float);
  result : list row;
  models_built : nat;
}.
Arguments world {W Traj}.
Arguments master_training_set {W Traj}.
Arguments memo {W Traj}.
Arguments result {W Traj}.
Arguments models_built {W Traj}.

(** ** The variables of [search] *)

(** The local variables of [search] that live across iterations of the
    first loop. [n_prevs] is kept in the order of the Python list: the
    last element is the top of the stack. *)
Record exp_state := {
  n_curr : Z;
  n_prevs : list Z;
  error_prev : option float;
  increment : Z;
  history : gset (Z * Z);
  best_answer : ext;
}.

(** The [return] statements of [search], in the order of the source. *)
Inductive exit :=
| NeverReached     (* return -1 *)
| Cycle            (* return best_answer *)
| LocalMinimum     (* return np.inf *)
| NoBackingUp      (* return n_curr, either of the two *)
| Converged.       (* return math.ceil((n_lower + n_upper)/2) *)

(** How one iteration of a loop ends. [Raises] is an exception: in the
    first loop the comparison of a float with [None], which Python refuses
    with a Raisesor, in the second the quotient of two ints that is too
    large for a float, an OverflowError. *)
Inductive step (A : Type) :=
| Return (why : exit) (v : ext)
| Break (st : A)
| Continue (st : A)
| Raises.
Arguments Return {A}.
Arguments Break {A}.
Arguments Continue {A}.
Arguments Raises {A}.

Record bin_state := {
  n_lower : Z;
  error_lower : float;
  n_upper : Z;
  error_upper : float;
}.

(** How a loop run with [fuel] iterations ends. *)
Inductive outcome (A : Type) :=
| Returned (why : exit) (v : ext)
| Broke (st : A)
| Raised
| OutOfFuel.
Arguments Returned {A}.
Arguments Broke {A}.
Arguments Raised {A}.
Arguments OutOfFuel {A}.

Section SystemRun.
Context {W Traj Mdl : Type}.
Variable E : env W Traj Mdl.

Local Abbreviation St := (session W Traj).

Definition set_pool (p : list Traj) (w : W) (s : St) : St :=
    {| world := w; master_training_set := p; memo := memo s;
       result := result s; models_built := models_built s |}.

Definition set_world (w : W) (s : St) : St :=
    {| world := w; master_training_set := master_training_set s;
       memo := memo s; result := result s; models_built := models_built s |}.

Definition count_model (s : St) : St :=
    {| world := world s; master_training_set := master_training_set s;
       memo := memo s; result := result s;
       models_built := S (models_built s) |}.

(** Modelled from the spec: [Challenge._append_result] is not among the
      sources; the result record is append-only and gets one row per
      sample-count evaluation. *)
Definition append_result (r : row) (s : St) : St :=
    {| world := world s; master_training_set := master_training_set s;
       memo := memo s; result := result s ++ [r];
       models_built := models_built s |}.

Definition memoize (n : Z) (v : float * float) (s : St) : St :=
    {| world := world s; master_training_set := master_training_set s;
       memo := <[n := v]> (memo s); result := result s;
       models_built := models_built s |}.

(** Runs a collaborator on the simulator state. *)
Definition on_world {A} (f : W -> A * W) : M St A :=
    fun s => let '(a, w) := f (world s) in (a, set_world w s).

Definition get_training_set (n : Z) : M St (list Traj) :=
    fun s =>
      let pool := master_training_set s in
      if n <=? Z.of_nat (length pool) then (slice_to pool n, s)
      else
        let '(to_add, w) :=
          gen_trainset E (n - Z.of_nat (length pool)) (world s) in
        (pool ++ to_add, set_pool (pool ++ to_add) w s).

Definition run_helper (n : Z) : M St (float * float) :=
    fun s =>
      match memo s !! n with
      | Some r => (r, s)
      | None =>
          (let* _ := modify count_model in
           let* training_set := get_training_set n in
           let* '(model, total_cost) :=
             on_world (fit_model E (model_cls E) training_set) in
           let* error := on_world (test_error E model true) in
           let* ood_error :=
             (if test_ood E
              then let* e := on_world (test_error E model false) in ret (Some e)
              else ret None) in
           let* _ := modify (append_result
                  {| row_rep := rep_id E; row_n := n;
                     row_latent_dim := latent_dim E;
                     row_embed_dim := embed_dim E;
                     row_timesteps := timesteps E;
                     row_total_cost := total_cost; row_error := error;
                     row_ood_error := ood_error |}) in
           (* [ood_error] is set exactly when [test_ood] is *)
           match ood_error with
           | Some oe =>
               let* _ := modify (memoize n (oe, total_cost)) in
               ret (oe, total_cost)
           | None =>
               let* _ := modify (memoize n (error, total_cost)) in
               ret (error, total_cost)
           end) s
      end.

Definition model_run (n window : Z) : M St (float * float) :=
    if 0 <? window then
      let* results_window :=
        mapM run_helper
             (py_range (Z.max 1 (n - window))
                       (Z.min (n + window + 1) (n_max E))) in
      ret (median (fst <$> results_window), median (snd <$> results_window))
    else run_helper n.

(** *** [search]: the exponential phase *)

Definition increment_max : Z := n_max E / 10.
Definition multiplicative_factor : Z := 2.

(** [min(max(1, math.ceil(increment * multiplicative_factor)), increment_max)] *)
Definition next_increment (inc : Z) : Z :=
    Z.min (Z.max 1 (inc * multiplicative_factor)) increment_max.

(** [l.pop()]: the last element and the rest. *)
Definition pop (l : list Z) : option (Z * list Z) :=
    match reverse l with
    | [] => None
    | x :: r => Some (x, reverse r)
    end.

(** The move forward: push [n_curr], remember its error, advance. *)
Definition forward (st : exp_state) (hist : gset (Z * Z)) (best : ext)
      (error_curr : float) : exp_state :=
    {| n_curr := n_curr st + increment st;
       n_prevs := n_prevs st ++ [n_curr st];
       error_prev := Some error_curr;
       increment := next_increment (increment st);
       history := hist; best_answer := best |}.

(** The restart from [n] after backing up. *)
Definition restart (n : Z) (hist : gset (Z * Z)) (best : ext) : exp_state :=
    {| n_curr := n; n_prevs := []; error_prev := None; increment := 1;
       history := hist; best_answer := best |}.

(** [best_answer] after the error at [n] is known. *)
Definition update_best (best : ext) (n : Z) (error_curr : float) : ext :=
    if fle error_curr (target_error E) && lt_ext n best then Fin n else best.

(** The body of the first loop below the call of [model_run]: what the
      iteration does once the error at [n_curr] is known. [hist] and [best]
      are the history and the best answer as just updated. *)
Definition exp_decide (st : exp_state) (hist : gset (Z * Z)) (best : ext)
      (error_curr : float) : step exp_state :=
    if 0 <? Z.of_nat (length (n_prevs st)) then
      match error_prev st with
      | None => Raises
      | Some e_prev =>
          if fgt error_curr e_prev then          (* error is increasing *)
            if 1 <? Z.of_nat (length (n_prevs st)) then
              match pop (n_prevs st) with
              | Some (_, l1) =>
                  match pop l1 with
                  | Some (n_prev_prev, _) =>
                      if n_curr st - n_prev_prev <=? Z.max (n_precision E) 1
                      then Return LocalMinimum Inf
                      else Continue (restart n_prev_prev hist best)
                  | None => Raises
                  end
              | None => Raises
              end
            else
              match pop (n_prevs st) with
              | Some (n, _) =>
                  if n <? n_precision E then Return NoBackingUp (Fin n)
                  else Continue
                         (restart (Z.max 1 (n / multiplicative_factor)) hist best)
              | None => Raises
              end
          else                                   (* error is decreasing *)
            if flt error_curr (target_error E) then
              Break {| n_curr := n_curr st; n_prevs := n_prevs st;
                       error_prev := error_prev st; increment := increment st;
                       history := hist; best_answer := best |}
            else Continue (forward st hist best error_curr)
      end
    else                                         (* no n_prevs *)
      if fgt error_curr (target_error E) then
        Continue (forward st hist best error_curr)
      else if n_curr st <? n_precision E + 1
      then Return NoBackingUp (Fin (n_curr st))
      else
        Continue {| n_curr := Z.max 1 (n_curr st / multiplicative_factor);
                    n_prevs := n_prevs st; error_prev := error_prev st;
                    increment := increment st;
                    history := hist; best_answer := best |}.

(** One iteration of the first [while True]. The float in the result is
      the error measured in this iteration, if the iteration got that far. *)
Definition exp_step (st : exp_state) : M St (step exp_state * option float) :=
    if n_max E <? n_curr st then ret (Return NeverReached (Fin (-1)), None)
    else if decide ((n_curr st, increment st) ∈ history st)
    then ret (Return Cycle (best_answer st), None)
    else
      let hist := {[ (n_curr st, increment st) ]} ∪ history st in
      let* '(error_curr, total_cost) := model_run (n_curr st) (n_window E) in
      let best := update_best (best_answer st) (n_curr st) error_curr in
      ret (exp_decide st hist best error_curr, Some error_curr).

(** The state in which [search] enters its first loop. *)
Definition exp_init : exp_state :=
    {| n_curr := n_start E; n_prevs := []; error_prev := None; increment := 1;
       history := ∅; best_answer := Inf |}.

(** The first loop: its outcome and the probes it made, each with the
      error it measured, in order. *)
Fixpoint exp_loop (fuel : nat) (st : exp_state)
      : M St (outcome exp_state * list (Z * float)) :=
    match fuel with
    | O => ret (OutOfFuel, [])
    | S fuel' =>
        let* '(r, e) := exp_step st in
        let probe := match e with Some x => [(n_curr st, x)] | None => [] end in
        match r with
        | Return why v => ret (Returned why v, probe)
        | Break st' => ret (Broke st', probe)
        | Raises => ret (Raised, probe)
        | Continue st' =>
            let* '(o, probes) := exp_loop fuel' st' in
            ret (o, probe ++ probes)
        end
    end.

(** *** [search]: the binary phase *)

(** [math.ceil((n_lower + n_upper) / 2)]: the quotient of the two ints is
      the double nearest to it, and the ceiling of a double is exact. A sum
      below [2^53] has its half among the doubles; a larger one is cut to
      53 significant bits. A quotient that rounds to [2^1024] or more is too
      large for a float: Python raises an OverflowError, here [None]. *)
Definition ceil_half (a b : Z) : option Z :=
    let s := a + b in
    let shift := Z.log2 (Z.abs s) - 52 in
    if shift <=? 0 then Some ((s + 1) / 2)
    else
      let r := round_half_even (Z.abs s) (2 ^ shift) * 2 ^ (shift - 1) in
      if 2 ^ 1024 <=? r then None else Some (Z.sgn s * r).

Definition bin_step (b : bin_state) : M St (step bin_state) :=
    let n_mid := (n_lower b + n_upper b) / 2 in
    if n_upper b - n_lower b <=? Z.max (n_precision E) 1
    then
      match ceil_half (n_lower b) (n_upper b) with
      | Some v => ret (Return Converged (Fin v))
      | None => ret Raises
      end
    else
      let* '(error_curr, _) := model_run n_mid (n_window E) in
      if fgt (error_lower b) (target_error E) && fgt (target_error E) error_curr
      then ret (Continue {| n_lower := n_lower b; error_lower := error_lower b;
                            n_upper := n_mid; error_upper := error_curr |})
      else ret (Continue {| n_lower := n_mid; error_lower := error_curr;
                            n_upper := n_upper b; error_upper := error_upper b |}).

(** The second loop: its outcome and the brackets at the head of each
      iteration, in order. *)
Fixpoint bin_loop (fuel : nat) (b : bin_state)
      : M St (outcome bin_state * list bin_state) :=
    match fuel with
    | O => ret (OutOfFuel, [])
    | S fuel' =>
        let* r := bin_step b in
        match r with
        | Return why v => ret (Returned why v, [b])
        | Break b' => ret (Broke b', [b])
        | Raises => ret (Raised, [b])
        | Continue b' =>
            let* '(o, bs) := bin_loop fuel' b' in
            ret (o, b :: bs)
        end
    end.

(** The bracket with which the binary phase starts, from the state in
      which the first loop broke: [n_prevs[-1]] and [n_curr], both
      evaluated again. An empty [n_prevs] would be an IndexError. *)
Definition bin_init (st : exp_state) : M St (option bin_state) :=
    match last (n_prevs st) with
    | None => ret None
    | Some nl =>
        let* '(el, _) := model_run nl (n_window E) in
        let* '(eu, _) := model_run (n_curr st) (n_window E) in
        ret (Some {| n_lower := nl; error_lower := el;
                     n_upper := n_curr st; error_upper := eu |})
    end.

(** [search()], each loop run with at most [fuel] iterations. [None]
      stands for an exception or for a loop that ran out of fuel. *)
Definition search (fuel : nat) : M St (option ext) :=
    let* '(o, _) := exp_loop fuel exp_init in
    match o with
    | Returned _ v => ret (Some v)
    | Broke st =>
        let* ob := bin_init st in
        match ob with
        | None => ret None
        | Some b =>
            let* '(o2, _) := bin_loop fuel b in
            match o2 with
            | Returned _ v => ret (Some v)
            | _ => ret None
            end
        end
    | Raised | OutOfFuel => ret None
    end.

(** The cell as [system_run] sets it up before the search: a pool of ten
      trajectories, an empty memo and no result. [w] is the simulator after
      the two test sets were drawn. *)
Definition init_session (w : W) : St :=
    let '(pool, w') := gen_trainset E 10 w in
    {| world := w'; master_training_set := pool; memo := ∅; result := [];
       models_built := 0 |}.


(** *** What the statements about [search] speak of *)

(** The error [run_helper] memoizes for a model trained on [ts] when the
      simulator is in state [w]: the out-of-distribution error if that is
      tested, else the error on the test set. *)
Definition measured (ts : list Traj) (w : W) : float :=
    let '((m, _), w1) := fit_model E (model_cls E) ts w in
    let '(err, w2) := test_error E m true w1 in
    if test_ood E then fst (test_error E m false w2) else err.

(** The collaborators behave as the error curve [e]: a model trained on
      [n] trajectories has error [e n]. *)
Definition realises (e : Z -> float) : Prop :=
    forall ts w, measured ts w = e (Z.of_nat (length ts)).

(** The simulator returns as many trajectories as it is asked for. *)
Definition gen_ok : Prop :=
    forall k w, 0 < k -> length (fst (gen_trainset E k w)) = Z.to_nat k.

(** Every memoized error is the one of the curve. *)
Definition memo_ok (e : Z -> float) (s : St) : Prop :=
    forall n r, memo s !! n = Some r -> fst r = e n.

(** The error [model_run n n_window] reports on the curve [e]: without a
      window the error at [n], with one the median over the window as
      [np.median] computes it. *)
Definition windowed (e : Z -> float) (n : Z) : float :=
    if 0 <? n_window E then
      median (e <$> py_range (Z.max 1 (n - n_window E))
                             (Z.min (n + n_window E + 1) (n_max E)))
    else e n.

(** Bounds on what the first loop can put into [history]. *)
Definition n_low : Z := Z.min 1 (n_start E).
Definition increment_high : Z := Z.max 1 increment_max.
Definition exp_box : list (Z * Z) :=
    list_prod (seqZ n_low (n_max E - n_low + 1)) (seqZ 0 (increment_high + 1)).
Definition exp_fuel : nat := S (length exp_box).

(** [v] is the smallest probed sample count whose error met the target,
      or [np.inf] if no probe met it. *)
Definition is_best (probes : list (Z * float)) (v : ext) : Prop :=
    match v with
    | Inf => forall n x, (n, x) ∈ probes -> fle x (target_error E) = false
    | Fin b =>
        (exists x, (b, x) ∈ probes /\ fle x (target_error E) = true)
        /\ forall n x, (n, x) ∈ probes -> fle x (target_error E) = true -> b <= n
    end.

(** The rows of the table that were recorded for [n]. *)
Definition rows_for (n : Z) (s : St) : list row :=
    filter (fun r => row_n r = n) (result s).

(** On every session that satisfies [I], [model_run] reports the error of
    the curve [f], and it keeps [I]. *)
Definition probes_as (f : Z -> float) (I : St -> Prop) : Prop :=
  forall n s, I s -> 1 <= n ->
    exists c s', model_run n (n_window E) s = ((f n, c), s') /\ I s'.

(** What holds of the variables of the first loop at the head of every
    iteration. *)
Definition exp_inv (st : exp_state) : Prop :=
  n_low <= n_curr st
  /\ Forall (fun p => n_low <= p) (n_prevs st)
  /\ 0 <= increment st <= increment_high
  /\ (n_prevs st <> [] -> is_Some (error_prev st))
  /\ (forall p, p ∈ history st -> p ∈ exp_box).

(** The variables of a search on the curve [f] that has only moved
    forward so far. *)
Definition marching (f : Z -> float) (st : exp_state) : Prop :=
  1 <= n_curr st
  /\ 1 <= increment st
  /\ (forall p, p ∈ history st -> p.1 < n_curr st)
  /\ (n_prevs st = []
      \/ exists l p, n_prevs st = l ++ [p] /\ 1 <= p < n_curr st
                     /\ error_prev st = Some (f p)).

(** The table holds one row for every memoized sample count and none for
    any other. *)
Definition rows_match (s : St) : Prop :=
  forall n, length (rows_for n s) = if memo s !! n is Some _ then 1%nat else 0%nat.

End SystemRun.

(** ** [dynascale/abstractions.py]: [Model], [Challenge] and [Task] *)

Module Dynascale.

Inductive exn := AssertionError | IndexError | NameError | ValueError.

(** A call returns or raises. *)
Inductive try (A : Type) := Done (a : A) | Raise (e : exn).
Arguments Done {A}.
Arguments Raise {A}.

Definition try_bind {A B} (m : try A) (k : A -> try B) : try B :=
    match m with Done a => k a | Raise e => Raise e end.

Notation "'let?' x := m 'in' k" := (try_bind m (fun x => k))
    (at level 10, x name, m at level 100, k at level 200, only parsing).
Notation "'let?' ' p := m 'in' k" := (try_bind m (fun x => let 'p := x in k))
    (at level 10, p pattern, m at level 100, k at level 200, only parsing).

(** [assert b] *)
Definition assert (b : bool) : try unit :=
    if b then Done tt else Raise AssertionError.

(** [for x in l: st = body(x, st)], stopping at the first exception. *)
Fixpoint for_each {A S} (body : A -> S -> try S) (l : list A) (st : S) : try S :=
    match l with
    | [] => Done st
    | x :: l' => let? st' := body x st in for_each body l' st'
    end.

(** An array: its shape and its entries in row-major order. *)
Record ndarray := { shape : list Z; data : list Q }.

Definition ndim (x : ndarray) : Z := Z.of_nat (length (shape x)).

Definition entries (sh : list Z) : nat := Z.to_nat (foldr Z.mul 1 sh).

(** [np.zeros(sh)] and [np.zeros_like(x)] *)
Definition zeros (sh : list Z) : ndarray :=
    {| shape := sh; data := replicate (entries sh) 0%Q |}.
Definition zeros_like (x : ndarray) : ndarray := zeros (shape x).

(** [x[:, k]] for [0 <= k]: entry [k] along the second axis. *)
Definition at_step (k : Z) (x : ndarray) : try ndarray :=
    match shape x with
    | n :: t :: rest =>
        if (0 <=? k) && (k <? t) then
          let sz := entries rest in
          Done {| shape := n :: rest;
                  data := mjoin ((fun i => take sz (drop ((i * Z.to_nat t + Z.to_nat k) * sz)
                                                          (data x)))
                                 <$> seq 0 (Z.to_nat n)) |}
        else Raise IndexError
    | _ => Raise IndexError
    end.

(** [x[:, 0]] *)
Definition first_step (x : ndarray) : try ndarray := at_step 0 x.

(** [x[:, -1]]: the last entry along the second axis. The source never
      takes it; it is what "the last state of a batch" means. *)
Definition last_step (x : ndarray) : try ndarray :=
    at_step (nth 1 (shape x) 0 - 1) x.

(** [x.shape == sh] *)
Definition shape_is (x : ndarray) (sh : list Z) : bool :=
    bool_decide (shape x = sh).

(** What a subclass of [Model] supplies. [fit] changes the model; [_act]
      and [_predict] only read it. *)
Record ModelCls := {
    mstate : Type;
    m_new : Z -> Z -> Q -> mstate;
    m_fit : mstate -> ndarray -> mstate;
    m_act : mstate -> ndarray -> ndarray;
    m_predict : mstate -> ndarray -> Z -> ndarray;
  }.

(** What a subclass of [Challenge] supplies; each method gets the
      dimensions of the object and its own state (a random generator, say),
      which the two generating methods may change. *)
Record ChallengeCls := {
    cstate : Type;
    c_new : Z -> Z -> cstate;
    c_make_init_conds : Z -> Z -> cstate -> Z -> bool -> ndarray * cstate;
    c_make_data : Z -> Z -> cstate -> ndarray -> ndarray -> Z -> bool -> ndarray * cstate;
    c_calc_loss : Z -> Z -> cstate -> ndarray -> ndarray -> Q;
    c_calc_control_cost : Z -> Z -> cstate -> ndarray -> Q;
  }.

Section Classes.
Variable Mc : ModelCls.
Variable Cc : ChallengeCls.

(** *** [Model] *)

Record model := {
      m_embed_dim : Z;
      m_timesteps : Z;
      m_max_control_cost : Q;
      m_self : mstate Mc;
    }.

(** [model_cls(embed_dim, timesteps, max_control_cost, **model_kwargs)] *)
Definition model_init (embed_dim timesteps : Z) (max_control_cost : Q) : model :=
      {| m_embed_dim := embed_dim; m_timesteps := timesteps;
         m_max_control_cost := max_control_cost;
         m_self := m_new Mc embed_dim timesteps max_control_cost |}.

Definition fit (m : model) (x : ndarray) : model :=
      {| m_embed_dim := m_embed_dim m; m_timesteps := m_timesteps m;
         m_max_control_cost := m_max_control_cost m;
         m_self := m_fit Mc (m_self m) x |}.

Definition act (m : model) (x : ndarray) : try ndarray :=
      let control := m_act Mc (m_self m) x in
      let? _ := assert (shape_is control (shape x)) in
      Done control.

Definition predict (m : model) (x0 : ndarray) (timesteps : Z) : try ndarray :=
      let pred := m_predict Mc (m_self m) x0 timesteps in
      match shape x0 with
      | [] => Raise IndexError
      | n :: _ =>
          let? _ := assert (shape_is pred [n; m_timesteps m; m_embed_dim m]) in
          Done pred
      end.

(** *** [Challenge] *)

Record challenge := {
      latent_dim : Z;
      embed_dim : Z;
      c_self : cstate Cc;
    }.

Definition challenge_init (latent embed : Z) : challenge :=
      {| latent_dim := latent; embed_dim := embed; c_self := c_new Cc latent embed |}.

Definition set_latent_dim (v : Z) (ch : challenge) : challenge :=
      {| latent_dim := v; embed_dim := embed_dim ch; c_self := c_self ch |}.
Definition set_embed_dim (v : Z) (ch : challenge) : challenge :=
      {| latent_dim := latent_dim ch; embed_dim := v; c_self := c_self ch |}.
Definition set_self (c : cstate Cc) (ch : challenge) : challenge :=
      {| latent_dim := latent_dim ch; embed_dim := embed_dim ch; c_self := c |}.

Definition make_init_conds (ch : challenge) (n : Z) (in_dist : bool)
        : try (ndarray * challenge) :=
      let '(init_conds, c) :=
        c_make_init_conds Cc (latent_dim ch) (embed_dim ch) (c_self ch) n in_dist in
      let? _ := assert (shape_is init_conds [n; embed_dim ch]) in
      Done (init_conds, set_self c ch).

Definition make_data (ch : challenge) (init_conds : ndarray)
        (control : option ndarray) (timesteps : Z) (noisy : bool)
        : try (ndarray * challenge) :=
      let? _ := assert (0 <? timesteps) in
      let? _ := assert ((ndim init_conds =? 2)
                        && (nth 1 (shape init_conds) 0 =? embed_dim ch)) in
      let n := nth 0 (shape init_conds) 0 in
      let control :=
        match control with
        | None => zeros [n; timesteps; embed_dim ch]
        | Some c => c
        end in
      let? _ := assert (shape_is control [n; timesteps; embed_dim ch]) in
      let '(data, c) :=
        c_make_data Cc (latent_dim ch) (embed_dim ch) (c_self ch)
                    init_conds control timesteps noisy in
      let? _ := assert (shape_is data [n; timesteps; embed_dim ch]) in
      Done (data, set_self c ch).

Definition calc_loss (ch : challenge) (x y : ndarray) : try Q :=
      let? _ := assert (shape_is x (shape y)) in
      Done (c_calc_loss Cc (latent_dim ch) (embed_dim ch) (c_self ch) x y).

(** [control.shape[2]] is read before [control.ndim] is looked at. *)
Definition calc_control_cost (ch : challenge) (control : ndarray) : try Q :=
      match shape control !! 2%nat with
      | None => Raise IndexError
      | Some d =>
          let? _ := assert ((d =? embed_dim ch) && (ndim control =? 3)) in
          Done (c_calc_control_cost Cc (latent_dim ch) (embed_dim ch) (c_self ch) control)
      end.

(** *** [Task] *)

(** [_id] is the next value of [itertools.count()]. *)
Record task := {
      _N : list Z;
      _L : list Z;
      _E : list Z;
      _T : list Z;
      _C : list Q;
      _control_horizons : Z;
      _reps : Z;
      _test_examples : Z;
      _test_timesteps : Z;
      _id : Z;
    }.

(** [Task.__init__] *)
Definition task_init (N L E T : list Z) (C : list Q)
        (control_horizons reps test_examples test_timesteps : Z) : try task :=
      let? _ := assert (0 <? control_horizons) in
      Done {| _N := N; _L := L; _E := E; _T := T; _C := C;
              _control_horizons := control_horizons; _reps := reps;
              _test_examples := test_examples;
              _test_timesteps := test_timesteps; _id := 0 |}.

(** The dictionary [data]: a list per column, and [id] once it is set. *)
Record columns := {
      col_n : list Z;
      col_latent_dim : list Z;
      col_embed_dim : list Z;
      col_timesteps : list Z;
      col_loss : list Q;
      col_cost : list Q;
      col_id : option Z;
    }.

Definition no_columns : columns :=
      {| col_n := []; col_latent_dim := []; col_embed_dim := [];
         col_timesteps := []; col_loss := []; col_cost := []; col_id := None |}.

Definition append_row (n latent embed timesteps : Z) (loss cost : Q)
        (d : columns) : columns :=
      {| col_n := col_n d ++ [n]; col_latent_dim := col_latent_dim d ++ [latent];
         col_embed_dim := col_embed_dim d ++ [embed];
         col_timesteps := col_timesteps d ++ [timesteps];
         col_loss := col_loss d ++ [loss]; col_cost := col_cost d ++ [cost];
         col_id := col_id d |}.

(** [data["id"] = v] *)
Definition set_id (v : Z) (d : columns) : columns :=
      {| col_n := col_n d; col_latent_dim := col_latent_dim d;
         col_embed_dim := col_embed_dim d; col_timesteps := col_timesteps d;
         col_loss := col_loss d; col_cost := col_cost d; col_id := Some v |}.

Record df_row := {
      r_n : Z;
      r_latent_dim : Z;
      r_embed_dim : Z;
      r_timesteps : Z;
      r_loss : Q;
      r_cost : Q;
      r_id : option Z;
    }.

(** [pd.DataFrame(data)]: one row per index of the column lists, which
        must be equally long; a scalar is repeated in every row. *)
Definition DataFrame (d : columns) : try (list df_row) :=
      let k := length (col_n d) in
      if bool_decide (length (col_latent_dim d) = k ∧ length (col_embed_dim d) = k
                      ∧ length (col_timesteps d) = k ∧ length (col_loss d) = k
                      ∧ length (col_cost d) = k)
      then
        Done (zip_with (fun '(n, l, e, t) '(lo, co) =>
                          {| r_n := n; r_latent_dim := l; r_embed_dim := e;
                             r_timesteps := t; r_loss := lo; r_cost := co;
                             r_id := col_id d |})
                       (zip (zip (zip (col_n d) (col_latent_dim d)) (col_embed_dim d))
                            (col_timesteps d))
                       (zip (col_loss d) (col_cost d)))
      else Raise ValueError.

(** [itertools.product(N, L, E, T, C)] *)
Definition product (N L E T : list Z) (C : list Q) : list (Z * Z * Z * Z * Q) :=
      n ← N; l ← L; e ← E; t ← T; c ← C; [(n, l, e, t, c)].

(** The variables of the loop over the control horizons. [x] is unbound
        until the first horizon has run. *)
Record train_state := {
      t_x : option ndarray;
      t_model : model;
      t_challenge : challenge;
      t_total_control_cost : Q;
    }.

(** The body of [for j in range(self._control_horizons)]. *)
Definition horizon (train_init_conds : ndarray) (timesteps : Z) (noisy : bool)
        (j : Z) (st : train_state) : try train_state :=
      let? '(x, ch, total) :=
        (if j =? 0 then
           let? '(x, ch) :=
             make_data (t_challenge st) train_init_conds None timesteps noisy in
           Done (x, ch, t_total_control_cost st)
         else
           match t_x st with
           | None => Raise NameError
           | Some x =>
               let? control := act (t_model st) x in
               let? cost := calc_control_cost (t_challenge st) control in
               let? x0 := first_step x in
               let? '(x', ch) :=
                 make_data (t_challenge st) x0 (Some control) timesteps noisy in
               Done (x', ch, (t_total_control_cost st + cost)%Q)
           end) in
      Done {| t_x := Some x; t_model := fit (t_model st) x; t_challenge := ch;
              t_total_control_cost := total |}.

(** The loop over the first [k] control horizons. *)
Definition train (train_init_conds : ndarray) (timesteps : Z) (noisy : bool)
        (k : Z) (m : model) (ch : challenge) : try train_state :=
      for_each (horizon train_init_conds timesteps noisy) (seqZ 0 k)
               {| t_x := None; t_model := m; t_challenge := ch;
                  t_total_control_cost := 0 |}.

(** The test data, the prediction and its loss. *)
Definition score (tk : task) (m : model) (ch : challenge) (timesteps : Z)
        (in_dist : bool) : try (Q * challenge) :=
      let? '(test_init_conds, ch) := make_init_conds ch (_test_examples tk) in_dist in
      let? '(test, ch) := make_data ch test_init_conds None (_test_timesteps tk) false in
      let? x0 := first_step test in
      let? pred := predict m x0 timesteps in
      let? loss := calc_loss ch pred test in
      Done (loss, ch).

(** The body of the loop over the combinations: the challenge of this
        repetition, if one was made, and the table. *)
Definition combination (tk : task) (in_dist noisy : bool)
        (c : Z * Z * Z * Z * Q) (st : option challenge * columns)
        : try (option challenge * columns) :=
      let '(n, latent, embed, timesteps, max_control_cost) := c in
      let '(och, d) := st in
      if embed <? latent then Done st
      else
        let ch := match och with
                  | None => challenge_init latent embed
                  | Some ch => ch
                  end in
        let ch := if negb (latent =? latent_dim ch) then set_latent_dim latent ch else ch in
        let ch := if negb (embed =? embed_dim ch) then set_embed_dim embed ch else ch in
        let m := model_init embed timesteps max_control_cost in
        let? '(train_init_conds, ch) := make_init_conds ch n true in
        let? tr := train train_init_conds timesteps noisy (_control_horizons tk) m ch in
        let? _ := assert (Qle_bool (t_total_control_cost tr) max_control_cost) in
        let? '(loss, ch) := score tk (t_model tr) (t_challenge tr) timesteps in_dist in
        Done (Some ch,
              append_row n latent embed timesteps loss (t_total_control_cost tr) d).

(** The body of [for i in range(self._reps)]: the table and the counter. *)
Definition repetition (tk : task) (in_dist noisy : bool) (i : Z)
        (st : columns * Z) : try (columns * Z) :=
      let '(d, next) := st in
      let? '(_, d) :=
        for_each (combination tk in_dist noisy)
                 (product (_N tk) (_L tk) (_E tk) (_T tk) (_C tk)) (None, d) in
      Done (set_id next d, next + 1).

(** [Task.evaluate]: the table, and the task with its counter advanced. *)
Definition evaluate (tk : task) (in_dist noisy : bool) : try (list df_row * task) :=
      let? '(d, next) :=
        for_each (repetition tk in_dist noisy) (seqZ 0 (_reps tk)) (no_columns, _id tk) in
      let? df := DataFrame d in
      Done (df,
            {| _N := _N tk; _L := _L tk; _E := _E tk; _T := _T tk; _C := _C tk;
               _control_horizons := _control_horizons tk; _reps := _reps tk;
               _test_examples := _test_examples tk;
               _test_timesteps := _test_timesteps tk; _id := next |}).

(** The state of the training loop after a horizon: a batch is bound and
    has [timesteps] steps of the challenge's embedding dimension. *)
Definition batch_ok (timesteps : Z) (st : train_state) : Prop :=
  exists x n, t_x st = Some x
              /\ shape x = [n; timesteps; embed_dim (t_challenge st)]
              /\ 0 < timesteps.

(** The claim that a horizon continues from the last state of the batch,
        in the words of the specification, to compare [horizon] with. *)
Definition horizon_from_last_state (timesteps : Z) (noisy : bool)
        (st : train_state) : try train_state :=
      match t_x st with
      | None => Raise NameError
      | Some x =>
          let? control := act (t_model st) x in
          let? cost := calc_control_cost (t_challenge st) control in
          let? x0 := last_step x in
          let? '(x', ch) :=
            make_data (t_challenge st) x0 (Some control) timesteps noisy in
          Done {| t_x := Some x'; t_model := fit (t_model st) x';
                  t_challenge := ch;
                  t_total_control_cost := (t_total_control_cost st + cost)%Q |}
      end.

End Classes.

Arguments m_embed_dim {Mc}.
Arguments m_timesteps {Mc}.
Arguments m_max_control_cost {Mc}.
Arguments m_self {Mc}.
Arguments latent_dim {Cc}.
Arguments embed_dim {Cc}.
Arguments c_self {Cc}.
Arguments t_x {Mc Cc}.
Arguments t_model {Mc Cc}.
Arguments t_challenge {Mc Cc}.
Arguments t_total_control_cost {Mc Cc}.

End Dynascale.

(** ** A synthetic system and model

    The error of a model is a function [e] of the number of trajectories it
    was trained on; nothing is random and controls cost nothing. *)

Definition toy_env (e : Z -> float) (start nmax prec win : Z) (target : Q)
    : env unit unit nat :=
  {| rep_id := 0; latent_dim := 2; embed_dim := 2; timesteps := 10;
     test_ood := false;
     n_start := start; n_max := nmax; n_precision := prec; n_window := win;
     target_error := Num target;
     gen_trainset := fun k w => (replicate (Z.to_nat k) tt, w);
     model_cls := O;
     fit_model := fun _ ts w => ((length ts, Num 0), w);
     test_error := fun m _ w => (e (Z.of_nat m), w) |}.

Definition numZ (z : Z) : float := Num (inject_Z z).



(** A system whose state grows by one at every step (plus the control), and
    a model that knows it; the model emits no control. *)
Definition toy_rows (n t e : Z) (entry : nat -> nat -> nat -> Q) : list Q :=
  i ← seq 0 (Z.to_nat n); j ← seq 0 (Z.to_nat t); k ← seq 0 (Z.to_nat e);
  [entry i j k].

Definition toy_challenge : Dynascale.ChallengeCls :=
  {| Dynascale.cstate := unit;
     Dynascale.c_new := fun _ _ => tt;
     Dynascale.c_make_init_conds := fun _ embed c n _ =>
       ({| Dynascale.shape := [n; embed];
           Dynascale.data := (fun z => inject_Z z) <$> seqZ 1 (n * embed) |}, c);
     Dynascale.c_make_data := fun _ embed c init control t _ =>
       let n := nth 0 (Dynascale.shape init) 0 in
       ({| Dynascale.shape := [n; t; embed];
           Dynascale.data :=
             toy_rows n t embed (fun i j k =>
               (nth (i * Z.to_nat embed + k) (Dynascale.data init) 0
                + inject_Z (Z.of_nat j)
                + nth ((i * Z.to_nat t + j) * Z.to_nat embed + k)
                      (Dynascale.data control) 0)%Q) |}, c);
     Dynascale.c_calc_loss := fun _ _ _ x y =>
       foldr Qplus 0%Q
             (zip_with (fun a b => Qabs (a - b)) (Dynascale.data x) (Dynascale.data y));
     Dynascale.c_calc_control_cost := fun _ _ _ control =>
       foldr Qplus 0%Q (Qabs <$> Dynascale.data control) |}.

Definition toy_model : Dynascale.ModelCls :=
  {| Dynascale.mstate := unit;
     Dynascale.m_new := fun _ _ _ => tt;
     Dynascale.m_fit := fun m _ => m;
     Dynascale.m_act := fun _ x => Dynascale.zeros_like x;
     Dynascale.m_predict := fun _ x0 t =>
       let n := nth 0 (Dynascale.shape x0) 0 in
       let e := nth 1 (Dynascale.shape x0) 0 in
       {| Dynascale.shape := [n; t; e];
          Dynascale.data :=
            toy_rows n t e (fun i j k =>
              (nth (i * Z.to_nat e + k) (Dynascale.data x0) 0
               + inject_Z (Z.of_nat j))%Q) |} |}.

(** Two repetitions of one combination, with [control_horizons] horizons. *)
Definition toy_task (control_horizons reps timesteps test_timesteps : Z)
    : Dynascale.task :=
  {| Dynascale._N := [1]; Dynascale._L := [1]; Dynascale._E := [1];
     Dynascale._T := [timesteps]; Dynascale._C := [1%Q];
     Dynascale._control_horizons := control_horizons; Dynascale._reps := reps;
     Dynascale._test_examples := 2; Dynascale._test_timesteps := test_timesteps;
     Dynascale._id := 0 |}.


(** Error curves: one that rises, two that fall and then rise, one that
    meets the target exactly, [1/n], and one that falls. *)
Definition e_rise (n : Z) : float := if n <=? 2 then numZ 10 else numZ 11.
Definition e_tie (n : Z) : float :=
  if n <=? 1 then numZ 10 else if n <=? 2 then numZ 5 else numZ 1.
Definition e_inv (n : Z) : float := Num (1 # Z.to_pos n).
Definition e_fall (n : Z) : float := numZ (1000 - n).
Definition e_flat (n : Z) : float := numZ 10.

(** ** What the statements about a whole search speak of *)

Section SearchFacts.
Context {W Traj Mdl : Type}.
Variable E : env W Traj Mdl.

Local Abbreviation St := (session W Traj).

(** The values [search] documents: [np.inf], -1, or a number of
    trajectories, here one between [lo] and [n_max]. *)
Definition answer_in (lo : Z) (v : ext) : Prop :=
  match v with
  | Inf => True
  | Fin n => n = -1 \/ lo <= n <= n_max E
  end.

(** What holds of the variables of the first loop at the head of every
    iteration, for sample counts from [lo] on. *)
Definition probe_inv (lo : Z) (st : exp_state) : Prop :=
  lo <= n_curr st
  /\ Forall (fun p => lo <= p <= n_max E) (n_prevs st)
  /\ 0 <= increment st
  /\ (n_prevs st <> [] -> is_Some (error_prev st))
  /\ answer_in lo (best_answer st).

(** The error [run_helper] memoizes and returns for a row: the
    out-of-distribution error if the row has one, else the error. *)
Definition steering_error (r : row) : float :=
  match row_ood_error r with
  | Some oe => oe
  | None => row_error r
  end.

(** The table and the memo tell the same story: one row, one memo entry
    and one model per sample count, every row with the columns of the run
    and with the pair the memo holds for its sample count. *)
Definition table_ok (s : St) : Prop :=
  NoDup (row_n <$> result s)
  /\ models_built s = length (result s)
  /\ size (memo s) = length (result s)
  /\ Forall (fun r =>
       row_rep r = rep_id E /\ row_latent_dim r = latent_dim E
       /\ row_embed_dim r = embed_dim E /\ row_timesteps r = timesteps E
       /\ (is_Some (row_ood_error r) <-> test_ood E = true)
       /\ memo s !! row_n r = Some (steering_error r, row_total_cost r))
     (result s).

(** A bracket of the binary phase on the curve [f]: its errors are those
    of the curve at its ends, the error at the lower end is above the
    target and the error at the upper end below it. *)
Definition bracket_ok (f : Z -> float) (b : bin_state) : Prop :=
  1 <= n_lower b < n_upper b
  /\ error_lower b = f (n_lower b) /\ error_upper b = f (n_upper b)
  /\ fgt (error_lower b) (target_error E) = true
  /\ flt (error_upper b) (target_error E) = true.

(** The variables of a search on the curve [f] that has only moved
    forward, over sample counts whose error is above the target. *)
Definition climbing (f : Z -> float) (st : exp_state) : Prop :=
  n_start E <= n_curr st
  /\ 1 <= increment st
  /\ (forall p, p ∈ history st -> p.1 < n_curr st)
  /\ match last (n_prevs st) with
     | None => n_curr st = n_start E
     | Some p => n_start E <= p < n_curr st /\ error_prev st = Some (f p)
                 /\ fgt (f p) (target_error E) = true
     end.



End SearchFacts.

(** ** [FixedError.__init__] *)

Module FixedError.
Import Dynascale.

Fixpoint insort (x : Z) (l : list Z) : list Z :=
    match l with
    | [] => [x]
    | y :: l' => if x <=? y then x :: l else y :: insort x l'
    end.

(** [sorted(L)] *)
Definition sorted (L : list Z) : list Z := foldr insort [] L.

(** [{k: v for k, v in items}]: a later pair replaces an earlier one with
      the same key. *)
Definition dict_of (items : list (Z * Z)) : gmap Z Z :=
    foldl (fun d kv => <[kv.1 := kv.2]> d) ∅ items.

(** The attributes [__init__] sets before it calls the initialiser of the
      base class. *)
Record fixed_error := {
    n_starts : gmap Z Z;
    n_precision : Z;
    n_window : Z;
    n_max : Z;
    _target_error : float;
  }.

(** [FixedError.__init__] up to the call of the initialiser of the base
      class, which is not among the sources. [n_starts = None] is the
      default; an empty list is as false as [None]. *)
Definition init (L : list Z) (target_error : float) (n_precision : Z)
      (n_starts : option (list Z)) (n_window n_max : Z) : try fixed_error :=
    let? _ := assert (0 <=? n_precision) in
    let? _ := assert (bool_decide (L = sorted L)) in
    let? starts :=
      match n_starts with
      | Some (n :: ns) =>
          let? _ := assert (bool_decide (length L = length (n :: ns))) in
          Done (dict_of (zip L (n :: ns)))
      | _ => Done (dict_of ((fun l => (l, 1)) <$> L))
      end in
    Done {| n_starts := starts; n_precision := n_precision;
            n_window := n_window; n_max := n_max;
            _target_error := target_error |}.

(** [self.n_starts.get(latent_dim, 1)] *)
Definition n_start_for (self : fixed_error) (latent_dim : Z) : Z :=
    default 1 (n_starts self !! latent_dim).

End FixedError.

(** ** What the statements about the table of [Task.evaluate] speak of *)

Section TableFacts.
Import Dynascale.

(** [embed_dim < latent_dim]: the combination is passed over. *)
Definition skipped (c : Z * Z * Z * Z * Q) : bool :=
  let '(_, latent, embed, _, _) := c in embed <? latent.

(** The combinations of one repetition that are not passed over, in the
    order of the loop. *)
Definition evaluated (tk : task) : list (Z * Z * Z * Z * Q) :=
  List.filter (fun c => negb (skipped c))
              (product (_N tk) (_L tk) (_E tk) (_T tk) (_C tk)).

(** The four columns that say which combination a row belongs to. *)
Definition keys (d : columns) : list (Z * Z * Z * Z) :=
  zip (zip (zip (col_n d) (col_latent_dim d)) (col_embed_dim d)) (col_timesteps d).

Definition key (r : df_row) : Z * Z * Z * Z :=
  (r_n r, r_latent_dim r, r_embed_dim r, r_timesteps r).

(** All column lists are equally long. *)
Definition cols_ok (d : columns) : Prop :=
  length (col_latent_dim d) = length (col_n d)
  /\ length (col_embed_dim d) = length (col_n d)
  /\ length (col_timesteps d) = length (col_n d)
  /\ length (col_loss d) = length (col_n d)
  /\ length (col_cost d) = length (col_n d).

(** The task with its counter at [next]. *)
Definition with_id (next : Z) (tk : task) : task :=
  {| _N := _N tk; _L := _L tk; _E := _E tk; _T := _T tk; _C := _C tk;
     _control_horizons := _control_horizons tk; _reps := _reps tk;
     _test_examples := _test_examples tk;
     _test_timesteps := _test_timesteps tk; _id := next |}.

End TableFacts.

(** * Proofs *)

(** ** Floats *)

Lemma Qltb_lt x y : Qltb x y = true <-> (x < y)%Q.
Proof.
  unfold Qltb. rewrite negb_true_iff. split.
  - intros H. apply Qnot_le_lt. intros Hle.
    apply Qle_bool_iff in Hle. congruence.
  - intros H. destruct (Qle_bool y x) eqn:Hb; [|done].
    apply Qle_bool_iff in Hb. exfalso. by apply (Qlt_not_le x y).
Qed.

Lemma fgt_not_fle a b : fgt a b = true -> fle a b = false.
Proof.
  destruct a as [x| | |], b as [y| | |]; simpl; try done.
  intros H%Qltb_lt. destruct (Qle_bool x y) eqn:Hb; [|done].
  apply Qle_bool_iff in Hb. exfalso. by apply (Qlt_not_le y x).
Qed.

Lemma fgt_not_flt a b : fgt a b = true -> flt a b = false.
Proof.
  destruct a as [x| | |], b as [y| | |]; simpl; try done.
  intros H%Qltb_lt. unfold Qltb. apply negb_false_iff, Qle_bool_iff.
  by apply Qlt_le_weak.
Qed.


Lemma numZ_fgt a b : fgt (numZ a) (numZ b) = true <-> b < a.
Proof. unfold numZ. simpl. rewrite Qltb_lt. by rewrite <- Zlt_Qlt. Qed.

Lemma numZ_fle a b : fle (numZ a) (numZ b) = true <-> a <= b.
Proof. unfold numZ. simpl. rewrite Qle_bool_iff. by rewrite <- Zle_Qle. Qed.

(** ** The state monad *)

Lemma mapM_app {S A B} (f : A -> M S B) l1 l2 s :
  mapM f (l1 ++ l2) s =
  (let '(ys1, s1) := mapM f l1 s in
   let '(ys2, s2) := mapM f l2 s1 in (ys1 ++ ys2, s2)).
Proof.
  revert s. induction l1 as [|x l1 IH]; intros s; simpl.
  - unfold bind, ret. by destruct (mapM f l2 s).
  - unfold bind, ret. destruct (f x s) as [y s1]. rewrite IH.
    destruct (mapM f l1 s1) as [ys1 s2]. by destruct (mapM f l2 s2).
Qed.

(** A property of the state that every call keeps is kept by the loop. *)
Lemma mapM_invariant {S A B} (f : A -> M S B) (I : S -> Prop) l s :
  (forall x s, I s -> I (snd (f x s))) -> I s -> I (snd (mapM f l s)).
Proof.
  intros Hf. revert s. induction l as [|x l IH]; intros s Hs; simpl; [done|].
  unfold bind, ret. specialize (Hf x s Hs). destruct (f x s) as [y s1].
  specialize (IH s1 Hf). by destruct (mapM f l s1).
Qed.

(** ** The synthetic system and model *)

Lemma toy_gen_ok e start nmax prec win target :
  gen_ok (toy_env e start nmax prec win target).
Proof. intros k w Hk. simpl. apply length_replicate. Qed.

Lemma toy_realises e start nmax prec win target :
  realises (toy_env e start nmax prec win target) e.
Proof. intros ts w. reflexivity. Qed.

(** ** The trajectory pool *)

Section Pool.
Context {W Traj Mdl : Type}.
Variable E : env W Traj Mdl.
Hypothesis Hgen : gen_ok E.

Local Abbreviation St := (session W Traj).
Local Abbreviation pool := (@master_training_set W Traj).

Lemma get_training_set_enough n (s : St) :
    0 <= n -> n <= Z.of_nat (length (pool s)) ->
    get_training_set E n s = (take (Z.to_nat n) (pool s), s).
Proof.
    intros H0 Hn. unfold get_training_set, slice_to.
    destruct (Z.leb_spec n (Z.of_nat (length (pool s)))); [|lia].
    by destruct (Z.leb_spec 0 n); [|lia].
Qed.

Lemma get_training_set_more n (s : St) :
    Z.of_nat (length (pool s)) < n ->
    exists added w,
      length added = Z.to_nat (n - Z.of_nat (length (pool s)))
      /\ get_training_set E n s
         = (pool s ++ added, set_pool (pool s ++ added) w s)
      /\ Z.of_nat (length (pool s ++ added)) = n.
Proof.
    intros Hn. unfold get_training_set.
    destruct (Z.leb_spec n (Z.of_nat (length (pool s)))); [lia|].
    pose proof (Hgen (n - Z.of_nat (length (pool s))) (world s)) as Hlen.
    destruct (gen_trainset E _ (world s)) as [added w]. simpl in Hlen.
    exists added, w. split; [apply Hlen; lia|]. split; [done|].
    rewrite length_app, Hlen by lia. lia.
Qed.

Lemma get_training_set_prefix n (s : St) :
    0 <= n ->
    pool s `prefix_of` pool (snd (get_training_set E n s))
    /\ fst (get_training_set E n s) `prefix_of` pool (snd (get_training_set E n s)).
Proof.
    intros H0. destruct (Z.le_gt_cases n (Z.of_nat (length (pool s)))) as [Hn|Hn].
    - rewrite get_training_set_enough by done. simpl. split; [done|].
      eexists. symmetry. apply take_drop.
    - destruct (get_training_set_more n s) as (added & w & _ & -> & _); [lia|].
      simpl. split; [by apply prefix_app_r|done].
Qed.

Lemma get_training_set_length n (s : St) :
    0 <= n -> length (fst (get_training_set E n s)) = Z.to_nat n.
Proof.
    intros H0. destruct (Z.le_gt_cases n (Z.of_nat (length (pool s)))) as [Hn|Hn].
    - rewrite get_training_set_enough by done. simpl. rewrite length_take. lia.
    - destruct (get_training_set_more n s) as (added & w & _ & -> & Hl); [lia|].
      simpl. lia.
Qed.

Lemma requests_prefix ns (s : St) :
    Forall (fun n => 0 <= n) ns ->
    pool s `prefix_of` pool (snd (mapM (get_training_set E) ns s))
    /\ Forall (fun ts => ts `prefix_of` pool (snd (mapM (get_training_set E) ns s)))
              (fst (mapM (get_training_set E) ns s)).
Proof.
    intros Hns. revert s. induction Hns as [|n ns Hn _ IH]; intros s; simpl.
    - split; [done|constructor].
    - unfold bind, ret.
      destruct (get_training_set_prefix n s Hn) as [Hp Ht].
      destruct (get_training_set E n s) as [ts s1]. simpl in *.
      destruct (IH s1) as [Hp1 Hall].
      destruct (mapM (get_training_set E) ns s1) as [tss s2]. simpl in *.
      split; [by etrans|]. constructor; [by etrans|done].
Qed.

(** C6: the trajectory pool only grows. A request for no more than the
      pool holds returns the first [n] trajectories and leaves the pool as
      it is; a larger request appends exactly [n - pool_size] new
      trajectories and returns the whole pool, which then holds [n]; and
      after any sequence of requests the pool extends the pool it started
      from and every set that was returned is a prefix of it. *)
Theorem pool_only_grows :
    (forall n (s : St), 0 <= n -> n <= Z.of_nat (length (pool s)) ->
       get_training_set E n s = (take (Z.to_nat n) (pool s), s))
    /\ (forall n (s : St), Z.of_nat (length (pool s)) < n ->
          exists added w,
            length added = Z.to_nat (n - Z.of_nat (length (pool s)))
            /\ get_training_set E n s
               = (pool s ++ added, set_pool (pool s ++ added) w s)
            /\ Z.of_nat (length (pool s ++ added)) = n)
    /\ (forall ns (s : St), Forall (fun n => 0 <= n) ns ->
          pool s `prefix_of` pool (snd (mapM (get_training_set E) ns s))
          /\ Forall (fun ts => ts `prefix_of`
                                 pool (snd (mapM (get_training_set E) ns s)))
                    (fst (mapM (get_training_set E) ns s))).
Proof.
    split; [exact get_training_set_enough|].
    split; [exact get_training_set_more|exact requests_prefix].
Qed.

End Pool.

Lemma pool_only_grows_witness :
  let T := toy_env e_inv 1 100 1 0 (1 # 10) in
  let s0 := init_session T tt in
  let pool := master_training_set s0 in
  gen_ok T
  /\ get_training_set T 4 s0 = (take 4 pool, s0)
  /\ (exists added w,
        length added = 2%nat
        /\ get_training_set T 12 s0
           = (pool ++ added, set_pool (pool ++ added) w s0)
        /\ Z.of_nat (length (pool ++ added)) = 12)
  /\ Forall (fun ts => ts `prefix_of`
               master_training_set (snd (mapM (get_training_set T) [4; 12; 7] s0)))
            (fst (mapM (get_training_set T) [4; 12; 7] s0)).
Proof.
  intros T s0 pool.
  pose proof (toy_gen_ok e_inv 1 100 1 0 (1 # 10)) as Hgen.
  destruct (pool_only_grows T Hgen) as (Hsmall & Hlarge & Hall).
  split; [exact Hgen|]. split; [apply (Hsmall 4 s0); simpl; lia|].
  split; [apply (Hlarge 12 s0); simpl; lia|].
  apply (Hall [4; 12; 7] s0). repeat constructor; lia.
Defined.

(** ** The memo and the result table *)

Section Memo.
Context {W Traj Mdl : Type}.
Variable E : env W Traj Mdl.

Local Abbreviation St := (session W Traj).

Lemma run_helper_hit n (s : St) r :
  memo s !! n = Some r -> run_helper E n s = (r, s).
Proof. intros H. unfold run_helper. by rewrite H. Qed.

(** A miss builds one model, trains it on the training set of size [n],
    appends one row for [n] and memoizes the error it measured. *)
Lemma run_helper_miss n (s : St) :
  memo s !! n = None ->
  exists c rw w,
    let ts_s1 := get_training_set E n (count_model s) in
    run_helper E n s
    = ((measured E (fst ts_s1) (world (snd ts_s1)), c),
       {| world := w;
          master_training_set := master_training_set (snd ts_s1);
          memo := <[n := (measured E (fst ts_s1) (world (snd ts_s1)), c)]> (memo s);
          result := result s ++ [rw];
          models_built := S (models_built s) |})
    /\ row_n rw = n.
Proof.
  intros H. unfold run_helper. rewrite H.
  unfold bind, modify, on_world, ret, measured.
  assert (Hm : memo (snd (get_training_set E n (count_model s))) = memo s
               /\ result (snd (get_training_set E n (count_model s))) = result s
               /\ models_built (snd (get_training_set E n (count_model s)))
                  = S (models_built s)).
  { unfold get_training_set. destruct (_ <=? _); [done|].
    by destruct (gen_trainset E _ _). }
  destruct (get_training_set E n (count_model s)) as [ts s1].
  simpl in *. destruct Hm as (Hm1 & Hm2 & Hm3).
  destruct (fit_model E (model_cls E) ts (world s1)) as [[m c] w1]. simpl.
  destruct (test_error E m true w1) as [err w2]. simpl.
  destruct (test_ood E).
  - simpl. destruct (test_error E m false w2) as [oe w3]. simpl.
    unfold memoize, append_result, set_world. simpl.
    eexists c, _, w3. rewrite Hm1, Hm2, Hm3. split; reflexivity.
  - simpl. unfold memoize, append_result, set_world. simpl.
    eexists c, _, w2. rewrite Hm1, Hm2, Hm3. split; reflexivity.
Qed.

Lemma rows_match_init w : rows_match (init_session E w).
Proof.
  intros n. unfold init_session, rows_for.
  by destruct (gen_trainset E 10 w).
Qed.

Lemma rows_match_run_helper n (s : St) :
  rows_match s -> rows_match (snd (run_helper E n s)).
Proof.
  intros Hs. destruct (memo s !! n) as [r|] eqn:Hn.
  - by rewrite (run_helper_hit n s r).
  - destruct (run_helper_miss n s Hn) as (c & rw & w & -> & Hrw).
    intros k. specialize (Hs k). unfold rows_for in *. simpl.
    rewrite filter_app, length_app, Hs. simpl.
    destruct (decide (k = n)) as [->|Hk].
    + rewrite lookup_insert_eq, Hn. rewrite filter_cons_True by done. done.
    + rewrite lookup_insert_ne by done.
      rewrite filter_cons_False by congruence. simpl. lia.
Qed.

Lemma rows_match_model_run n win (s : St) :
  rows_match s -> rows_match (snd (model_run E n win s)).
Proof.
  intros Hs. unfold model_run. destruct (0 <? win).
  - unfold bind, ret.
    pose proof (mapM_invariant (run_helper E) rows_match
                  (py_range (Z.max 1 (n - win)) (Z.min (n + win + 1) (n_max E))) s
                  rows_match_run_helper Hs) as H.
    by destruct (mapM _ _ s).
  - by apply rows_match_run_helper.
Qed.

Lemma run_helper_memoizes n (s : St) :
  is_Some (memo (snd (run_helper E n s)) !! n).
Proof.
  destruct (memo s !! n) as [r|] eqn:Hn.
  - rewrite (run_helper_hit n s r) by done. simpl. by rewrite Hn.
  - destruct (run_helper_miss n s Hn) as (c & rw & w & -> & _). simpl.
    rewrite lookup_insert_eq. by eexists.
Qed.

(** C5: in one cell, whatever [model_run] calls came before, a second
    [model_run(n, 0)] returns the pair of the first, leaves the cell as it
    was (so no model is built and no row is appended), and the table holds
    exactly one row for [n]. *)
Theorem model_run_memoized (calls : list (Z * Z)) (w : W) (n : Z) :
  let s := snd (mapM (fun c => model_run E c.1 c.2) calls (init_session E w)) in
  let first := model_run E n 0 s in
  let second := model_run E n 0 (snd first) in
  fst second = fst first
  /\ snd second = snd first
  /\ models_built (snd second) = models_built (snd first)
  /\ result (snd second) = result (snd first)
  /\ length (rows_for n (snd second)) = 1%nat.
Proof.
  intros s first second.
  assert (Hs : rows_match s).
  { apply mapM_invariant; [|apply rows_match_init].
    intros c s0. apply rows_match_model_run. }
  assert (Hf : rows_match (snd first)) by by apply rows_match_model_run.
  assert (Hm : is_Some (memo (snd first) !! n)).
  { subst first. unfold model_run. simpl. apply run_helper_memoizes. }
  destruct Hm as [r Hr].
  assert (Hsec : second = (r, snd first)).
  { subst second. unfold model_run. simpl. by apply run_helper_hit. }
  assert (Hfst : fst first = r).
  { subst first. unfold model_run in *. simpl in *.
    destruct (memo s !! n) as [r0|] eqn:Hn.
    - rewrite (run_helper_hit n s r0) in * by done. simpl in *. congruence.
    - destruct (run_helper_miss n s Hn) as (c & rw & w' & Heq & _).
      simpl in Heq. rewrite Heq in *. simpl in *.
      rewrite lookup_insert_eq in Hr. congruence. }
  rewrite Hsec. simpl. repeat split; try done.
  specialize (Hf n). by rewrite Hr in Hf.
Qed.

End Memo.

(** ** The collaborators as an error curve *)

Section Curve.
Context {W Traj Mdl : Type}.
Variable E : env W Traj Mdl.
Variable e : Z -> float.
Hypothesis Hgen : gen_ok E.
Hypothesis Hreal : realises E e.

Local Abbreviation St := (session W Traj).

Lemma memo_ok_init w : memo_ok e (init_session E w).
Proof.
  intros n r. unfold init_session. destruct (gen_trainset E 10 w). simpl.
  by rewrite lookup_empty.
Qed.

Lemma run_helper_curve n (s : St) :
  memo_ok e s -> 0 <= n ->
  exists c s', run_helper E n s = ((e n, c), s') /\ memo_ok e s'.
Proof.
  intros Hs Hn. destruct (memo s !! n) as [r|] eqn:Hm.
  - exists (snd r), s. rewrite (run_helper_hit E n s r Hm).
    rewrite <- (Hs n r Hm). by destruct r.
  - destruct (run_helper_miss E n s Hm) as (c & rw & w & Heq & _).
    simpl in Heq. rewrite Heq. rewrite Hreal.
    rewrite (get_training_set_length E Hgen) by done. rewrite Z2Nat.id by done.
    eexists _, _. split; [done|].
    intros k r. simpl. destruct (decide (n = k)) as [->|Hk].
    + rewrite lookup_insert_eq. by intros [= <-].
    + rewrite lookup_insert_ne by done. apply Hs.
Qed.

Lemma mapM_run_helper_curve l (s : St) :
  memo_ok e s -> Forall (fun n => 0 <= n) l ->
  exists rs s', mapM (run_helper E) l s = (rs, s')
                /\ fst <$> rs = e <$> l /\ memo_ok e s'.
Proof.
  intros Hs Hl. revert s Hs. induction Hl as [|n l Hn _ IH]; intros s Hs; simpl.
  - by exists [], s.
  - unfold bind, ret.
    destruct (run_helper_curve n s Hs Hn) as (c & s1 & -> & Hs1).
    destruct (IH s1 Hs1) as (rs & s2 & -> & Hrs & Hs2).
    eexists _, _. split; [done|]. split; [|done].
    rewrite !fmap_cons. by rewrite Hrs.
Qed.

(** [model_run] with the configured window reports the windowed error. *)
Lemma model_run_curve : probes_as E (windowed E e) (memo_ok e).
Proof.
  intros n s Hs Hn. unfold model_run, windowed.
  destruct (0 <? n_window E) eqn:Hw.
  - unfold bind, ret.
    destruct (mapM_run_helper_curve
                (py_range (Z.max 1 (n - n_window E))
                          (Z.min (n + n_window E + 1) (n_max E))) s Hs)
      as (rs & s' & -> & Hrs & Hs').
    { apply Forall_forall. intros k Hk. unfold py_range in Hk.
      apply elem_of_seqZ in Hk. lia. }
    eexists _, s'. by rewrite Hrs.
  - apply run_helper_curve; [done|lia].
Qed.

End Curve.

(** ** The exponential phase *)

Section ExpPhase.
Context {W Traj Mdl : Type}.
Variable E : env W Traj Mdl.

Local Abbreviation St := (session W Traj).


Lemma pop_inv l :
  match pop l with
  | None => l = []
  | Some (x, l') => l = l' ++ [x]
  end.
Proof.
  unfold pop. destruct (reverse l) as [|x r] eqn:H.
  - apply (f_equal reverse) in H. by rewrite reverse_involutive in H.
  - apply (f_equal reverse) in H. rewrite reverse_involutive in H.
    by rewrite reverse_cons in H.
Qed.

(** The three ways an iteration of the first loop can go. *)
Lemma exp_step_cases st (s : St) :
  (n_max E < n_curr st
   /\ exp_step E st s = ((Return NeverReached (Fin (-1)), None), s))
  \/ (n_curr st <= n_max E
      /\ (n_curr st, increment st) ∈ history st
      /\ exp_step E st s = ((Return Cycle (best_answer st), None), s))
  \/ (n_curr st <= n_max E
      /\ ((n_curr st, increment st) ∉ history st)
      /\ exists x c s',
           model_run E (n_curr st) (n_window E) s = ((x, c), s')
           /\ exp_step E st s
              = ((exp_decide E st ({[ (n_curr st, increment st) ]} ∪ history st)
                             (update_best E (best_answer st) (n_curr st) x) x,
                  Some x), s')).
Proof.
  unfold exp_step. destruct (Z.ltb_spec (n_max E) (n_curr st)); [by left|].
  right. destruct (decide ((n_curr st, increment st) ∈ history st)); [by left|].
  right. split; [done|]. split; [done|]. unfold bind, ret.
  destruct (model_run E (n_curr st) (n_window E) s) as [[x c] s'].
  by exists x, c, s'.
Qed.

Lemma exp_decide_continue st hist best x st' :
  exp_decide E st hist best x = Continue st' ->
  history st' = hist /\ best_answer st' = best.
Proof.
  unfold exp_decide, forward, restart.
  repeat case_match; intros [= <-]; done.
Qed.

Lemma exp_decide_return st hist best x why v :
  exp_decide E st hist best x = Return why v ->
  (why = LocalMinimum /\ v = Inf)
  \/ (why = NoBackingUp /\ exists n, v = Fin n).
Proof.
  unfold exp_decide.
  repeat case_match; intros [= <- <-]; eauto.
Qed.

Lemma increment_high_pos : 0 <= increment_high E.
Proof. unfold increment_high. lia. Qed.

Lemma next_increment_bounds inc :
  0 <= n_max E -> 0 <= next_increment E inc <= increment_high E.
Proof.
  intros H. unfold next_increment, increment_high, increment_max,
    multiplicative_factor.
  assert (0 <= n_max E / 10) by (apply Z.div_pos; lia). lia.
Qed.

Lemma elem_of_exp_box n i :
  (n, i) ∈ exp_box E
  <-> n_low E <= n <= n_max E /\ 0 <= i <= increment_high E.
Proof.
  unfold exp_box. rewrite list_elem_of_In, in_prod_iff.
  rewrite <- !list_elem_of_In, !elem_of_seqZ. lia.
Qed.

Lemma exp_decide_inv st hist best x :
  0 <= n_max E -> exp_inv E st -> n_curr st <= n_max E ->
  (forall p, p ∈ hist -> p ∈ exp_box E) ->
  match exp_decide E st hist best x with
  | Continue st' => exp_inv E st'
  | Raises => False
  | _ => True
  end.
Proof.
  intros Hmax (Hn & Hprevs & Hinc & Herr & Hhist) Hle Hbox.
  assert (Hfwd : exp_inv E (forward E st hist best x)).
  { unfold exp_inv, forward. simpl. split; [lia|].
    split; [apply Forall_app; split; [done|by constructor]|].
    split; [by apply next_increment_bounds|]. split; [by eexists|done]. }
  assert (Hres : forall n, n_low E <= n -> exp_inv E (restart n hist best)).
  { intros n Hn'. unfold exp_inv, restart. simpl. split; [done|].
    split; [constructor|]. split; [unfold increment_high; lia|]. done. }
  assert (Hone : n_low E <= 1) by (unfold n_low; lia).
  unfold exp_decide.
  destruct (Z.ltb_spec 0 (Z.of_nat (length (n_prevs st)))) as [Hlen|Hlen].
  - destruct (error_prev st) as [ep|] eqn:Hep.
    2:{ destruct Herr as [? ?]; [|done]. intros Hnil. rewrite Hnil in Hlen.
        simpl in Hlen. lia. }
    destruct (fgt x ep).
    + destruct (Z.ltb_spec 1 (Z.of_nat (length (n_prevs st)))) as [Hlen2|Hlen2].
      * pose proof (pop_inv (n_prevs st)) as Hp.
        destruct (pop (n_prevs st)) as [[a l1]|].
        2:{ rewrite Hp in Hlen. simpl in Hlen. lia. }
        pose proof (pop_inv l1) as Hp1.
        destruct (pop l1) as [[b l2]|].
        2:{ rewrite Hp, Hp1 in Hlen2. simpl in Hlen2. lia. }
        destruct (_ <=? _); [done|]. apply Hres.
        rewrite Hp, Hp1 in Hprevs. rewrite !Forall_app in Hprevs.
        destruct Hprevs as [[_ Hb] _]. by inversion Hb.
      * pose proof (pop_inv (n_prevs st)) as Hp.
        destruct (pop (n_prevs st)) as [[a l1]|].
        2:{ rewrite Hp in Hlen. simpl in Hlen. lia. }
        destruct (_ <? _); [done|]. apply Hres. lia.
    + destruct (flt x (target_error E)); [done|apply Hfwd].
  - destruct (fgt x (target_error E)); [apply Hfwd|].
    destruct (_ <? _); [done|].
    unfold exp_inv. simpl. split; [lia|]. done.
Qed.

(** A set of pairs inside the box has no more elements than the box. *)
Lemma history_size (h : gset (Z * Z)) :
  (forall p, p ∈ h -> p ∈ exp_box E) -> (size h <= length (exp_box E))%nat.
Proof.
  intros Hh. unfold size, set_size. simpl.
  apply submseteq_length, NoDup_submseteq; [apply NoDup_elements|].
  intros p Hp. apply Hh. by apply elem_of_elements.
Qed.

Lemma exp_init_inv : exp_inv E (exp_init E).
Proof.
  unfold exp_inv, exp_init. simpl. split; [unfold n_low; lia|].
  split; [constructor|]. split; [unfold increment_high; lia|].
  split; [done|]. intros p Hp. by apply not_elem_of_empty in Hp.
Qed.

(** With as much fuel as pairs are left in the box, the first loop returns
    or breaks. *)
Lemma exp_loop_ends fuel st (s : St) :
  0 <= n_max E -> exp_inv E st ->
  (length (exp_box E) - size (history st) < fuel)%nat ->
  exists o probes s',
    exp_loop E fuel st s = ((o, probes), s')
    /\ ((exists why v, o = Returned why v) \/ (exists st', o = Broke st')).
Proof.
  intros Hmax. revert st s.
  induction fuel as [|fuel IH]; intros st s Hinv Hfuel; [lia|].
  simpl. unfold bind, ret.
  destruct (exp_step_cases st s) as [[_ ->]|[(_ & _ & ->)|(Hle & Hfresh & x & c & s' & _ & ->)]].
  - eexists _, _, _. split; [done|]. left. by eexists _, _.
  - eexists _, _, _. split; [done|]. left. by eexists _, _.
  - set (hist := {[ (n_curr st, increment st) ]} ∪ history st).
    set (best := update_best E (best_answer st) (n_curr st) x).
    assert (Hbox : forall p, p ∈ hist -> p ∈ exp_box E).
    { intros p [Hp|Hp]%elem_of_union.
      - apply elem_of_singleton in Hp as ->. apply elem_of_exp_box.
        destruct Hinv as (? & _ & ? & _). lia.
      - by apply Hinv. }
    pose proof (exp_decide_inv st hist best x Hmax Hinv Hle Hbox) as Hd.
    pose proof (exp_decide_continue st hist best x) as Hc.
    destruct (exp_decide E st hist best x) as [why v|st'|st'|]; [| | |done].
    + eexists _, _, _. split; [done|]. left. by eexists _, _.
    + eexists _, _, _. split; [done|]. right. by eexists.
    + destruct (Hc st' eq_refl) as [Hh _].
      assert (Hsize : size (history st') = S (size (history st))).
      { rewrite Hh. unfold hist. rewrite size_union by (by apply disjoint_singleton_l).
        by rewrite size_singleton. }
      assert (Hbound : (size (history st') <= length (exp_box E))%nat).
      { apply history_size. by rewrite Hh. }
      destruct (IH st' s' Hd) as (o & probes & s'' & -> & Ho); [lia|].
      eexists _, _, _. split; [done|]. done.
Qed.

(** The best answer stays the best of the probes when one more is made. *)
Lemma is_best_update probes best n x :
  is_best E probes best ->
  is_best E (probes ++ [(n, x)]) (update_best E best n x).
Proof.
  intros Hb. unfold update_best.
  destruct (fle x (target_error E)) eqn:Hx; simpl.
  - destruct best as [b|]; simpl in *.
    + destruct Hb as [(y & Hy & Hyt) Hmin].
      destruct (Z.ltb_spec n b) as [Hlt|Hge]; simpl.
      * split; [exists x; split; [set_solver|done]|].
        intros m z [Hm|Hm]%elem_of_app Hz.
        -- specialize (Hmin m z Hm Hz). lia.
        -- apply list_elem_of_singleton in Hm as [= -> ->]. lia.
      * split; [exists y; split; [set_solver|done]|].
        intros m z [Hm|Hm]%elem_of_app Hz.
        -- exact (Hmin m z Hm Hz).
        -- apply list_elem_of_singleton in Hm as [= -> ->]. lia.
    + split; [exists x; split; [set_solver|done]|].
      intros m z [Hm|Hm]%elem_of_app Hz.
      * rewrite (Hb m z Hm) in Hz. done.
      * apply list_elem_of_singleton in Hm as [= -> ->]. lia.
  - destruct best as [b|]; simpl in *.
    + destruct Hb as [(y & Hy & Hyt) Hmin].
      split; [exists y; split; [set_solver|done]|].
      intros m z [Hm|Hm]%elem_of_app Hz.
      * exact (Hmin m z Hm Hz).
      * apply list_elem_of_singleton in Hm as [= -> ->]. congruence.
    + intros m z [Hm|Hm]%elem_of_app.
      * exact (Hb m z Hm).
      * by apply list_elem_of_singleton in Hm as [= -> ->].
Qed.

Lemma exp_loop_cycle_best fuel st (s : St) prior v probes s' :
  is_best E prior (best_answer st) ->
  exp_loop E fuel st s = ((Returned Cycle v, probes), s') ->
  is_best E (prior ++ probes) v.
Proof.
  revert st s prior probes.
  induction fuel as [|fuel IH]; intros st s prior probes Hb; [done|].
  simpl. unfold bind, ret.
  destruct (exp_step_cases st s) as [[_ ->]|[(_ & _ & ->)|(Hle & Hfresh & x & c & s1 & _ & ->)]].
  - done.
  - intros [= <- <- <-]. by rewrite app_nil_r.
  - pose proof (exp_decide_continue st
                  ({[ (n_curr st, increment st) ]} ∪ history st)
                  (update_best E (best_answer st) (n_curr st) x) x) as Hc.
    pose proof (exp_decide_return st
                  ({[ (n_curr st, increment st) ]} ∪ history st)
                  (update_best E (best_answer st) (n_curr st) x) x) as Hr.
    destruct (exp_decide E st _ _ x) as [why w|st'|st'|]; try done.
    + intros [= -> <- <- <-].
      destruct (Hr Cycle w eq_refl) as [[? _]|[? _]]; done.
    + destruct (Hc st' eq_refl) as [_ Hbest].
      destruct (exp_loop E fuel st' s1) as [[o ps] s2] eqn:Hloop.
      intros [= -> <- <-].
      rewrite cons_middle, app_assoc. eapply IH; [|exact Hloop].
      rewrite Hbest. by apply is_best_update.
Qed.

(** C7, as the code has it: for [n_max >= 0] the exponential phase ends,
    whatever errors the models have. An
    iteration that neither returns nor breaks records a pair that was not
    in the history; with one unit of fuel for every pair the bounds on
    [n_curr] and [increment] allow, and one more, the loop returns or
    breaks; a pair that repeats makes the iteration return [best_answer];
    and what the loop returns then is the smallest probed sample count
    whose error met the target, or [np.inf] if none did. *)
Theorem exp_phase_terminates (s : St) :
  0 <= n_max E ->
  (forall st s0 st' x s1,
     exp_step E st s0 = ((Continue st', x), s1) ->
     ((n_curr st, increment st) ∉ history st)
     /\ history st' = {[ (n_curr st, increment st) ]} ∪ history st)
  /\ (forall fuel, (exp_fuel E <= fuel)%nat ->
        exists o probes s',
          exp_loop E fuel (exp_init E) s = ((o, probes), s')
          /\ ((exists why v, o = Returned why v) \/ (exists st', o = Broke st')))
  /\ (forall st s0,
        n_curr st <= n_max E -> (n_curr st, increment st) ∈ history st ->
        exp_step E st s0 = ((Return Cycle (best_answer st), None), s0))
  /\ (forall fuel v probes s',
        exp_loop E fuel (exp_init E) s = ((Returned Cycle v, probes), s') ->
        is_best E probes v).
Proof.
  intros Hmax. split; [|split; [|split]].
  - intros st s0 st' x s1 H.
    destruct (exp_step_cases st s0) as [[_ Heq]|[(_ & _ & Heq)|(_ & Hfresh & y & c & s2 & _ & Heq)]];
      rewrite Heq in H; try done.
    injection H as Hd _ _. split; [done|].
    by apply exp_decide_continue in Hd as [-> _].
  - intros fuel Hfuel. apply exp_loop_ends; [done|apply exp_init_inv|].
    unfold exp_fuel in Hfuel. simpl. lia.
  - intros st s0 Hle Hin.
    destruct (exp_step_cases st s0) as [[? _]|[(_ & _ & Heq)|(_ & Hfresh & _)]];
      [lia|done|done].
  - intros fuel v probes s' H.
    apply (exp_loop_cycle_best fuel (exp_init E) s [] v probes s'); [|done].
    simpl. intros n x Hn. by apply elem_of_nil in Hn.
Qed.

End ExpPhase.

Lemma exp_phase_terminates_witness :
  let T := toy_env e_inv 1 100 1 0 (1 # 10) in
  let s0 := init_session T tt in
  0 <= n_max T
  /\ exists o probes s',
       exp_loop T (exp_fuel T) (exp_init T) s0 = ((o, probes), s')
       /\ ((exists why v, o = Returned why v) \/ (exists st', o = Broke st')).
Proof.
  intros T s0.
  assert (Hmax : 0 <= n_max T) by (simpl; lia).
  split; [exact Hmax|].
  destruct (exp_phase_terminates T s0 Hmax) as (_ & Hends & _).
  apply (Hends (exp_fuel T)). lia.
Defined.

(** Models whose error is 10 whatever they were trained on: every probe
    measures 10, at any sample count. *)
Lemma flat_model_run start nmax prec target n (s : session unit unit) :
  let T := toy_env e_flat start nmax prec 0 target in
  memo_ok e_flat s ->
  exists c s',
    model_run T n (n_window T) s = ((numZ 10, c), s') /\ memo_ok e_flat s'.
Proof.
  intros T Hs. subst T. set (T := toy_env e_flat start nmax prec 0 target).
  unfold model_run. simpl.
  destruct (memo s !! n) as [r|] eqn:Hm.
  - exists (snd r), s. rewrite (run_helper_hit T n s r Hm).
    pose proof (Hs n r Hm) as Hr. unfold e_flat in Hr. rewrite <- Hr.
    by destruct r.
  - destruct (run_helper_miss T n s Hm) as (c & rw & w & Heq & _).
    cbv zeta in Heq. rewrite Heq.
    rewrite (toy_realises e_flat start nmax prec 0 target).
    unfold e_flat at 1 2. eexists _, _. split; [done|].
    intros k r. simpl. destruct (decide (n = k)) as [->|Hk].
    + rewrite lookup_insert_eq. by intros [= <-].
    + rewrite lookup_insert_ne by done. apply Hs.
Qed.

(** With [n_max = -1] the largest increment is [-1 // 10 = -1]: after its
    first step the first loop walks down from -4 by one, every pair it
    meets is new, and no iteration returns. *)
Lemma negative_n_max_walk fuel st (s : session unit unit) :
  let T := toy_env e_flat (-5) (-1) 5 0 1 in
  increment st = -1 -> n_curr st <= -4 -> n_prevs st <> [] ->
  error_prev st = Some (numZ 10) ->
  (forall n, (n, -1) ∈ history st -> n_curr st < n) ->
  memo_ok e_flat s ->
  fst (fst (exp_loop T fuel st s)) = OutOfFuel.
Proof.
  intros T. revert st s.
  induction fuel as [|fuel IH]; intros st s Hinc Hn Hprevs Hep Hhist Hs;
    [done|].
  simpl. unfold bind, ret.
  destruct (exp_step_cases T st s)
    as [[Hgt _]|[(_ & Hin & _)|(Hle & Hfresh & x & c & s1 & Hrun & ->)]].
  - simpl in Hgt. lia.
  - rewrite Hinc in Hin. apply Hhist in Hin. lia.
  - destruct (flat_model_run (-5) (-1) 5 1 (n_curr st) s Hs)
      as (c' & s1' & Hrun' & Hs1).
    fold T in Hrun'. rewrite Hrun in Hrun'. injection Hrun' as -> _ <-.
    assert (Hd : forall hist best,
              exp_decide T st hist best (numZ 10)
              = Continue (forward T st hist best (numZ 10))).
    { intros hist best. unfold exp_decide. rewrite Hep.
      destruct (n_prevs st) as [|p l]; [done|]. reflexivity. }
    rewrite Hd.
    match goal with |- context [exp_loop T fuel ?st' s1] =>
      specialize (IH st' s1)
    end.
    destruct (exp_loop T fuel _ s1) as [[o ps] s2]. simpl in *.
    apply IH; try done.
    + rewrite Hinc. reflexivity.
    + lia.
    + intros Hnil. by apply app_nil in Hnil as [_ ?].
    + intros n [Hin|Hin]%elem_of_union.
      * apply elem_of_singleton in Hin. injection Hin as -> _. lia.
      * apply Hhist in Hin. lia.
Qed.

(** C7 as stated fails: nothing keeps [n_max] from being negative. With
    [n_max = -1], a start at -5 and models whose error stays above the
    target, the first loop never returns and never leaves for the binary
    phase, however many iterations it is given. *)
Lemma negative_n_max_counterexample :
  let T := toy_env e_flat (-5) (-1) 5 0 1 in
  n_max T < 0
  /\ (forall fuel,
        fst (fst (exp_loop T fuel (exp_init T) (init_session T tt)))
        = OutOfFuel)
  /\ (forall fuel, fst (search T fuel (init_session T tt)) = None).
Proof.
  intros T.
  assert (Hloop : forall fuel,
            fst (fst (exp_loop T fuel (exp_init T) (init_session T tt)))
            = OutOfFuel).
  { intros [|fuel]; [done|].
    simpl. unfold bind, ret.
    destruct (exp_step_cases T (exp_init T) (init_session T tt))
      as [[Hgt _]|[(_ & Hin & _)|(_ & _ & x & c & s1 & Hrun & ->)]].
    - simpl in Hgt. lia.
    - simpl in Hin. by apply not_elem_of_empty in Hin.
    - destruct (flat_model_run (-5) (-1) 5 1 (-5) (init_session T tt))
        as (c' & s1' & Hrun' & Hs1); [apply (memo_ok_init T)|].
      fold T in Hrun'. simpl in Hrun, Hrun'. rewrite Hrun in Hrun'.
      injection Hrun' as -> _ <-.
      pose proof (negative_n_max_walk fuel
                    (forward T (exp_init T) ({[ (-5, 1) ]} ∪ ∅)
                       (update_best T Inf (-5) (numZ 10)) (numZ 10))
                    s1) as H.
      fold T in H.
      change (exp_decide T (exp_init T)
                ({[ (n_curr (exp_init T), increment (exp_init T)) ]}
                 ∪ history (exp_init T))
                (update_best T (best_answer (exp_init T))
                   (n_curr (exp_init T)) (numZ 10)) (numZ 10))
        with (Continue (forward T (exp_init T) ({[ (-5, 1) ]} ∪ ∅)
                          (update_best T Inf (-5) (numZ 10)) (numZ 10))).
      cbv zeta in H. cbv iota beta.
      destruct (exp_loop T fuel _ s1) as [[o ps] s2]. simpl in *.
      apply H; try done.
      intros n [Hin|Hin]%elem_of_union.
      + apply elem_of_singleton in Hin. done.
      + by apply not_elem_of_empty in Hin. }
  split; [simpl; lia|]. split; [exact Hloop|].
  intros fuel. specialize (Hloop fuel). unfold search, bind, ret.
  destruct (exp_loop T fuel (exp_init T) (init_session T tt)) as [[o ps] s1].
  simpl in Hloop. by rewrite Hloop.
Qed.

(** ** The search on an error curve *)

Section SearchOnCurve.
Context {W Traj Mdl : Type}.
Variable E : env W Traj Mdl.
Variable f : Z -> float.
Variable I : session W Traj -> Prop.
Hypothesis Hprobe : probes_as E f I.

Local Abbreviation St := (session W Traj).

Lemma search_returned fuel (s : St) why v probes s' :
  exp_loop E fuel (exp_init E) s = ((Returned why v, probes), s') ->
  search E fuel s = (Some v, s').
Proof. intros H. unfold search, bind, ret. by rewrite H. Qed.

(** An iteration that gets as far as the probe measures [f n_curr]. *)
Lemma exp_step_probe st (s : St) :
  I s -> 1 <= n_curr st <= n_max E ->
  (n_curr st, increment st) ∉ history st ->
  exists s',
    exp_step E st s
    = ((exp_decide E st ({[ (n_curr st, increment st) ]} ∪ history st)
                   (update_best E (best_answer st) (n_curr st) (f (n_curr st)))
                   (f (n_curr st)),
        Some (f (n_curr st))), s')
    /\ I s'.
Proof.
  intros Hs Hn Hfresh.
  destruct (Hprobe (n_curr st) s Hs) as (c & s' & Hrun & Hs'); [lia|].
  destruct (exp_step_cases E st s)
    as [[? _]|[(_ & ? & _)|(_ & _ & x & c' & s'' & Hrun' & Heq)]];
    [lia|done|].
  rewrite Hrun in Hrun'. injection Hrun' as <- <- <-. by exists s'.
Qed.

(** *** Errors that stay above the target and never rise *)

Section Falling.
Hypothesis Hmax : 10 <= n_max E.
Hypothesis Habove :
  forall n, 1 <= n <= n_max E -> fgt (f n) (target_error E) = true.
Hypothesis Hfall :
  forall n m, 1 <= n <= m -> m <= n_max E -> fgt (f m) (f n) = false.

Lemma next_increment_pos inc : 1 <= next_increment E inc.
Proof.
  unfold next_increment, increment_max, multiplicative_factor.
  assert (1 <= n_max E / 10) by (apply Z.div_le_lower_bound; lia). lia.
Qed.

Lemma marching_step st (s : St) :
  marching f st -> I s -> n_curr st <= n_max E ->
  exists st' s',
    exp_step E st s = ((Continue st', Some (f (n_curr st))), s')
    /\ marching f st' /\ I s' /\ n_curr st < n_curr st'.
Proof.
  intros (Hn & Hinc & Hhist & Hprevs) Hs Hle.
  destruct (exp_step_probe st s Hs) as (s' & -> & Hs'); [lia| |].
  { intros Hin. specialize (Hhist _ Hin). simpl in Hhist. lia. }
  exists (forward E st ({[ (n_curr st, increment st) ]} ∪ history st)
                  (update_best E (best_answer st) (n_curr st) (f (n_curr st)))
                  (f (n_curr st))), s'.
  split; [|split; [|split; [done|simpl; lia]]].
  - f_equal. f_equal. unfold exp_decide.
    destruct Hprevs as [Hnil|(l & p & Hl & Hp & Hep)].
    + rewrite Hnil. simpl. by rewrite Habove by lia.
    + rewrite Hl, length_app. simpl.
      destruct (Z.ltb_spec 0 (Z.of_nat (length l + 1))); [|lia].
      rewrite Hep, Hfall by lia.
      by rewrite (fgt_not_flt _ _ (Habove (n_curr st) ltac:(lia))).
  - unfold marching, forward. simpl. split; [lia|].
    split; [apply next_increment_pos|]. split.
    + intros q [Hq|Hq]%elem_of_union.
      * apply elem_of_singleton in Hq as ->. simpl. lia.
      * specialize (Hhist q Hq). lia.
    + right. exists (n_prevs st), (n_curr st). split; [done|]. split; [lia|done].
Qed.

Lemma marching_loop fuel st (s : St) :
  marching f st -> I s ->
  (Z.to_nat (n_max E + 1 - n_curr st) < fuel)%nat ->
  exists probes s',
    exp_loop E fuel st s = ((Returned NeverReached (Fin (-1)), probes), s').
Proof.
  revert st s. induction fuel as [|fuel IH]; intros st s Hst Hs Hfuel; [lia|].
  simpl. unfold bind, ret.
  destruct (Z.lt_ge_cases (n_max E) (n_curr st)) as [Hgt|Hle].
  - destruct (exp_step_cases E st s) as [[_ ->]|[(? & _)|(? & _)]]; [|lia|lia].
    by eexists _, _.
  - destruct (marching_step st s Hst Hs Hle) as (st' & s' & -> & Hst' & Hs' & Hlt).
    destruct (IH st' s' Hst' Hs') as (probes & s'' & ->); [lia|].
    by eexists _, _.
Qed.

Lemma falling_search fuel (s : St) :
  1 <= n_start E -> I s ->
  (Z.to_nat (n_max E - n_start E + 1) < fuel)%nat ->
  fst (search E fuel s) = Some (Fin (-1)).
Proof.
  intros Hstart Hs Hfuel.
  destruct (marching_loop fuel (exp_init E) s) as (probes & s' & Hloop);
    [|done|unfold exp_init; simpl; lia|].
  { unfold marching, exp_init. simpl. split; [done|]. split; [done|].
    split; [|by left]. intros q Hq. by apply not_elem_of_empty in Hq. }
  by rewrite (search_returned _ _ _ _ _ _ Hloop).
Qed.

End Falling.

(** *** Errors that stay above the target, fall to a valley and rise *)

Section Valley.
Variable m : Z.
Hypothesis Hmax : 10 <= n_max E.
Hypothesis Hstart : 1 <= n_start E < m.
Hypothesis Habove :
  forall n, 1 <= n <= n_max E -> fgt (f n) (target_error E) = true.
Hypothesis Hfall :
  forall n n', 1 <= n <= n' -> n' <= m -> n' <= n_max E ->
    fgt (f n') (f n) = false.
Hypothesis Hrise :
  forall n n', m <= n <= n' -> n' <= n_max E -> flt (f n') (f n) = false.

Lemma n_low_one : n_low E = 1.
Proof. unfold n_low. lia. Qed.





End Valley.

End SearchOnCurve.

(** ** What [search] returns when the target is never met *)

(** C1, as the code has it: when the error [model_run] reports (over a
    window, the median as [np.median] rounds it) stays strictly above the
    target at every sample count up to [n_max] and never rises from one
    sample count to a larger one, [search] returns -1. It is stated for
    [n_start >= 1] and [n_max >= 10], so that the increment never drops to
    zero. *)
Theorem search_never_reached {W Traj Mdl} (E : env W Traj Mdl)
    (e : Z -> float) (w : W) (fuel : nat) :
  gen_ok E -> realises E e ->
  1 <= n_start E -> 10 <= n_max E ->
  (forall n, 1 <= n <= n_max E ->
     fgt (windowed E e n) (target_error E) = true) ->
  (forall n m, 1 <= n <= m -> m <= n_max E ->
     fgt (windowed E e m) (windowed E e n) = false) ->
  (Z.to_nat (n_max E - n_start E + 1) < fuel)%nat ->
  fst (search E fuel (init_session E w)) = Some (Fin (-1)).
Proof.
  intros Hgen Hreal Hstart Hmax Habove Hfall Hfuel.
  apply (falling_search E (windowed E e) (memo_ok e)
           (model_run_curve E e Hgen Hreal) Hmax Habove Hfall);
    [done|apply memo_ok_init|done].
Qed.

Lemma search_never_reached_witness :
  let T := toy_env e_fall 1 100 5 0 1 in
  gen_ok T /\ realises T e_fall
  /\ (forall n, 1 <= n <= n_max T ->
        fgt (windowed T e_fall n) (target_error T) = true)
  /\ (forall n m, 1 <= n <= m -> m <= n_max T ->
        fgt (windowed T e_fall m) (windowed T e_fall n) = false)
  /\ fst (search T 101 (init_session T tt)) = Some (Fin (-1)).
Proof.
  intros T.
  assert (Habove : forall n, 1 <= n <= n_max T ->
            fgt (windowed T e_fall n) (target_error T) = true).
  { intros n Hn. simpl in Hn. unfold windowed. simpl.
    apply (numZ_fgt (1000 - n) 1). lia. }
  assert (Hfall : forall n m, 1 <= n <= m -> m <= n_max T ->
            fgt (windowed T e_fall m) (windowed T e_fall n) = false).
  { intros n m Hn Hm. unfold windowed. simpl.
    apply not_true_is_false. intros Hf.
    apply (numZ_fgt (1000 - m) (1000 - n)) in Hf. lia. }
  split; [apply toy_gen_ok|]. split; [apply toy_realises|].
  split; [exact Habove|]. split; [exact Hfall|].
  apply (search_never_reached T e_fall tt 101);
    [apply toy_gen_ok|apply toy_realises|simpl; lia|simpl; lia
    |exact Habove|exact Hfall|simpl; lia].
Defined.

(** C1 as stated fails: on a curve that stays above the target and rises,
    [search] returns [np.inf], not -1. *)
Lemma rising_error_counterexample :
  let T := toy_env e_rise 1 10000 5 0 1 in
  (forall n, fgt (windowed T e_rise n) (target_error T) = true)
  /\ fst (search T 20 (init_session T tt)) = Some Inf
  /\ fst (search T 20 (init_session T tt)) <> Some (Fin (-1)).
Proof.
  intros T. split; [|split].
  - intros n. unfold windowed, e_rise. simpl. by destruct (n <=? 2).
  - by vm_compute.
  - by vm_compute.
Qed.







(** ** The rounded-up midpoint *)

Lemma round_half_even_le n d : round_half_even n d <= n / d + 1.
Proof. unfold round_half_even. repeat case_match; lia. Qed.

(** Below [2^53] the quotient is a double, and the ceiling is the
    ceiling of the exact half. *)
Lemma ceil_half_exact a b :
  - 2 ^ 53 < a + b < 2 ^ 53 -> ceil_half a b = Some ((a + b + 1) / 2).
Proof.
  intros H. unfold ceil_half.
  destruct (Z.leb_spec (Z.log2 (Z.abs (a + b)) - 52) 0) as [|Hs]; [done|].
  exfalso.
  destruct (Z.eq_dec (Z.abs (a + b)) 0) as [H0|H0].
  { rewrite H0 in Hs. simpl in Hs. lia. }
  assert (Hlt : Z.log2 (Z.abs (a + b)) < 53).
  { apply Z.log2_lt_pow2; lia. }
  lia.
Qed.

(** Below [2^1024] the quotient is not too large for a float. *)
Lemma ceil_half_Some a b :
  - 2 ^ 1024 < a + b < 2 ^ 1024 -> is_Some (ceil_half a b).
Proof.
  intros H. unfold ceil_half.
  set (n := Z.abs (a + b)).
  destruct (Z.leb_spec (Z.log2 n - 52) 0) as [|Hs]; [by eexists|].
  assert (Hn : 0 < n).
  { destruct (Z.eq_dec n 0) as [H0|H0].
    - rewrite H0 in Hs. simpl in Hs. lia.
    - subst n. lia. }
  destruct (Z.log2_spec n Hn) as [Hlo Hhi].
  assert (HL : Z.log2 n < 1024) by (apply Z.log2_lt_pow2; subst n; lia).
  set (L := Z.log2 n) in *.
  assert (Hd : 0 < 2 ^ (L - 52)) by (apply Z.pow_pos_nonneg; lia).
  assert (Hq : n / 2 ^ (L - 52) < 2 ^ 53).
  { apply Z.div_lt_upper_bound; [done|].
    rewrite <- Z.pow_add_r by lia.
    by replace (L - 52 + 53) with (Z.succ L) by lia. }
  pose proof (round_half_even_le n (2 ^ (L - 52))) as Hr.
  assert (Hp : 0 < 2 ^ (L - 52 - 1)) by (apply Z.pow_pos_nonneg; lia).
  assert (Hb : round_half_even n (2 ^ (L - 52)) * 2 ^ (L - 52 - 1) <= 2 ^ L).
  { replace (2 ^ L) with (2 ^ 53 * 2 ^ (L - 52 - 1)).
    - apply Z.mul_le_mono_nonneg_r; lia.
    - rewrite <- Z.pow_add_r by lia. f_equal. lia. }
  assert (Hc : 2 ^ L <= 2 ^ 1023) by (apply Z.pow_le_mono_r; lia).
  destruct (Z.leb_spec (2 ^ 1024)
              (round_half_even n (2 ^ (L - 52)) * 2 ^ (L - 52 - 1)));
    [|by eexists].
  assert (2 ^ 1023 < 2 ^ 1024) by (apply Z.pow_lt_mono_r; lia). lia.
Qed.

Lemma ceil_half_between a b v :
  - 2 ^ 53 < a + b < 2 ^ 53 -> ceil_half a b = Some v ->
  Z.min a b <= v <= Z.max a b.
Proof.
  intros H. rewrite (ceil_half_exact a b H). intros [= <-]. split.
  - apply Z.div_le_lower_bound; lia.
  - apply Z.lt_succ_r. apply Z.div_lt_upper_bound; lia.
Qed.

(** ** The binary phase *)

Section BinPhase.
Context {W Traj Mdl : Type}.
Variable E : env W Traj Mdl.

Local Abbreviation St := (session W Traj).

(** The second loop stops exactly when the bracket is no wider than
    [max(n_precision, 1)], and then returns the rounded-up midpoint. *)
Lemma bin_step_converged b (s : St) :
  n_upper b - n_lower b <= Z.max (n_precision E) 1 ->
  bin_step E b s
  = (match ceil_half (n_lower b) (n_upper b) with
     | Some v => Return Converged (Fin v)
     | None => Raises
     end, s).
Proof.
  intros H. unfold bin_step.
  destruct (Z.leb_spec (n_upper b - n_lower b) (Z.max (n_precision E) 1));
    [|lia].
  by destruct (ceil_half (n_lower b) (n_upper b)).
Qed.

(** From [2^1024] on the quotient is too large for a float: a bracket of
    two neighbours there makes the second loop raise. *)
Lemma bin_loop_overflow fuel el eu (s : St) :
  let b := {| n_lower := 2 ^ 1024; error_lower := el;
              n_upper := 2 ^ 1024 + 1; error_upper := eu |} in
  bin_loop E (S fuel) b s = ((Raised, [b]), s).
Proof.
  intros b. cbn [bin_loop]. unfold bind, ret.
  rewrite (bin_step_converged b s) by (cbn [n_lower n_upper b]; lia).
  assert (Hc : ceil_half (n_lower b) (n_upper b) = None) by by vm_compute.
  by rewrite Hc.
Qed.

(** A wider bracket is narrowed around the midpoint; if the error at the
    midpoint is not the target itself, a bracket with the target strictly
    between its errors stays one. *)
Lemma bin_step_narrows b (s : St) :
  Z.max (n_precision E) 1 < n_upper b - n_lower b ->
  exists x c s' b',
    model_run E ((n_lower b + n_upper b) / 2) (n_window E) s = ((x, c), s')
    /\ bin_step E b s = (Continue b', s')
    /\ n_upper b' - n_lower b' < n_upper b - n_lower b
    /\ (fgt (error_lower b) (target_error E) = true ->
        flt (error_upper b) (target_error E) = true ->
        fgt x (target_error E) = true \/ flt x (target_error E) = true ->
        fgt (error_lower b') (target_error E) = true
        /\ flt (error_upper b') (target_error E) = true)
    /\ n_lower b <= n_lower b' /\ n_lower b' < n_upper b'
    /\ n_upper b' <= n_upper b.
Proof.
  intros H. unfold bin_step.
  destruct (Z.leb_spec (n_upper b - n_lower b) (Z.max (n_precision E) 1));
    [lia|].
  unfold bind, ret.
  destruct (model_run E _ (n_window E) s) as [[x c] s'].
  assert (Hmid : n_lower b < (n_lower b + n_upper b) / 2 < n_upper b).
  { assert (n_lower b + 1 <= (n_lower b + n_upper b) / 2)
      by (apply Z.div_le_lower_bound; lia).
    assert ((n_lower b + n_upper b) / 2 < n_upper b)
      by (apply Z.div_lt_upper_bound; lia).
    lia. }
  destruct (fgt (error_lower b) (target_error E)
            && fgt (target_error E) x) eqn:Hc.
  - eexists x, c, s', _. split; [done|]. split; [done|]. simpl.
    split; [lia|]. split; [|lia].
    intros Hl _ _. apply andb_true_iff in Hc as [_ Hx].
    by split.
  - eexists x, c, s', _. split; [done|]. split; [done|]. simpl.
    split; [lia|]. split; [|lia].
    intros Hl Hu [Hx|Hx]; [by split|].
    unfold fgt in Hc at 2. by rewrite Hl, Hx in Hc.
Qed.

End BinPhase.

(** C3 fails on the code when an error meets the target exactly. With
    errors [1/n] and target [1/10] the binary phase starts from the
    bracket 8, 16 and probes 12 and then 10, whose error is the target:
    the lower end moves to 10 and then to 11, where neither error is above
    the target, and [search] returns 12, two above the 10 trajectories
    that meet the target. With errors 10, 5, 1, 1 at 1, 2, 3, 4
    trajectories and target 5 the first loop already stacks 2, whose error
    is the target, and the binary phase starts with
    [error(n_lower) = target]. *)
Theorem binary_bracket_tie :
  (let T := toy_env e_inv 1 100 1 0 (1 # 10) in
   let s0 := init_session T tt in
   match exp_loop T 50 (exp_init T) s0 with
   | ((Broke st, _), s1) =>
       match bin_init T st s1 with
       | (Some b, s2) =>
           fst (bin_loop T 50 b s2)
           = (Returned Converged (Fin 12),
              [ {| n_lower := 8; error_lower := Num (1 # 8);
                   n_upper := 16; error_upper := Num (1 # 16) |};
                {| n_lower := 8; error_lower := Num (1 # 8);
                   n_upper := 12; error_upper := Num (1 # 12) |};
                {| n_lower := 10; error_lower := Num (1 # 10);
                   n_upper := 12; error_upper := Num (1 # 12) |};
                {| n_lower := 11; error_lower := Num (1 # 11);
                   n_upper := 12; error_upper := Num (1 # 12) |} ])
       | _ => False
       end
   | _ => False
   end
   /\ fgt (Num (1 # 10)) (target_error T) = false
   /\ fgt (Num (1 # 11)) (target_error T) = false
   /\ fst (search T 50 s0) = Some (Fin 12)
   /\ fle (e_inv 10) (target_error T) = true)
  /\ (let T := toy_env e_tie 1 100 1 0 5 in
      let s0 := init_session T tt in
      match exp_loop T 50 (exp_init T) s0 with
      | ((Broke st, _), s1) =>
          match bin_init T st s1 with
          | (Some b, s2) =>
              fgt (error_lower b) (target_error T) = false
              /\ fst (bin_loop T 50 b s2)
                 = (Returned Converged (Fin 4),
                    [ {| n_lower := 2; error_lower := numZ 5;
                         n_upper := 4; error_upper := numZ 1 |};
                      {| n_lower := 3; error_lower := numZ 1;
                         n_upper := 4; error_upper := numZ 1 |} ])
          | _ => False
          end
      | _ => False
      end
      /\ fst (search T 50 s0) = Some (Fin 4)
      /\ fle (e_tie 2) (target_error T) = true).
Proof. vm_compute. repeat split; reflexivity. Qed.

(** ** The window of [model_run] *)

(** C4 fails on the code at [n_max]: the range of the window ends below
    [n_max]. For [n = n_max = 10] and a window of 1 the only sample count
    evaluated is 9, and [model_run] returns the error at 9, not the median
    of the errors at 9 and 10. Away from [n_max] and for a window of 0 the
    code does what the claim says. *)
Theorem model_run_window_stops_short :
  let T := toy_env e_inv 1 10 1 1 (1 # 10) in
  let s0 := init_session T tt in
  (forall n w k, k ∈ py_range (Z.max 1 (n - w)) (Z.min (n + w + 1) (n_max T))
                 <-> Z.max 1 (n - w) <= k <= Z.min (n + w) (n_max T - 1))
  /\ row_n <$> result (snd (model_run T 10 1 s0)) = [9]
  /\ fst (fst (model_run T 10 1 s0)) = e_inv 9
  /\ median (e_inv <$> [9; 10]) = Num (7606079370670171 # 72057594037927936)
  /\ row_n <$> result (snd (model_run T 5 1 s0)) = [4; 5; 6]
  /\ fst (fst (model_run T 5 1 s0)) = median (e_inv <$> [4; 5; 6])
  /\ fst (fst (model_run T 10 0 s0)) = e_inv 10.
Proof.
  intros T s0. split.
  - intros n w k. unfold py_range. rewrite elem_of_seqZ. lia.
  - vm_compute. repeat split; reflexivity.
Qed.

(** ** [Task.evaluate] *)

Section TaskProofs.
Import Dynascale.
Variable Mc : ModelCls.
Variable Cc : ChallengeCls.

Lemma try_bind_Done {A B} (m : try A) (k : A -> try B) b :
  try_bind m k = Done b -> exists a, m = Done a /\ k a = Done b.
Proof. destruct m as [a|]; [|done]. intros H. by exists a. Qed.

Lemma assert_Done b u : assert b = Done u -> b = true.
Proof. by destruct b. Qed.

Lemma for_each_app {A S} (body : A -> S -> try S) l1 l2 st :
  for_each body (l1 ++ l2) st
  = try_bind (for_each body l1 st) (for_each body l2).
Proof.
  revert st. induction l1 as [|x l1 IH]; intros st; simpl; [done|].
  destruct (body x st) as [st'|]; simpl; [apply IH|done].
Qed.

Lemma seqZ_snoc k : 0 <= k -> seqZ 0 (k + 1) = seqZ 0 k ++ [k].
Proof.
  intros Hk. rewrite seqZ_app by lia. by f_equal.
Qed.

(** One horizon more is the loop so far and then the body once. *)
Lemma train_succ ic T noisy k (m : model Mc) (ch : challenge Cc) :
  0 <= k ->
  train Mc Cc ic T noisy (k + 1) m ch
  = try_bind (train Mc Cc ic T noisy k m ch) (horizon Mc Cc ic T noisy k).
Proof.
  intros Hk. unfold train. rewrite seqZ_snoc by done.
  rewrite for_each_app. destruct (for_each _ (seqZ 0 k) _) as [st|]; [|done].
  simpl. by destruct (horizon Mc Cc ic T noisy k st).
Qed.

(** A loop that completes has completed each of its horizons. *)
Lemma train_prefix ic T noisy H j (m : model Mc) (ch : challenge Cc) final :
  0 <= j <= H -> train Mc Cc ic T noisy H m ch = Done final ->
  exists st, train Mc Cc ic T noisy j m ch = Done st.
Proof.
  intros Hj. unfold train.
  replace H with (j + (H - j)) by lia. rewrite seqZ_app by lia.
  rewrite for_each_app. intros (st & Hst & _)%try_bind_Done. by exists st.
Qed.

(** C8, as the code has it: in every control horizon [j] with
    [1 <= j <= H - 1] of a training loop that completes, the new batch is
    generated from the first state ([x[:, 0]]) of the previous batch, under
    the control the model emitted for that batch, the cost of the control
    is added to the total, and the model is fit again on the new batch. *)
Theorem horizon_from_first_state ic T noisy H j
    (m : model Mc) (ch : challenge Cc) final :
  1 <= j < H ->
  train Mc Cc ic T noisy H m ch = Done final ->
  exists prev next x control cost x0 batch ch',
    train Mc Cc ic T noisy j m ch = Done prev
    /\ train Mc Cc ic T noisy (j + 1) m ch = Done next
    /\ t_x prev = Some x
    /\ act Mc (t_model prev) x = Done control
    /\ calc_control_cost Cc (t_challenge prev) control = Done cost
    /\ first_step x = Done x0
    /\ make_data Cc (t_challenge prev) x0 (Some control) T noisy
       = Done (batch, ch')
    /\ t_x next = Some batch
    /\ t_model next = fit Mc (t_model prev) batch
    /\ t_challenge next = ch'
    /\ t_total_control_cost next = (t_total_control_cost prev + cost)%Q.
Proof.
  intros Hj Hfinal.
  destruct (train_prefix ic T noisy H (j + 1) m ch final) as [next Hnext];
    [lia|done|].
  pose proof Hnext as Hstep. rewrite train_succ in Hstep by lia.
  apply try_bind_Done in Hstep as (prev & Hprev & Hstep).
  unfold horizon in Hstep. destruct (Z.eqb_spec j 0) as [|_]; [lia|].
  apply try_bind_Done in Hstep as ([[batch ch'] total] & Hbody & Hnext').
  destruct (t_x prev) as [x|] eqn:Hx; [|done].
  apply try_bind_Done in Hbody as (control & Hact & Hbody).
  apply try_bind_Done in Hbody as (cost & Hcost & Hbody).
  apply try_bind_Done in Hbody as (x0 & Hx0 & Hbody).
  apply try_bind_Done in Hbody as ([batch' ch''] & Hdata & Hbody).
  injection Hbody as -> -> <-. injection Hnext' as <-.
  eexists prev, _, x, control, cost, x0, batch, ch'.
  repeat split; done.
Qed.

(** *** Shapes *)

Lemma assert_cases b :
  (b = true /\ assert b = Done tt) \/ (b = false /\ assert b = Raise AssertionError).
Proof. destruct b; [by left|by right]. Qed.

Lemma shape_is_true x sh : shape_is x sh = true <-> shape x = sh.
Proof. unfold shape_is. apply bool_decide_eq_true. Qed.

(** [make_init_conds] returns an array of shape [(n, embed_dim)] or fails
    its assertion. *)
Lemma make_init_conds_cases (ch : challenge Cc) n in_dist :
  (exists ic ch', make_init_conds Cc ch n in_dist = Done (ic, ch')
                  /\ shape ic = [n; embed_dim ch]
                  /\ embed_dim ch' = embed_dim ch)
  \/ make_init_conds Cc ch n in_dist = Raise AssertionError.
Proof.
  unfold make_init_conds.
  destruct (c_make_init_conds Cc _ _ _ n in_dist) as [ic c].
  destruct (assert_cases (shape_is ic [n; embed_dim ch])) as [[Hs ->]|[_ ->]];
    [|by right].
  left. exists ic, (set_self Cc c ch). by apply shape_is_true in Hs.
Qed.

(** [make_data] returns an array of shape [(n, timesteps, embed_dim)], for
    a positive number of timesteps, or fails an assertion. *)
Lemma make_data_cases (ch : challenge Cc) ic control T noisy :
  (exists d ch', make_data Cc ch ic control T noisy = Done (d, ch')
                 /\ 0 < T
                 /\ shape d = [nth 0 (shape ic) 0; T; embed_dim ch]
                 /\ embed_dim ch' = embed_dim ch)
  \/ make_data Cc ch ic control T noisy = Raise AssertionError.
Proof.
  unfold make_data.
  destruct (assert_cases (0 <? T)) as [[HT ->]|[_ ->]]; [|by right]. simpl.
  destruct (assert_cases ((ndim ic =? 2) && (nth 1 (shape ic) 0 =? embed_dim ch)))
    as [[_ ->]|[_ ->]]; [|by right]. simpl.
  match goal with |- context [assert (shape_is ?c ?sh)] =>
    destruct (assert_cases (shape_is c sh)) as [[_ ->]|[_ ->]]; [|by right]
  end. simpl.
  destruct (c_make_data Cc _ _ _ ic _ T noisy) as [d c].
  match goal with |- context [assert (shape_is d ?sh)] =>
    destruct (assert_cases (shape_is d sh)) as [[Hd ->]|[_ ->]]; [|by right]
  end. simpl.
  left. exists d, (set_self Cc c ch). apply shape_is_true in Hd.
  split; [done|]. split; [lia|]. done.
Qed.

Lemma first_step_shape x n T e :
  shape x = [n; T; e] -> 0 < T ->
  exists x0, first_step x = Done x0 /\ shape x0 = [n; e].
Proof.
  intros Hx HT. unfold first_step, at_step. rewrite Hx.
  destruct (Z.ltb_spec 0 T); [|lia]. simpl. by eexists.
Qed.

(** The prediction is scored only if the model was built for as many
    timesteps as the test set has. *)
Lemma score_cases (tk : task) (m : model Mc) (ch : challenge Cc) T in_dist :
  (exists r, score Mc Cc tk m ch T in_dist = Done r
             /\ m_timesteps m = _test_timesteps tk)
  \/ score Mc Cc tk m ch T in_dist = Raise AssertionError.
Proof.
  unfold score.
  destruct (make_init_conds_cases ch (_test_examples tk) in_dist)
    as [(ic & ch1 & -> & Hic & He1)| ->]; [|by right]. simpl.
  destruct (make_data_cases ch1 ic None (_test_timesteps tk) false)
    as [(test & ch2 & -> & HT & Htest & He2)| ->]; [|by right]. simpl.
  rewrite Hic in Htest. simpl in Htest.
  destruct (first_step_shape test _ _ _ Htest HT) as (x0 & -> & Hx0). simpl.
  unfold predict. rewrite Hx0.
  match goal with |- context [assert (shape_is ?p ?sh)] =>
    destruct (assert_cases (shape_is p sh)) as [[Hp ->]|[_ ->]]; [|by right]
  end. simpl. apply shape_is_true in Hp.
  unfold calc_loss.
  match goal with |- context [assert (shape_is ?p ?sh)] =>
    destruct (assert_cases (shape_is p sh)) as [[Hl ->]|[_ ->]]; [|by right]
  end. simpl. apply shape_is_true in Hl.
  left. eexists. split; [done|]. rewrite Hp, Htest in Hl. by injection Hl.
Qed.

Lemma horizon_model_timesteps ic T noisy j (st st' : train_state Mc Cc) :
  horizon Mc Cc ic T noisy j st = Done st' ->
  m_timesteps (t_model st') = m_timesteps (t_model st).
Proof.
  unfold horizon. intros ([[x ch] total] & _ & [= <-])%try_bind_Done. done.
Qed.

Lemma for_each_model_timesteps ic T noisy l (st0 st : train_state Mc Cc) :
  for_each (horizon Mc Cc ic T noisy) l st0 = Done st ->
  m_timesteps (t_model st) = m_timesteps (t_model st0).
Proof.
  revert st0. induction l as [|j l IH]; intros st0; simpl.
  - by intros [= ->].
  - intros (st1 & H1 & Hl)%try_bind_Done.
    rewrite (IH _ Hl). by apply horizon_model_timesteps in H1.
Qed.

Lemma train_model_timesteps ic T noisy k (m : model Mc) (ch : challenge Cc) st :
  train Mc Cc ic T noisy k m ch = Done st ->
  m_timesteps (t_model st) = m_timesteps m.
Proof. unfold train. by intros ->%for_each_model_timesteps. Qed.

(** *** Every exception of a combination is a failed assertion *)

Lemma act_cases (m : model Mc) x :
  (exists control, act Mc m x = Done control /\ shape control = shape x)
  \/ act Mc m x = Raise AssertionError.
Proof.
  unfold act.
  destruct (assert_cases (shape_is (m_act Mc (m_self m) x) (shape x)))
    as [[Hs ->]|[_ ->]]; [|by right].
  left. eexists. split; [done|]. by apply shape_is_true.
Qed.

Lemma calc_control_cost_cases (ch : challenge Cc) control n T e :
  shape control = [n; T; e] ->
  (exists c, calc_control_cost Cc ch control = Done c)
  \/ calc_control_cost Cc ch control = Raise AssertionError.
Proof.
  intros Hs. unfold calc_control_cost. rewrite Hs. simpl.
  destruct (assert_cases ((e =? embed_dim ch) && (ndim control =? 3)))
    as [[_ ->]|[_ ->]]; [left; by eexists|by right].
Qed.

(** A horizon that is the first, or that starts from a batch of the right
    shape, ends with a batch of the right shape or fails an assertion. *)
Lemma horizon_cases ic T noisy j (st : train_state Mc Cc) :
  j = 0 \/ batch_ok Mc Cc T st ->
  (exists st', horizon Mc Cc ic T noisy j st = Done st' /\ batch_ok Mc Cc T st')
  \/ horizon Mc Cc ic T noisy j st = Raise AssertionError.
Proof.
  intros Hst. unfold horizon. destruct (Z.eqb_spec j 0) as [->|Hj].
  - destruct (make_data_cases (t_challenge st) ic None T noisy)
      as [(d & ch' & -> & HT & Hd & He)| ->]; [|by right]. simpl.
    left. eexists. split; [done|]. eexists _, _. simpl.
    split; [done|]. rewrite He. by split.
  - destruct Hst as [?|(x & n & Hx & Hsh & HT)]; [done|]. rewrite Hx.
    destruct (act_cases (t_model st) x) as [(control & -> & Hc)| ->];
      [|by right]. simpl. rewrite Hsh in Hc.
    destruct (calc_control_cost_cases (t_challenge st) control _ _ _ Hc)
      as [(c & ->)| ->]; [|by right]. simpl.
    destruct (first_step_shape x _ _ _ Hsh HT) as (x0 & -> & Hx0). simpl.
    destruct (make_data_cases (t_challenge st) x0 (Some control) T noisy)
      as [(d & ch' & -> & _ & Hd & He)| ->]; [|by right]. simpl.
    left. eexists. split; [done|]. eexists _, _. simpl.
    split; [done|]. rewrite He. split; [|done]. exact Hd.
Qed.

Lemma for_each_horizon_cases ic T noisy l (st : train_state Mc Cc) :
  l = [] \/ head l = Some 0 \/ batch_ok Mc Cc T st ->
  (exists st', for_each (horizon Mc Cc ic T noisy) l st = Done st')
  \/ for_each (horizon Mc Cc ic T noisy) l st = Raise AssertionError.
Proof.
  revert st. induction l as [|j l IH]; intros st Hst; simpl.
  - left. by eexists.
  - destruct (horizon_cases ic T noisy j st) as [(st' & -> & Hok)| ->];
      [|simpl; apply IH; auto|by right].
    destruct Hst as [?|[[= ->]|?]]; [done|by left|by right].
Qed.

Lemma train_cases ic T noisy k (m : model Mc) (ch : challenge Cc) :
  (exists st, train Mc Cc ic T noisy k m ch = Done st)
  \/ train Mc Cc ic T noisy k m ch = Raise AssertionError.
Proof.
  unfold train. apply for_each_horizon_cases.
  destruct (Z.le_gt_cases k 0).
  - left. by apply seqZ_nil.
  - right. left. by rewrite seqZ_cons by lia.
Qed.

Lemma combination_cases (tk : task) in_dist noisy c st :
  (exists st', combination Mc Cc tk in_dist noisy c st = Done st')
  \/ combination Mc Cc tk in_dist noisy c st = Raise AssertionError.
Proof.
  destruct c as [[[[n latent] embed] T] cost], st as [och d].
  unfold combination. destruct (embed <? latent); [left; by eexists|].
  match goal with |- context [make_init_conds Cc ?c n true] =>
    destruct (make_init_conds_cases c n true) as [(ic & ch1 & -> & _)| ->];
      [|by right]
  end. simpl.
  match goal with |- context [train Mc Cc ic T noisy ?k ?m ch1] =>
    destruct (train_cases ic T noisy k m ch1) as [(tr & ->)| ->]; [|by right]
  end. simpl.
  match goal with |- context [assert ?b] =>
    destruct (assert_cases b) as [[_ ->]|[_ ->]]; [|by right]
  end. simpl.
  destruct (score_cases tk (t_model tr) (t_challenge tr) T in_dist)
    as [([loss ch2] & -> & _)| ->]; [|by right].
  simpl. left. by eexists.
Qed.

(** C10: scoring a prediction completes only when the model was built for
    [test_timesteps] timesteps, and fails an assertion otherwise; so a
    combination of [Task.evaluate] that is not skipped completes only when
    its training timesteps equal [test_timesteps], and fails an assertion
    when they differ. *)
Theorem scoring_needs_test_timesteps (tk : task) (in_dist noisy : bool)
    (n latent embed T : Z) (cost : Q) (och : option (challenge Cc))
    (d : columns) :
  T <> _test_timesteps tk ->
  (forall (m : model Mc) (ch : challenge Cc),
     m_timesteps m = T ->
     score Mc Cc tk m ch T in_dist = Raise AssertionError)
  /\ ((embed <? latent) = false ->
      combination Mc Cc tk in_dist noisy (n, latent, embed, T, cost) (och, d)
      = Raise AssertionError).
Proof.
  intros HT. split.
  - intros m ch Hm.
    destruct (score_cases tk m ch T in_dist) as [(r & _ & Heq)|H]; [|done].
    congruence.
  - intros Hskip.
    destruct (combination_cases tk in_dist noisy (n, latent, embed, T, cost)
                (och, d)) as [(st' & Hdone)|H]; [|done].
    exfalso. unfold combination in Hdone. rewrite Hskip in Hdone.
    apply try_bind_Done in Hdone as ([ic ch1] & _ & Hdone).
    apply try_bind_Done in Hdone as (tr & Htr & Hdone).
    apply try_bind_Done in Hdone as (_ & _ & Hdone).
    apply try_bind_Done in Hdone as ([loss ch2] & Hscore & _).
    apply train_model_timesteps in Htr. simpl in Htr.
    destruct (score_cases tk (t_model tr) (t_challenge tr) T in_dist)
      as [(r & _ & Heq)|H]; congruence.
Qed.

(** *** The id column *)

Lemma repetition_id (tk : task) in_dist noisy i d k d' k' :
  repetition Mc Cc tk in_dist noisy i (d, k) = Done (d', k') ->
  col_id d' = Some k /\ k' = k + 1.
Proof.
  unfold repetition. by intros ([och d1] & _ & [= <- <-])%try_bind_Done.
Qed.

Lemma repetitions_id (tk : task) in_dist noisy l d k d' k' :
  for_each (repetition Mc Cc tk in_dist noisy) l (d, k) = Done (d', k') ->
  (l = [] /\ d' = d) \/ col_id d' = Some (k' - 1).
Proof.
  revert d k. induction l as [|i l IH]; intros d k; simpl.
  - intros [= <- <-]. by left.
  - intros ([d1 k1] & H1 & Hl)%try_bind_Done. right.
    apply (repetition_id tk in_dist noisy i) in H1 as [Hid Hk]. subst k1.
    destruct (IH d1 (k + 1) Hl) as [[Hnil Hd]|H]; [|exact H].
    subst. simpl in Hl. injection Hl as Hk'. rewrite Hid. f_equal. lia.
Qed.

Lemma DataFrame_ids d rows :
  DataFrame d = Done rows -> Forall (fun r => r_id r = col_id d) rows.
Proof.
  unfold DataFrame. case_bool_decide; [|done]. intros [= <-].
  apply Forall_forall. intros r (x & y & -> & _)%elem_of_zip_with.
  by destruct x as [[[? ?] ?] ?], y.
Qed.

(** Whatever the task, every row of the table carries the id drawn last. *)
Lemma evaluate_single_id (tk : task) in_dist noisy rows tk' :
  evaluate Mc Cc tk in_dist noisy = Done (rows, tk') ->
  Forall (fun r => r_id r = Some (_id tk' - 1)) rows.
Proof.
  unfold evaluate. intros ([d next] & Hloop & H)%try_bind_Done.
  apply try_bind_Done in H as (df & Hdf & [= <- <-]). simpl.
  apply repetitions_id in Hloop as [[_ ->]|Hid].
  - unfold DataFrame in Hdf. simpl in Hdf. injection Hdf as <-. constructor.
  - apply DataFrame_ids in Hdf. by rewrite Hid in Hdf.
Qed.

End TaskProofs.

(** ** [Task.evaluate] on the synthetic system and model *)

Lemma horizon_from_first_state_witness :
  let ic := {| Dynascale.shape := [1; 1]; Dynascale.data := [5%Q] |} in
  let m := Dynascale.model_init toy_model 1 3 1 in
  let ch := Dynascale.challenge_init toy_challenge 1 1 in
  let batch := {| Dynascale.shape := [1; 3; 1];
                  Dynascale.data := [5%Q; 6%Q; 7%Q] |} in
  let final := {| Dynascale.t_x := Some batch; Dynascale.t_model := m;
                  Dynascale.t_challenge := ch;
                  Dynascale.t_total_control_cost := 0%Q |} in
  1 <= 1 < 3
  /\ Dynascale.train toy_model toy_challenge ic 3 false 3 m ch
     = Dynascale.Done final
  /\ exists prev next x control cost x0 batch' ch',
       Dynascale.train toy_model toy_challenge ic 3 false 1 m ch
       = Dynascale.Done prev
       /\ Dynascale.train toy_model toy_challenge ic 3 false (1 + 1) m ch
          = Dynascale.Done next
       /\ Dynascale.t_x prev = Some x
       /\ Dynascale.act toy_model (Dynascale.t_model prev) x
          = Dynascale.Done control
       /\ Dynascale.calc_control_cost toy_challenge
            (Dynascale.t_challenge prev) control = Dynascale.Done cost
       /\ Dynascale.first_step x = Dynascale.Done x0
       /\ Dynascale.make_data toy_challenge (Dynascale.t_challenge prev) x0
            (Some control) 3 false = Dynascale.Done (batch', ch')
       /\ Dynascale.t_x next = Some batch'
       /\ Dynascale.t_model next
          = Dynascale.fit toy_model (Dynascale.t_model prev) batch'
       /\ Dynascale.t_challenge next = ch'
       /\ Dynascale.t_total_control_cost next
          = (Dynascale.t_total_control_cost prev + cost)%Q.
Proof.
  intros ic m ch batch final.
  assert (Hfinal : Dynascale.train toy_model toy_challenge ic 3 false 3 m ch
                   = Dynascale.Done final) by (vm_compute; reflexivity).
  split; [lia|]. split; [exact Hfinal|].
  apply (horizon_from_first_state toy_model toy_challenge ic 3 false 3 1
           m ch final); [lia|exact Hfinal].
Defined.

(** C8 as stated fails: the system advances its state by one at every
    step, the first batch runs from 5 to 7, and the batch of horizon 1
    starts from 5 again, the first state, where continuing from the last
    state would start from 7. *)
Lemma horizon_from_last_state_counterexample :
  let ic := {| Dynascale.shape := [1; 1]; Dynascale.data := [5%Q] |} in
  let m := Dynascale.model_init toy_model 1 3 1 in
  let ch := Dynascale.challenge_init toy_challenge 1 1 in
  let after0 := {| Dynascale.t_x :=
                     Some {| Dynascale.shape := [1; 3; 1];
                             Dynascale.data := [5%Q; 6%Q; 7%Q] |};
                   Dynascale.t_model := m; Dynascale.t_challenge := ch;
                   Dynascale.t_total_control_cost := 0%Q |} in
  Dynascale.train toy_model toy_challenge ic 3 false 1 m ch
  = Dynascale.Done after0
  /\ match Dynascale.horizon toy_model toy_challenge ic 3 false 1 after0,
           Dynascale.horizon_from_last_state toy_model toy_challenge 3 false after0
     with
     | Dynascale.Done code, Dynascale.Done claim =>
         Dynascale.t_x code
         = Some {| Dynascale.shape := [1; 3; 1];
                   Dynascale.data := [5%Q; 6%Q; 7%Q] |}
         /\ Dynascale.t_x claim
            = Some {| Dynascale.shape := [1; 3; 1];
                      Dynascale.data := [7%Q; 8%Q; 9%Q] |}
         /\ Dynascale.t_x code <> Dynascale.t_x claim
     | _, _ => False
     end.
Proof. vm_compute. repeat split; try reflexivity. discriminate. Qed.

Lemma scoring_needs_test_timesteps_witness :
  let tk := toy_task 2 2 3 4 in
  3 <> Dynascale._test_timesteps tk
  /\ (forall (m : Dynascale.model toy_model)
             (ch : Dynascale.challenge toy_challenge),
        Dynascale.m_timesteps m = 3 ->
        Dynascale.score toy_model toy_challenge tk m ch 3 true
        = Dynascale.Raise Dynascale.AssertionError)
  /\ ((1 <? 1) = false ->
      Dynascale.combination toy_model toy_challenge tk true false
        (1, 1, 1, 3, 1%Q) (None, Dynascale.no_columns)
      = Dynascale.Raise Dynascale.AssertionError).
Proof.
  intros tk.
  assert (H : 3 <> Dynascale._test_timesteps tk) by (simpl; lia).
  split; [exact H|].
  exact (scoring_needs_test_timesteps toy_model toy_challenge tk true false
           1 1 1 3 1%Q None Dynascale.no_columns H).
Defined.

(** C9 fails on the code: [data["id"]] is assigned, not appended to, at the
    end of every repetition, so the table repeats the last value in every
    row. With two repetitions of one combination the counter goes from 0
    to 2, each repetition adds one row, and both rows carry the id 1. *)
Theorem evaluate_repeats_last_id :
  match Dynascale.evaluate toy_model toy_challenge (toy_task 2 2 3 3) true false with
  | Dynascale.Done (rows, tk') =>
      length rows = 2%nat
      /\ Dynascale.r_id <$> rows = [Some 1; Some 1]
      /\ Dynascale._id tk' = 2
  | Dynascale.Raise _ => False
  end.
Proof. vm_compute. repeat split; reflexivity. Qed.

(** ** Invariants of a whole search *)

Lemma mapM_invariant_on {S A B} (f : A -> M S B) (I : S -> Prop) l s :
  (forall x s, x ∈ l -> I s -> I (snd (f x s))) -> I s -> I (snd (mapM f l s)).
Proof.
  revert s. induction l as [|x l IH]; intros s Hf Hs; simpl; [done|].
  unfold bind, ret.
  assert (H1 : I (snd (f x s))) by (apply Hf; [by left|done]).
  destruct (f x s) as [y s1]. simpl in H1.
  assert (H2 : I (snd (mapM f l s1))).
  { apply IH; [|done]. intros z s0 Hz. apply Hf. by right. }
  by destruct (mapM f l s1).
Qed.

Section SearchInvariants.
Context {W Traj Mdl : Type}.
Variable E : env W Traj Mdl.

Local Abbreviation St := (session W Traj).

(** *** Properties of the cell that every evaluation keeps *)

Section Keeps.
Variable J : St -> Prop.
Hypothesis HJ : forall n s, J s -> J (snd (model_run E n (n_window E) s)).

Lemma exp_loop_keeps fuel st (s : St) :
  J s -> J (snd (exp_loop E fuel st s)).
Proof.
  revert st s. induction fuel as [|fuel IH]; intros st s Hs; [done|].
  simpl. unfold bind, ret.
  destruct (exp_step_cases E st s)
    as [[_ ->]|[(_ & _ & ->)|(_ & _ & x & c & s1 & Hrun & ->)]]; [done|done|].
  assert (Hs1 : J s1).
  { pose proof (HJ (n_curr st) s Hs) as H. by rewrite Hrun in H. }
  destruct (exp_decide E st _ _ x) as [why v|st'|st'|]; try done.
  specialize (IH st' s1 Hs1).
  by destruct (exp_loop E fuel st' s1) as [[o ps] s2].
Qed.

Lemma bin_step_keeps b (s : St) : J s -> J (snd (bin_step E b s)).
Proof.
  intros Hs. unfold bin_step.
  destruct (_ <=? _); [by destruct (ceil_half _ _)|].
  unfold bind, ret.
  pose proof (HJ ((n_lower b + n_upper b) / 2) s Hs) as H.
  destruct (model_run E _ (n_window E) s) as [[x c] s1].
  by destruct (_ && _).
Qed.

Lemma bin_loop_keeps fuel b (s : St) :
  J s -> J (snd (bin_loop E fuel b s)).
Proof.
  revert b s. induction fuel as [|fuel IH]; intros b s Hs; [done|].
  simpl. unfold bind, ret.
  pose proof (bin_step_keeps b s Hs) as H1.
  destruct (bin_step E b s) as [r s1]. simpl in H1.
  destruct r as [why v|b'|b'|]; try done.
  specialize (IH b' s1 H1).
  by destruct (bin_loop E fuel b' s1) as [[o bs] s2].
Qed.

Lemma search_keeps fuel (s : St) : J s -> J (snd (search E fuel s)).
Proof.
  intros Hs. unfold search, bind, ret.
  pose proof (exp_loop_keeps fuel (exp_init E) s Hs) as H1.
  destruct (exp_loop E fuel (exp_init E) s) as [[o ps] s1]. simpl in H1.
  destruct o as [why v|st| |]; try done.
  unfold bin_init. destruct (last (n_prevs st)) as [nl|]; [|done].
  unfold bind, ret.
  pose proof (HJ nl s1 H1) as H2.
  destruct (model_run E nl (n_window E) s1) as [[el c1] s2]. simpl in H2.
  pose proof (HJ (n_curr st) s2 H2) as H3.
  destruct (model_run E (n_curr st) (n_window E) s2) as [[eu c2] s3].
  simpl in H3.
  pose proof (bin_loop_keeps fuel
                {| n_lower := nl; error_lower := el;
                   n_upper := n_curr st; error_upper := eu |} s3 H3) as H4.
  destruct (bin_loop E fuel _ s3) as [[o2 bs] s4]. simpl in H4.
  by destruct o2.
Qed.

End Keeps.

(** *** The table and the memo *)

(** A miss in full: what the row holds and what is memoized. *)
Lemma run_helper_new n (s : St) :
  memo s !! n = None ->
  exists v rw w,
    run_helper E n s
    = (v, {| world := w;
             master_training_set :=
               master_training_set (snd (get_training_set E n (count_model s)));
             memo := <[n := v]> (memo s);
             result := result s ++ [rw];
             models_built := S (models_built s) |})
    /\ row_n rw = n /\ row_rep rw = rep_id E
    /\ row_latent_dim rw = latent_dim E /\ row_embed_dim rw = embed_dim E
    /\ row_timesteps rw = timesteps E
    /\ row_total_cost rw = v.2
    /\ (if test_ood E then row_ood_error rw = Some v.1
        else row_ood_error rw = None /\ row_error rw = v.1).
Proof.
  intros H. unfold run_helper. rewrite H.
  unfold bind, modify, on_world, ret.
  assert (Hm : memo (snd (get_training_set E n (count_model s))) = memo s
               /\ result (snd (get_training_set E n (count_model s))) = result s
               /\ models_built (snd (get_training_set E n (count_model s)))
                  = S (models_built s)).
  { unfold get_training_set. destruct (_ <=? _); [done|].
    by destruct (gen_trainset E _ _). }
  destruct (get_training_set E n (count_model s)) as [ts s1].
  simpl in *. destruct Hm as (Hm1 & Hm2 & Hm3).
  destruct (fit_model E (model_cls E) ts (world s1)) as [[m c] w1]. simpl.
  destruct (test_error E m true w1) as [err w2]. simpl.
  destruct (test_ood E).
  - simpl. destruct (test_error E m false w2) as [oe w3]. simpl.
    unfold memoize, append_result, set_world. simpl.
    eexists (oe, c), _, w3. rewrite Hm1, Hm2, Hm3. repeat split; reflexivity.
  - simpl. unfold memoize, append_result, set_world. simpl.
    eexists (err, c), _, w2. rewrite Hm1, Hm2, Hm3. repeat split; reflexivity.
Qed.

Lemma table_ok_init w : table_ok E (init_session E w).
Proof.
  unfold table_ok, init_session. destruct (gen_trainset E 10 w). simpl.
  split; [constructor|]. split; [done|]. split; [done|constructor].
Qed.

Lemma table_ok_run_helper n (s : St) :
  table_ok E s -> table_ok E (snd (run_helper E n s)).
Proof.
  intros (Hnd & Hmb & Hsz & Hrows).
  destruct (memo s !! n) as [r|] eqn:Hn.
  { rewrite (run_helper_hit E n s r Hn). done. }
  destruct (run_helper_new n s Hn)
    as (v & rw & w & -> & Hrn & Hrep & Hlat & Hemb & Ht & Hcost & Hood).
  assert (Hfresh : n ∉ row_n <$> result s).
  { intros (r & -> & Hr)%list_elem_of_fmap.
    rewrite Forall_forall in Hrows.
    destruct (Hrows r Hr) as (_ & _ & _ & _ & _ & Hmemo). congruence. }
  unfold table_ok. simpl. split; [|split; [|split]].
  - rewrite fmap_app. simpl. rewrite Hrn. apply NoDup_app.
    split; [done|]. split; [|apply NoDup_singleton].
    intros x Hx ->%list_elem_of_singleton. done.
  - rewrite length_app. simpl. lia.
  - rewrite map_size_insert_None by done. rewrite length_app. simpl. lia.
  - apply Forall_app. split.
    + rewrite Forall_forall in Hrows. apply Forall_forall. intros r Hr.
      destruct (Hrows r Hr) as (? & ? & ? & ? & ? & Hmemo).
      repeat split; try tauto.
      rewrite lookup_insert_ne; [done|].
      intros ->. apply Hfresh. apply list_elem_of_fmap. by exists r.
    + constructor; [|constructor].
      split; [done|]. split; [done|]. split; [done|]. split; [done|].
      rewrite Hrn, lookup_insert_eq. unfold steering_error.
      destruct (test_ood E).
      * rewrite Hood, Hcost. split; [|by destruct v]. split; [done|by eexists].
      * destruct Hood as [-> ->]. rewrite Hcost.
        split; [|by destruct v]. split; [by intros [? ?]|done].
Qed.

Lemma table_ok_model_run n win (s : St) :
  table_ok E s -> table_ok E (snd (model_run E n win s)).
Proof.
  intros Hs. unfold model_run. destruct (0 <? win).
  - unfold bind, ret.
    pose proof (mapM_invariant (run_helper E) (table_ok E)
                  (py_range (Z.max 1 (n - win)) (Z.min (n + win + 1) (n_max E))) s
                  table_ok_run_helper Hs) as H.
    by destruct (mapM _ _ s).
  - by apply table_ok_run_helper.
Qed.

Lemma table_ok_search fuel w :
  table_ok E (snd (search E fuel (init_session E w))).
Proof.
  apply search_keeps; [|apply table_ok_init].
  intros n s. apply table_ok_model_run.
Qed.

End SearchInvariants.


(** ** The sample counts a search probes *)

Section SearchProbes.
Context {W Traj Mdl : Type}.
Variable E : env W Traj Mdl.
Variable lo : Z.
Variable J : session W Traj -> Prop.
Hypothesis Hlo : lo <= 1.
Hypothesis Hmax : 0 <= n_max E.
Hypothesis HJ :
  forall n s, lo <= n <= n_max E -> J s ->
              J (snd (model_run E n (n_window E) s)).

Local Abbreviation St := (session W Traj).

Lemma update_best_answer_in best n x :
  answer_in E lo best -> lo <= n <= n_max E ->
  answer_in E lo (update_best E best n x).
Proof.
  intros Hb Hn. unfold update_best. destruct (_ && _); [|done].
  simpl. by right.
Qed.

Lemma exp_decide_probes st hist best x :
  probe_inv E lo st -> n_curr st <= n_max E -> answer_in E lo best ->
  match exp_decide E st hist best x with
  | Continue st' => probe_inv E lo st'
  | Break st' => probe_inv E lo st' /\ n_curr st' <= n_max E /\ n_prevs st' <> []
  | Return _ v => answer_in E lo v
  | Raises => False
  end.
Proof.
  intros (Hn & Hprevs & Hinc & Herr & Hbest) Hle Hb.
  assert (Hfwd : probe_inv E lo (forward E st hist best x)).
  { unfold probe_inv, forward. simpl. split; [lia|].
    split; [apply Forall_app; split; [done|constructor; [lia|constructor]]|].
    split; [by apply next_increment_bounds|]. split; [by eexists|done]. }
  assert (Hres : forall n, lo <= n -> probe_inv E lo (restart n hist best)).
  { intros n Hn'. unfold probe_inv, restart. simpl. split; [done|].
    split; [constructor|]. split; [lia|]. done. }
  unfold exp_decide.
  destruct (Z.ltb_spec 0 (Z.of_nat (length (n_prevs st)))) as [Hlen|Hlen].
  - assert (Hne : n_prevs st <> []).
    { intros Hnil. rewrite Hnil in Hlen. simpl in Hlen. lia. }
    destruct (error_prev st) as [ep|] eqn:Hep.
    2:{ by destruct (Herr Hne). }
    destruct (fgt x ep).
    + destruct (Z.ltb_spec 1 (Z.of_nat (length (n_prevs st)))) as [Hlen2|Hlen2].
      * pose proof (pop_inv (n_prevs st)) as Hp.
        destruct (pop (n_prevs st)) as [[a l1]|]; [|done].
        pose proof (pop_inv l1) as Hp1.
        destruct (pop l1) as [[b l2]|].
        2:{ rewrite Hp, Hp1 in Hlen2. simpl in Hlen2. lia. }
        destruct (_ <=? _); [done|]. apply Hres.
        rewrite Hp, Hp1 in Hprevs. rewrite !Forall_app in Hprevs.
        destruct Hprevs as [[_ Hb'] _]. inversion Hb'; subst. lia.
      * pose proof (pop_inv (n_prevs st)) as Hp.
        destruct (pop (n_prevs st)) as [[a l1]|]; [|done].
        rewrite Hp, Forall_app in Hprevs. destruct Hprevs as [_ Ha].
        inversion Ha; subst.
        destruct (_ <? _); [simpl; by right|]. apply Hres. lia.
    + destruct (flt x (target_error E)); [|apply Hfwd].
      split; [|done]. unfold probe_inv. simpl. done.
  - destruct (fgt x (target_error E)); [apply Hfwd|].
    destruct (_ <? _); [simpl; right; lia|].
    unfold probe_inv. simpl. split; [lia|]. done.
Qed.

Lemma exp_loop_probes fuel st (s : St) :
  probe_inv E lo st -> J s ->
  J (snd (exp_loop E fuel st s))
  /\ match fst (fst (exp_loop E fuel st s)) with
     | Returned _ v => answer_in E lo v
     | Broke st' =>
         probe_inv E lo st' /\ n_curr st' <= n_max E /\ n_prevs st' <> []
     | Raised => False
     | OutOfFuel => True
     end.
Proof.
  revert st s. induction fuel as [|fuel IH]; intros st s Hst Hs; [done|].
  simpl. unfold bind, ret.
  destruct (exp_step_cases E st s)
    as [[_ ->]|[(_ & _ & ->)|(Hle & _ & x & c & s1 & Hrun & ->)]].
  - simpl. split; [done|by left].
  - simpl. split; [done|]. by destruct Hst as (_ & _ & _ & _ & ?).
  - assert (Hn : lo <= n_curr st <= n_max E).
    { destruct Hst as (? & _). lia. }
    assert (Hs1 : J s1).
    { pose proof (HJ (n_curr st) s Hn Hs) as H. by rewrite Hrun in H. }
    assert (Hb : answer_in E lo (update_best E (best_answer st) (n_curr st) x)).
    { apply update_best_answer_in; [|done]. by destruct Hst as (_ & _ & _ & _ & ?). }
    pose proof (exp_decide_probes st
                  ({[ (n_curr st, increment st) ]} ∪ history st)
                  (update_best E (best_answer st) (n_curr st) x) x Hst Hle Hb)
      as Hd.
    destruct (exp_decide E st _ _ x) as [why v|st'|st'|]; try done.
    specialize (IH st' s1 Hd Hs1).
    by destruct (exp_loop E fuel st' s1) as [[o ps] s2].
Qed.

Lemma half_between a b : Z.min a b <= (a + b) / 2 <= Z.max a b.
Proof.
  split.
  - apply Z.div_le_lower_bound; lia.
  - apply Z.lt_succ_r. apply Z.div_lt_upper_bound; lia.
Qed.

Lemma bin_loop_probes fuel b (s : St) :
  lo <= n_lower b <= n_max E -> lo <= n_upper b <= n_max E -> J s ->
  J (snd (bin_loop E fuel b s))
  /\ match fst (fst (bin_loop E fuel b s)) with
     | Returned _ v => - 2 ^ 52 < lo -> n_max E < 2 ^ 52 -> answer_in E lo v
     | Raised => - 2 ^ 52 < lo -> n_max E < 2 ^ 52 -> False
     | Broke _ => False
     | OutOfFuel => True
     end.
Proof.
  revert b s. induction fuel as [|fuel IH]; intros b s Hl Hu Hs; [done|].
  simpl. unfold bind, ret, bin_step.
  pose proof (ceil_half_between (n_lower b) (n_upper b)) as Hc.
  pose proof (half_between (n_lower b) (n_upper b)) as Hh.
  destruct (_ <=? _).
  - destruct (ceil_half (n_lower b) (n_upper b)) as [v|] eqn:Hv; simpl.
    + split; [done|]. intros Hlo52 Hmax52. right.
      specialize (Hc v ltac:(lia) eq_refl). lia.
    + split; [done|]. intros Hlo52 Hmax52.
      rewrite ceil_half_exact in Hv by lia. done.
  - unfold bind, ret.
    assert (Hm : lo <= (n_lower b + n_upper b) / 2 <= n_max E) by lia.
    pose proof (HJ _ s Hm Hs) as H1.
    destruct (model_run E _ (n_window E) s) as [[x c] s1]. simpl in H1.
    destruct (_ && _).
    + match goal with |- context [bin_loop E fuel ?b' s1] =>
        specialize (IH b' s1 ltac:(done) ltac:(done) H1);
        by destruct (bin_loop E fuel b' s1) as [[o bs] s2]
      end.
    + match goal with |- context [bin_loop E fuel ?b' s1] =>
        specialize (IH b' s1 ltac:(done) ltac:(done) H1);
        by destruct (bin_loop E fuel b' s1) as [[o bs] s2]
      end.
Qed.

Lemma exp_init_probes : lo <= n_start E -> probe_inv E lo (exp_init E).
Proof.
  intros H. unfold probe_inv, exp_init. simpl. split; [done|].
  split; [constructor|]. split; [lia|]. done.
Qed.

Lemma search_probes fuel (s : St) :
  lo <= n_start E -> J s ->
  J (snd (search E fuel s))
  /\ match fst (search E fuel s) with
     | Some v => - 2 ^ 52 < lo -> n_max E < 2 ^ 52 -> answer_in E lo v
     | None => True
     end.
Proof.
  intros Hstart Hs. unfold search, bind, ret.
  pose proof (exp_loop_probes fuel (exp_init E) s (exp_init_probes Hstart) Hs)
    as [H1 Ho].
  destruct (exp_loop E fuel (exp_init E) s) as [[o ps] s1]. simpl in H1, Ho.
  destruct o as [why v|st| |]; [by split; [|intros _ _]|..]; try done.
  destruct Ho as ((Hn & Hprevs & _) & Hle & Hne).
  unfold bin_init. destruct (last (n_prevs st)) as [nl|] eqn:Hlast; [|done].
  assert (Hnl : lo <= nl <= n_max E).
  { apply last_Some in Hlast as [l' Hl'].
    rewrite Hl', Forall_app in Hprevs. destruct Hprevs as [_ Hp].
    by inversion Hp. }
  unfold bind, ret.
  pose proof (HJ nl s1 Hnl H1) as H2.
  destruct (model_run E nl (n_window E) s1) as [[el c1] s2]. simpl in H2.
  pose proof (HJ (n_curr st) s2 ltac:(lia) H2) as H3.
  destruct (model_run E (n_curr st) (n_window E) s2) as [[eu c2] s3].
  simpl in H3.
  pose proof (bin_loop_probes fuel
                {| n_lower := nl; error_lower := el;
                   n_upper := n_curr st; error_upper := eu |} s3
                Hnl ltac:(simpl; lia) H3) as [H4 Ho2].
  destruct (bin_loop E fuel _ s3) as [[o2 bs] s4]. simpl in H4, Ho2.
  by destruct o2.
Qed.

End SearchProbes.

(** ** A whole search: that it returns, what it returns, what it trains *)

Section SearchTheorems.
Context {W Traj Mdl : Type}.
Variable E : env W Traj Mdl.

Local Abbreviation St := (session W Traj).

Lemma model_run_keeps (J : St -> Prop) lo n win (s : St) :
  (forall k s, lo <= k <= n_max E -> J s -> J (snd (run_helper E k s))) ->
  lo <= 1 -> lo <= n <= n_max E -> J s -> J (snd (model_run E n win s)).
Proof.
  intros HJ Hlo Hn Hs. unfold model_run. destruct (0 <? win).
  - unfold bind, ret.
    pose proof (mapM_invariant_on (run_helper E) J
                  (py_range (Z.max 1 (n - win)) (Z.min (n + win + 1) (n_max E))) s)
      as H.
    destruct (mapM _ _ s) as [rs s']. simpl in *. apply H; [|done].
    intros k s0 Hk. apply HJ. unfold py_range in Hk.
    apply elem_of_seqZ in Hk. lia.
  - by apply HJ.
Qed.

(** The second loop ends: a bracket wider than the precision gets
    narrower, and between [-2^1023] and [2^1023] no quotient is too large
    for a float. *)
Lemma bin_loop_ends fuel b (s : St) :
  - 2 ^ 1023 < n_lower b < 2 ^ 1023 -> - 2 ^ 1023 < n_upper b < 2 ^ 1023 ->
  (Z.to_nat (n_upper b - n_lower b) < fuel)%nat ->
  exists v bs s',
    bin_loop E fuel b s = ((Returned Converged (Fin v), bs), s').
Proof.
  revert b s. induction fuel as [|fuel IH]; intros b s Hl Hu Hf; [lia|].
  simpl. unfold bind, ret.
  destruct (Z.le_gt_cases (n_upper b - n_lower b) (Z.max (n_precision E) 1))
    as [Hc|Hw].
  - rewrite (bin_step_converged E b s Hc).
    destruct (ceil_half_Some (n_lower b) (n_upper b)) as [v ->]; [lia|].
    by eexists _, _, _.
  - destruct (bin_step_narrows E b s)
      as (x & c & s' & b' & _ & -> & Hn & _ & Hl' & Hlu' & Hu'); [lia|].
    destruct (IH b' s') as (v & bs & s'' & ->); [lia..|]. by eexists _, _, _.
Qed.

Lemma exp_box_length :
  length (exp_box E)
  = (Z.to_nat (n_max E - n_low E + 1) * Z.to_nat (increment_high E + 1))%nat.
Proof. unfold exp_box. by rewrite length_prod, !length_seqZ. Qed.

Lemma search_ends fuel (s : St) :
  0 <= n_max E < 2 ^ 1023 -> - 2 ^ 1023 < n_start E ->
  (exp_fuel E <= fuel)%nat ->
  exists v, fst (search E fuel s) = Some v.
Proof.
  intros [Hmax Hmax'] Hstart' Hfuel.
  assert (Hlow : n_low E <= 1) by (unfold n_low; lia).
  assert (Hstart : n_low E <= n_start E) by (unfold n_low; lia).
  destruct (exp_loop_ends E fuel (exp_init E) s Hmax (exp_init_inv E))
    as (o & ps & s1 & Hloop & Ho).
  { unfold exp_fuel in Hfuel. simpl. lia. }
  pose proof (exp_loop_probes E (n_low E) (fun _ => True) Hlow Hmax
                ltac:(done) fuel (exp_init E) s
                (exp_init_probes E (n_low E) Hstart) I) as [_ Hp].
  rewrite Hloop in Hp. simpl in Hp.
  unfold search, bind, ret. rewrite Hloop.
  destruct Ho as [(why & v & ->)|(st & ->)]; [by eexists|].
  destruct Hp as ((Hn & Hprevs & _) & Hle & Hne).
  unfold bin_init. destruct (last (n_prevs st)) as [nl|] eqn:Hlast.
  2:{ by apply last_None in Hlast. }
  assert (Hnl : n_low E <= nl <= n_max E).
  { apply last_Some in Hlast as [l' Hl'].
    rewrite Hl', Forall_app in Hprevs. destruct Hprevs as [_ Hp].
    by inversion Hp. }
  unfold bind, ret.
  destruct (model_run E nl (n_window E) s1) as [[el c1] s2].
  destruct (model_run E (n_curr st) (n_window E) s2) as [[eu c2] s3].
  destruct (bin_loop_ends fuel
              {| n_lower := nl; error_lower := el;
                 n_upper := n_curr st; error_upper := eu |} s3)
    as (v & bs & s4 & ->); [simpl; unfold n_low in *; lia..| |by eexists].
  simpl. unfold exp_fuel in Hfuel. rewrite exp_box_length in Hfuel.
  assert (1 <= increment_high E) by (unfold increment_high; lia).
  nia.
Qed.


(** X2: for [n_max] below [2^52], where the half of the sum of two sample
    counts is a double, what [search] returns is one of the three things
    its docstring names: [np.inf], -1, or a number of trajectories between
    1 and [n_max]. *)
Theorem search_answer_range (fuel : nat) (s : St) :
  0 <= n_max E < 2 ^ 52 -> 1 <= n_start E -> (exp_fuel E <= fuel)%nat ->
  exists v, fst (search E fuel s) = Some v
            /\ (v = Inf \/ v = Fin (-1)
                \/ exists n, v = Fin n /\ 1 <= n <= n_max E).
Proof.
  intros [Hmax Hmax52] Hstart Hfuel.
  destruct (search_ends fuel s ltac:(lia) ltac:(lia) Hfuel) as [v Hv].
  pose proof (search_probes E 1 (fun _ => True) ltac:(lia) Hmax ltac:(done)
                fuel s Hstart I) as [_ Ha].
  rewrite Hv in Ha. specialize (Ha ltac:(lia) Hmax52).
  exists v. split; [done|].
  destruct v as [n|]; [|by left]. right. simpl in Ha.
  destruct Ha as [->|Hn]; [by left|right; by exists n].
Qed.

Lemma search_rows_from lo (fuel : nat) (w : W) :
  lo <= 1 -> lo <= n_start E -> 0 <= n_max E ->
  Forall (fun r => lo <= row_n r <= n_max E)
         (result (snd (search E fuel (init_session E w)))).
Proof.
  intros Hlow Hstart Hmax.
  set (J := fun s : St => Forall (fun r => lo <= row_n r <= n_max E) (result s)).
  apply (search_probes E lo J Hlow Hmax).
  - intros n s Hn Hs. apply (model_run_keeps J lo); try done.
    clear. intros k s Hk Hs. destruct (memo s !! k) as [r|] eqn:Hm.
    + by rewrite (run_helper_hit E k s r Hm).
    + destruct (run_helper_new E k s Hm) as (v & rw & w' & -> & Hrn & _).
      unfold J. simpl. apply Forall_app. split; [done|].
      constructor; [lia|constructor].
  - done.
  - unfold J, init_session. destruct (gen_trainset E 10 w). constructor.
Qed.


(** X4: the table of a search has one row for every sample count that was
    evaluated and no two rows for the same sample count; as many models
    were built as there are rows, and the memo has as many entries. *)
Theorem one_row_per_sample_count (fuel : nat) (w : W) :
  let s := snd (search E fuel (init_session E w)) in
  NoDup (row_n <$> result s)
  /\ models_built s = length (result s)
  /\ size (memo s) = length (result s).
Proof.
  intros s. destruct (table_ok_search E fuel w) as (? & ? & ? & _). done.
Qed.

(** X5: a search never builds more than [n_max] models. *)
Theorem models_bounded (fuel : nat) (w : W) :
  0 <= n_max E -> 1 <= n_start E ->
  (models_built (snd (search E fuel (init_session E w)))
   <= Z.to_nat (n_max E))%nat.
Proof.
  intros Hmax Hstart.
  destruct (table_ok_search E fuel w) as (Hnd & -> & _).
  pose proof (search_rows_from 1 fuel w ltac:(lia) Hstart Hmax) as Hin.
  set (s := snd (search E fuel (init_session E w))) in *.
  rewrite <- (length_fmap row_n (result s)).
  rewrite <- (length_seqZ 1 (n_max E)).
  apply submseteq_length, NoDup_submseteq; [done|].
  intros n (r & -> & Hr)%list_elem_of_fmap.
  rewrite Forall_forall in Hin. specialize (Hin r Hr).
  apply elem_of_seqZ. lia.
Qed.

(** X6: every row of the table carries the repetition, the dimensions and
    the timesteps of the run; it has an out-of-distribution error exactly
    when [test_ood] is set; and the memo holds for its sample count the
    pair [model_run] returns: the out-of-distribution error if there is
    one, else the error, and the total cost. *)
Theorem rows_record_the_run (fuel : nat) (w : W) :
  let s := snd (search E fuel (init_session E w)) in
  Forall (fun r =>
    row_rep r = rep_id E /\ row_latent_dim r = latent_dim E
    /\ row_embed_dim r = embed_dim E /\ row_timesteps r = timesteps E
    /\ (is_Some (row_ood_error r) <-> test_ood E = true)
    /\ memo s !! row_n r = Some (steering_error r, row_total_cost r))
  (result s).
Proof.
  intros s. by destruct (table_ok_search E fuel w) as (_ & _ & _ & ?).
Qed.

(** X7: the pool of trajectories never holds more than [max(10, n_max)]
    trajectories. *)
Theorem pool_bounded (fuel : nat) (w : W) :
  gen_ok E -> 0 <= n_max E ->
  (length (master_training_set (snd (search E fuel (init_session E w))))
   <= Z.to_nat (Z.max 10 (n_max E)))%nat.
Proof.
  intros Hgen Hmax.
  assert (Hlow : n_low E <= 1) by (unfold n_low; lia).
  assert (Hstart : n_low E <= n_start E) by (unfold n_low; lia).
  set (J := fun s : St =>
         (length (master_training_set s) <= Z.to_nat (Z.max 10 (n_max E)))%nat).
  apply (search_probes E (n_low E) J Hlow Hmax).
  - intros n s Hn Hs. apply (model_run_keeps J (n_low E)); try done.
    clear -Hgen. intros k s Hk Hs. destruct (memo s !! k) as [r|] eqn:Hm.
    + by rewrite (run_helper_hit E k s r Hm).
    + destruct (run_helper_new E k s Hm) as (v & rw & w' & -> & _).
      unfold J in *. simpl. unfold get_training_set. simpl.
      destruct (Z.leb_spec k (Z.of_nat (length (master_training_set s))));
        [done|].
      pose proof (Hgen (k - Z.of_nat (length (master_training_set s)))
                       (world s) ltac:(lia)) as Hlen.
      destruct (gen_trainset E _ (world s)) as [added w1]. simpl in *.
      rewrite length_app, Hlen. lia.
  - done.
  - unfold J, init_session. pose proof (Hgen 10 w ltac:(lia)) as Hlen.
    destruct (gen_trainset E 10 w) as [pool w1]. simpl in *. lia.
Qed.

End SearchTheorems.

(** ** The binary phase on a curve that does not touch the target *)

Section BinaryOnCurve.
Context {W Traj Mdl : Type}.
Variable E : env W Traj Mdl.
Variable f : Z -> float.
Variable I : session W Traj -> Prop.
Hypothesis Hprobe : probes_as E f I.

Local Abbreviation St := (session W Traj).

Lemma ceil_half_inside a b :
  - 2 ^ 53 < a + b < 2 ^ 53 -> a < b ->
  exists v, ceil_half a b = Some v /\ a < v <= b.
Proof.
  intros Hs H. rewrite (ceil_half_exact a b Hs). eexists. split; [done|].
  split.
  - apply Z.lt_le_trans with (a + 1); [lia|].
    apply Z.div_le_lower_bound; lia.
  - apply Z.lt_succ_r. apply Z.div_lt_upper_bound; lia.
Qed.

Lemma bin_loop_brackets fuel b (s : St) :
  I s -> bracket_ok E f b -> n_upper b < 2 ^ 52 ->
  (forall n, n_lower b < n < n_upper b ->
     fgt (f n) (target_error E) = true \/ flt (f n) (target_error E) = true) ->
  (Z.to_nat (n_upper b - n_lower b) < fuel)%nat ->
  exists bs final s' v,
    bin_loop E fuel b s = ((Returned Converged (Fin v), bs), s')
    /\ ceil_half (n_lower final) (n_upper final) = Some v
    /\ n_lower final < v <= n_upper final
    /\ I s'
    /\ Forall (bracket_ok E f) bs
    /\ last bs = Some final
    /\ n_lower b <= n_lower final /\ n_upper final <= n_upper b
    /\ n_upper final - n_lower final <= Z.max (n_precision E) 1.
Proof.
  revert b s.
  induction fuel as [|fuel IH]; intros b s Hs Hb Hub Htie Hf; [lia|].
  simpl. unfold bind, ret.
  destruct (Z.le_gt_cases (n_upper b - n_lower b) (Z.max (n_precision E) 1))
    as [Hc|Hw].
  - rewrite (bin_step_converged E b s Hc).
    destruct (ceil_half_inside (n_lower b) (n_upper b)) as (v & Hv & Hin).
    { destruct Hb as (? & _). lia. }
    { destruct Hb as (? & _). lia. }
    rewrite Hv. exists [b], b, s, v. split; [done|]. split; [done|].
    split; [done|]. split; [done|].
    split; [by constructor|]. split; [done|]. lia.
  - unfold bin_step.
    destruct (Z.leb_spec (n_upper b - n_lower b) (Z.max (n_precision E) 1));
      [lia|].
    destruct Hb as (Hlu & Hel & Heu & Hgl & Hlu').
    assert (Hmid : n_lower b < (n_lower b + n_upper b) / 2 < n_upper b).
    { assert (n_lower b + 1 <= (n_lower b + n_upper b) / 2)
        by (apply Z.div_le_lower_bound; lia).
      assert ((n_lower b + n_upper b) / 2 < n_upper b)
        by (apply Z.div_lt_upper_bound; lia).
      lia. }
    set (mid := (n_lower b + n_upper b) / 2) in *.
    destruct (Hprobe mid s Hs) as (c & s1 & Hrun & Hs1); [lia|].
    unfold bind, ret. rewrite Hrun. rewrite Hgl. simpl.
    destruct (fgt (target_error E) (f mid)) eqn:Hx.
    + destruct (IH {| n_lower := n_lower b; error_lower := error_lower b;
                      n_upper := mid; error_upper := f mid |} s1 Hs1)
        as (bs & final & s2 & v & -> & Hv & Hin & Hs2 & Hall & Hlast & Hl & Hu
            & Hwid).
      * unfold bracket_ok. simpl. split; [lia|]. done.
      * simpl. lia.
      * simpl. intros n Hn. apply Htie. lia.
      * simpl. lia.
      * eexists (_ :: bs), final, s2, v. simpl in *. split; [done|].
        split; [done|]. split; [done|]. split; [done|].
        split; [constructor; [unfold bracket_ok; repeat split; (done || lia)|done]|].
        split; [|lia].
        apply last_Some in Hlast as [l' ->].
        by rewrite app_comm_cons, last_snoc.
    + assert (Hgx : fgt (f mid) (target_error E) = true).
      { destruct (Htie mid Hmid) as [?|Hlt]; [done|].
        unfold fgt in Hx. congruence. }
      destruct (IH {| n_lower := mid; error_lower := f mid;
                      n_upper := n_upper b; error_upper := error_upper b |}
                   s1 Hs1)
        as (bs & final & s2 & v & -> & Hv & Hin & Hs2 & Hall & Hlast & Hl & Hu
            & Hwid).
      * unfold bracket_ok. simpl. split; [lia|]. done.
      * simpl. lia.
      * simpl. intros n Hn. apply Htie. lia.
      * simpl. lia.
      * eexists (_ :: bs), final, s2, v. simpl in *. split; [done|].
        split; [done|]. split; [done|]. split; [done|].
        split; [constructor; [unfold bracket_ok; repeat split; (done || lia)|done]|].
        split; [|lia].
        apply last_Some in Hlast as [l' ->].
        by rewrite app_comm_cons, last_snoc.
Qed.

(** *** The whole search on a curve that falls through the target *)

Section Crossing.
Hypothesis Hstart : 1 <= n_start E.
Hypothesis Hmax : 10 <= n_max E.
Hypothesis Hfall :
  forall n m, n_start E <= n <= m -> m <= n_max E -> fgt (f m) (f n) = false.
Hypothesis Htie :
  forall n, n_start E <= n <= n_max E ->
    fgt (f n) (target_error E) = true \/ flt (f n) (target_error E) = true.
Hypothesis Hfirst : fgt (f (n_start E)) (target_error E) = true.

Lemma climbing_step st (s : St) :
  climbing E f st -> I s -> n_curr st <= n_max E ->
  exists r s',
    exp_step E st s = ((r, Some (f (n_curr st))), s') /\ I s'
    /\ match r with
       | Continue st' => climbing E f st' /\ n_curr st < n_curr st'
       | Break st' =>
           exists p, last (n_prevs st') = Some p
                     /\ n_start E <= p < n_curr st' /\ n_curr st' <= n_max E
                     /\ fgt (f p) (target_error E) = true
                     /\ flt (f (n_curr st')) (target_error E) = true
       | _ => False
       end.
Proof.
  intros (Hn & Hinc & Hhist & Hprevs) Hs Hle.
  destruct (exp_step_probe E f I Hprobe st s Hs) as (s' & -> & Hs'); [lia| |].
  { intros Hin. specialize (Hhist _ Hin). simpl in Hhist. lia. }
  eexists _, s'. split; [done|]. split; [done|].
  set (hist := {[ (n_curr st, increment st) ]} ∪ history st).
  set (best := update_best E (best_answer st) (n_curr st) (f (n_curr st))).
  assert (Hfwd : fgt (f (n_curr st)) (target_error E) = true ->
                 climbing E f (forward E st hist best (f (n_curr st)))
                 /\ n_curr st < n_curr (forward E st hist best (f (n_curr st)))).
  { intros Hab. split; [|simpl; lia].
    unfold climbing, forward. simpl. split; [lia|].
    split; [by apply next_increment_pos|]. split.
    - intros q [Hq|Hq]%elem_of_union.
      + apply elem_of_singleton in Hq as ->. simpl. lia.
      + specialize (Hhist q Hq). lia.
    - rewrite last_snoc. split; [lia|]. done. }
  unfold exp_decide.
  destruct (last (n_prevs st)) as [p|] eqn:Hlast.
  - destruct Hprevs as (Hp & Hep & Hfp).
    apply last_Some in Hlast as [l' Hl'].
    rewrite Hl', length_app. simpl.
    destruct (Z.ltb_spec 0 (Z.of_nat (length l' + 1))); [|lia].
    rewrite Hep, Hfall by lia.
    destruct (flt (f (n_curr st)) (target_error E)) eqn:Hlt.
    + exists p. simpl. rewrite last_snoc. repeat split; (done || lia).
    + apply Hfwd. destruct (Htie (n_curr st)) as [?|?]; [lia|done|congruence].
  - apply last_None in Hlast. rewrite Hlast. simpl.
    assert (Hab : fgt (f (n_curr st)) (target_error E) = true)
      by (rewrite Hprevs; exact Hfirst).
    rewrite Hab. by apply Hfwd.
Qed.

Lemma climbing_loop fuel st (s : St) :
  climbing E f st -> I s ->
  (Z.to_nat (n_max E + 1 - n_curr st) < fuel)%nat ->
  exists o probes s',
    exp_loop E fuel st s = ((o, probes), s') /\ I s'
    /\ match o with
       | Returned _ v => v = Fin (-1)
       | Broke st' =>
           exists p, last (n_prevs st') = Some p
                     /\ n_start E <= p < n_curr st' /\ n_curr st' <= n_max E
                     /\ fgt (f p) (target_error E) = true
                     /\ flt (f (n_curr st')) (target_error E) = true
       | _ => False
       end.
Proof.
  revert st s. induction fuel as [|fuel IH]; intros st s Hst Hs Hfuel; [lia|].
  simpl. unfold bind, ret.
  destruct (Z.lt_ge_cases (n_max E) (n_curr st)) as [Hgt|Hle].
  - destruct (exp_step_cases E st s) as [[_ ->]|[(? & _)|(? & _)]]; [|lia|lia].
    by eexists _, _, _.
  - destruct (climbing_step st s Hst Hs Hle) as (r & s' & -> & Hs' & Hr).
    destruct r as [why v|st'|st'|]; try done.
    + by eexists _, _, _.
    + destruct Hr as [Hst' Hlt].
      destruct (IH st' s' Hst' Hs') as (o & probes & s'' & -> & Hs'' & Ho);
        [lia|].
      by eexists _, _, _.
Qed.

Lemma crossing_search fuel (s : St) :
  n_max E < 2 ^ 52 ->
  I s -> (Z.to_nat (n_max E - n_start E + 1) < fuel)%nat ->
  fst (search E fuel s) = Some (Fin (-1))
  \/ exists l u v,
       fst (search E fuel s) = Some (Fin v)
       /\ n_start E <= l /\ l < v <= u /\ u <= n_max E
       /\ u - l <= Z.max (n_precision E) 1
       /\ fgt (f l) (target_error E) = true
       /\ flt (f u) (target_error E) = true.
Proof.
  intros Hmax52 Hs Hfuel.
  destruct (climbing_loop fuel (exp_init E) s) as (o & probes & s1 & Hloop & Hs1 & Ho);
    [|done|unfold exp_init; simpl; lia|].
  { unfold climbing, exp_init. simpl. split; [lia|]. split; [lia|].
    split; [|done]. intros q Hq. by apply not_elem_of_empty in Hq. }
  unfold search, bind, ret. rewrite Hloop.
  destruct o as [why v|st| |]; try done.
  { left. simpl. by rewrite Ho. }
  right. destruct Ho as (p & Hlast & Hp & Hle & Hfp & Hfc).
  unfold bin_init. rewrite Hlast. unfold bind, ret.
  destruct (Hprobe p s1 Hs1) as (c1 & s2 & -> & Hs2); [lia|].
  destruct (Hprobe (n_curr st) s2 Hs2) as (c2 & s3 & -> & Hs3); [lia|].
  destruct (bin_loop_brackets fuel
              {| n_lower := p; error_lower := f p;
                 n_upper := n_curr st; error_upper := f (n_curr st) |} s3 Hs3)
    as (bs & final & s4 & v & -> & Hv & Hin & Hs4 & Hall & Hfinal & Hl & Hu
        & Hwid).
  - unfold bracket_ok. simpl. split; [lia|]. done.
  - simpl. lia.
  - simpl. intros n Hn. apply Htie. lia.
  - simpl. lia.
  - simpl in *.
    assert (Hok : bracket_ok E f final).
    { apply last_Some in Hfinal as [l' Hl'].
      rewrite Hl', Forall_app in Hall. destruct Hall as [_ Hfin].
      by inversion Hfin. }
    destruct Hok as (Hlu & Hel & Heu & Hgl & Hlu').
    exists (n_lower final), (n_upper final), v. split; [done|].
    rewrite Hel in Hgl. rewrite Heu in Hlu'.
    repeat split; try done; lia.
Qed.

End Crossing.

End BinaryOnCurve.

Lemma flt_fle a b : flt a b = true -> fle a b = true.
Proof.
  destruct a as [x| | |], b as [y| | |]; simpl; try done.
  intros H%Qltb_lt. apply Qle_bool_iff. by apply Qlt_le_weak.
Qed.

Lemma fgt_flt_trans a t b :
  fgt a t = true -> flt b t = true -> fgt a b = true.
Proof.
  destruct a as [x| | |], t as [z| | |], b as [y| | |]; simpl; try done.
  intros H1%Qltb_lt H2%Qltb_lt. apply Qltb_lt. by apply Qlt_trans with z.
Qed.

(** X8: for a bracket below [2^52], where the half of the sum of its
    ends is a double: when no error between the ends of the bracket is the
    target itself (or not a number), the binary phase keeps the target
    strictly between the errors at the ends of the bracket in every
    iteration, ends with a bracket no wider than [max(n_precision, 1)] and
    returns the rounded-up midpoint of that bracket, which lies above its
    lower and not above its upper end. The errors are the ones [model_run]
    reports: over a window, the median as [np.median] rounds it. *)
Theorem binary_phase_keeps_bracket {W Traj Mdl} (E : env W Traj Mdl)
    (e : Z -> float) (s : session W Traj) (b : bin_state) (fuel : nat) :
  gen_ok E -> realises E e -> memo_ok e s ->
  bracket_ok E (windowed E e) b -> n_upper b < 2 ^ 52 ->
  (forall n, n_lower b < n < n_upper b ->
     fgt (windowed E e n) (target_error E) = true
     \/ flt (windowed E e n) (target_error E) = true) ->
  (Z.to_nat (n_upper b - n_lower b) < fuel)%nat ->
  exists bs final v,
    fst (bin_loop E fuel b s) = (Returned Converged (Fin v), bs)
    /\ Forall (bracket_ok E (windowed E e)) bs
    /\ last bs = Some final
    /\ n_upper final - n_lower final <= Z.max (n_precision E) 1
    /\ ceil_half (n_lower final) (n_upper final) = Some v
    /\ n_lower b <= n_lower final /\ n_lower final < v <= n_upper final
    /\ n_upper final <= n_upper b.
Proof.
  intros Hgen Hreal Hs Hb Hup52 Htie Hfuel.
  destruct (bin_loop_brackets E (windowed E e) (memo_ok e)
              (model_run_curve E e Hgen Hreal) fuel b s Hs Hb Hup52 Htie Hfuel)
    as (bs & final & s' & v & Hloop & Hv & Hin & _ & Hall & Hlast & Hl & Hu
        & Hwid).
  exists bs, final, v.
  rewrite Hloop. simpl. split; [done|]. split; [done|]. split; [done|].
  split; [done|]. split; [done|]. split; [done|]. split; [done|]. done.
Qed.

(** X9: for [n_max] below [2^52], on a curve of reported errors that
    starts above the target, never rises and never touches the target,
    [search] returns -1 (its probes stepped over [n_max]) or a number of
    trajectories [v] inside a bracket [l < v <= u] no wider than
    [max(n_precision, 1)]; no sample count up to [l] meets the target and
    every sample count from [u] on does. *)
Theorem search_finds_crossing {W Traj Mdl} (E : env W Traj Mdl)
    (e : Z -> float) (w : W) (fuel : nat) :
  gen_ok E -> realises E e ->
  1 <= n_start E -> 10 <= n_max E < 2 ^ 52 ->
  (forall n m, n_start E <= n <= m -> m <= n_max E ->
     fgt (windowed E e m) (windowed E e n) = false) ->
  (forall n, n_start E <= n <= n_max E ->
     fgt (windowed E e n) (target_error E) = true
     \/ flt (windowed E e n) (target_error E) = true) ->
  fgt (windowed E e (n_start E)) (target_error E) = true ->
  (Z.to_nat (n_max E - n_start E + 1) < fuel)%nat ->
  fst (search E fuel (init_session E w)) = Some (Fin (-1))
  \/ exists l u v,
       fst (search E fuel (init_session E w)) = Some (Fin v)
       /\ n_start E <= l /\ l < v <= u /\ u <= n_max E
       /\ u - l <= Z.max (n_precision E) 1
       /\ (forall n, n_start E <= n <= l ->
             fle (windowed E e n) (target_error E) = false)
       /\ (forall n, u <= n <= n_max E ->
             fle (windowed E e n) (target_error E) = true).
Proof.
  intros Hgen Hreal Hstart [Hmax Hmax52] Hfall Htie Hfirst Hfuel.
  destruct (crossing_search E (windowed E e) (memo_ok e)
              (model_run_curve E e Hgen Hreal) Hstart Hmax Hfall Htie Hfirst
              fuel (init_session E w) Hmax52 (memo_ok_init E e w) Hfuel)
    as [H|(l & u & v & Hv & Hl & Hlv & Hu & Hwid & Hfl & Hfu)]; [by left|].
  right. exists l, u, v. repeat split; try done; try lia.
  - intros n Hn. destruct (Htie n) as [Hg|Hlt]; [lia|by apply fgt_not_fle|].
    pose proof (fgt_flt_trans _ _ _ Hfl Hlt) as Hc.
    rewrite Hfall in Hc by lia. done.
  - intros n Hn. destruct (Htie n) as [Hg|Hlt]; [lia| |by apply flt_fle].
    pose proof (fgt_flt_trans _ _ _ Hg Hfu) as Hc.
    rewrite Hfall in Hc by lia. done.
Qed.

(** X10: a window that holds no sample count: [model_run] trains no model,
    leaves the cell as it is and reports not-a-number for the error and
    for the cost. With [n_max = 1] and a window every window is empty, and
    a search that starts at one trajectory with a precision of at least 1
    answers 1 without having trained a model. *)
Theorem model_run_empty_window {W Traj Mdl} (E : env W Traj Mdl) :
  (forall n win (s : session W Traj),
     0 < win -> Z.min (n + win + 1) (n_max E) <= Z.max 1 (n - win) ->
     model_run E n win s = ((NaN, NaN), s))
  /\ (forall fuel (s : session W Traj),
        0 < n_window E -> n_max E = 1 -> n_start E = 1 ->
        1 <= n_precision E ->
        search E (S fuel) s = (Some (Fin 1), s)).
Proof.
  assert (Hrun : forall n win (s : session W Traj),
            0 < win -> Z.min (n + win + 1) (n_max E) <= Z.max 1 (n - win) ->
            model_run E n win s = ((NaN, NaN), s)).
  { intros n win s Hwin Hempty. unfold model_run.
    destruct (Z.ltb_spec 0 win); [|lia].
    unfold py_range. rewrite seqZ_nil by lia. done. }
  split; [exact Hrun|].
  intros fuel s Hwin Hmax Hstart Hprec.
  unfold search, bind, ret. simpl. unfold bind, ret, exp_step. simpl.
  rewrite Hstart, Hmax. simpl.
  destruct (decide ((1, 1) ∈ (∅ : gset (Z * Z)))) as [Hin|_].
  { by apply not_elem_of_empty in Hin. }
  unfold bind, ret. rewrite Hrun by lia.
  unfold exp_decide. simpl.
  assert (Hnan : fgt NaN (target_error E) = false)
    by (unfold fgt, flt; by destruct (target_error E)).
  rewrite Hnan, Hstart.
  destruct (Z.ltb_spec 1 (n_precision E + 1)); [done|lia].
Qed.

(** X11: when the error [model_run] reports at [n_start] is not above the
    target (it meets the target, or is not a number) and [n_start] is no
    larger than the precision, [search] returns [n_start] after this one probe: the cell is
    the one a single [model_run] leaves. *)
Theorem search_stops_at_start {W Traj Mdl} (E : env W Traj Mdl)
    (e : Z -> float) (w : W) (fuel : nat) :
  gen_ok E -> realises E e ->
  1 <= n_start E <= n_max E -> n_start E <= n_precision E ->
  fgt (windowed E e (n_start E)) (target_error E) = false ->
  search E (S fuel) (init_session E w)
  = (Some (Fin (n_start E)),
     snd (model_run E (n_start E) (n_window E) (init_session E w))).
Proof.
  intros Hgen Hreal Hstart Hprec Hmeets.
  destruct (model_run_curve E e Hgen Hreal (n_start E) (init_session E w)
              (memo_ok_init E e w)) as (c & s' & Hrun & _); [lia|].
  unfold search, bind, ret. simpl. unfold bind, ret, exp_step. simpl.
  destruct (Z.ltb_spec (n_max E) (n_start E)); [lia|].
  destruct (decide ((n_start E, 1) ∈ (∅ : gset (Z * Z)))) as [Hin|_].
  { by apply not_elem_of_empty in Hin. }
  unfold bind, ret. rewrite Hrun. simpl.
  unfold exp_decide. simpl. rewrite Hmeets.
  destruct (Z.ltb_spec (n_start E) (n_precision E + 1)); [done|lia].
Qed.

(** ** [FixedError.__init__] *)

Section FixedErrorInit.
Import Dynascale.

Lemma insort_Sorted x l :
  Sorted Z.le l -> Sorted Z.le (FixedError.insort x l).
Proof.
  induction 1 as [|y l Hl IH Hhd]; simpl.
  - repeat constructor.
  - destruct (Z.leb_spec x y).
    + constructor; [by constructor|by constructor].
    + constructor; [done|].
      destruct l as [|z l]; simpl; [constructor; lia|].
      apply HdRel_inv in Hhd.
      destruct (Z.leb_spec x z); constructor; lia.
Qed.

Lemma sorted_Sorted L : Sorted Z.le (FixedError.sorted L).
Proof.
  induction L as [|x L IH]; simpl; [constructor|by apply insort_Sorted].
Qed.

(** A list equals its sorted self exactly when it never falls. *)
Lemma sorted_fixpoint L : L = FixedError.sorted L <-> Sorted Z.le L.
Proof.
  split.
  - intros H. rewrite H. apply sorted_Sorted.
  - induction 1 as [|x l Hl IH Hhd]; [done|].
    unfold FixedError.sorted in *. simpl. rewrite <- IH.
    destruct Hhd as [|y l Hxy]; simpl; [done|].
    destruct (Z.leb_spec x y); [done|lia].
Qed.

Lemma dict_of_snoc items k v :
  FixedError.dict_of (items ++ [(k, v)]) = <[k := v]> (FixedError.dict_of items).
Proof. unfold FixedError.dict_of. by rewrite foldl_snoc. Qed.

Lemma dict_of_lookup_None items k :
  k ∉ items.*1 -> FixedError.dict_of items !! k = None.
Proof.
  induction items as [|[k' v'] items IH] using rev_ind; intros Hk; [done|].
  rewrite fmap_app in Hk. apply not_elem_of_app in Hk as [Hk Hk'].
  rewrite dict_of_snoc, lookup_insert_ne; [by apply IH|].
  intros ->. apply Hk'. simpl. by left.
Qed.

(** The value of a key is that of its last pair. *)
Lemma dict_of_lookup_last items i k v :
  items !! i = Some (k, v) ->
  (forall j kv, (i < j)%nat -> items !! j = Some kv -> kv.1 <> k) ->
  FixedError.dict_of items !! k = Some v.
Proof.
  revert i. induction items as [|[k' v'] items IH] using rev_ind;
    intros i Hi Hlater; [done|].
  rewrite dict_of_snoc.
  apply lookup_snoc_Some in Hi as [[Hlt Hi]|[-> [= -> ->]]].
  - rewrite lookup_insert_ne.
    + apply (IH i Hi). intros j kv Hj Hkv. apply (Hlater j kv Hj).
      rewrite lookup_app_l; [done|]. by apply lookup_lt_Some in Hkv.
    + intros ->. apply (Hlater (length items) (k, v') Hlt); [|done].
      by apply list_lookup_middle.
  - by rewrite lookup_insert_eq.
Qed.

Lemma dict_of_values (P : Z -> Prop) items k v :
  Forall (fun kv => P kv.2) items ->
  FixedError.dict_of items !! k = Some v -> P v.
Proof.
  induction items as [|[k' v'] items IH] using rev_ind; [done|].
  rewrite Forall_app, dict_of_snoc. intros [Hall Hlast].
  destruct (decide (k' = k)) as [->|Hne].
  - rewrite lookup_insert_eq. intros [= <-]. by inversion Hlast.
  - rewrite lookup_insert_ne by done. by apply IH.
Qed.

Lemma accept_Done {A} (x : A) (P : Prop) :
  P -> ((exists s, Done x = Done s) <-> P)
       /\ (Done x = Raise AssertionError <-> ~ P).
Proof.
  intros HP. split; split; try done. intros _. by exists x.
Qed.

Lemma reject_Raise {A} (P : Prop) :
  ~ P -> ((exists s : A, Raise AssertionError = Done s) <-> P)
         /\ (@Raise A AssertionError = Raise AssertionError <-> ~ P).
Proof.
  intros HnP. split; split; try done. by intros [? ?].
Qed.

(** X12: [FixedError.__init__] passes its own checks exactly when the
    precision is not negative, the latent dimensions never fall, and the starting
    points, if any are given, are as many as the latent dimensions; in
    every other case it raises an AssertionError. A list of starting
    points that is empty passes like [None], whatever [L] is. *)
Theorem init_checks (L : list Z) (target : float) (precision : Z)
    (starts : option (list Z)) (window nmax : Z) :
  let accepted :=
    0 <= precision /\ Sorted Z.le L
    /\ match starts with
       | Some (n :: ns) => length L = length (n :: ns)
       | _ => True
       end in
  ((exists self, FixedError.init L target precision starts window nmax
                 = Done self) <-> accepted)
  /\ (FixedError.init L target precision starts window nmax
      = Raise AssertionError <-> ~ accepted).
Proof.
  intros accepted. unfold accepted, FixedError.init.
  destruct (Z.leb_spec 0 precision) as [Hp|Hp]; simpl.
  2:{ apply reject_Raise. intros (? & _). lia. }
  destruct (decide (L = FixedError.sorted L)) as [Hs|Hs].
  2:{ rewrite bool_decide_eq_false_2 by done. simpl.
      rewrite sorted_fixpoint in Hs. apply reject_Raise.
      by intros (_ & ? & _). }
  rewrite bool_decide_eq_true_2 by done. simpl.
  rewrite sorted_fixpoint in Hs.
  destruct starts as [[|n ns]|]; simpl.
  - by apply accept_Done.
  - destruct (decide (length L = S (length ns))) as [Hl|Hl].
    + rewrite bool_decide_eq_true_2 by done. simpl. by apply accept_Done.
    + rewrite bool_decide_eq_false_2 by done. simpl. apply reject_Raise.
      by intros (_ & _ & ?).
  - by apply accept_Done.
Qed.

(** X13: the starting point of a latent dimension, [n_starts.get(l, 1)]:
    1 for a latent dimension that is not in [L], 1 for every latent dimension
    when no starting points (or none in the list) were given, and else the
    starting point at the position of [l] in [L], the last such position
    if [l] is listed more than once. *)
Theorem n_starts_lookup (L : list Z) (target : float) (precision : Z)
    (starts : option (list Z)) (window nmax : Z)
    (self : FixedError.fixed_error) :
  FixedError.init L target precision starts window nmax = Done self ->
  (forall l, l ∉ L -> FixedError.n_start_for self l = 1)
  /\ (starts = None \/ starts = Some [] ->
      forall l, FixedError.n_start_for self l = 1)
  /\ (forall ns i l n,
        starts = Some ns -> L !! i = Some l -> ns !! i = Some n ->
        (forall j, (i < j)%nat -> L !! j <> Some l) ->
        FixedError.n_start_for self l = n).
Proof.
  unfold FixedError.init.
  intros (_ & _ & H)%try_bind_Done.
  apply try_bind_Done in H as (_ & _ & H).
  apply try_bind_Done in H as (d & Hd & [= <-]).
  unfold FixedError.n_start_for. simpl.
  assert (Hdefault : forall l,
            default 1 (FixedError.dict_of ((fun l => (l, 1)) <$> L) !! l) = 1).
  { intros l.
    destruct (FixedError.dict_of _ !! l) as [v|] eqn:Hv; [|done]. simpl.
    apply (dict_of_values (fun v => v = 1) ((fun l => (l, 1)) <$> L) l v);
      [|done].
    apply Forall_fmap. by apply Forall_forall. }
  split; [|split].
  - intros l Hl. destruct starts as [[|n ns]|].
    + injection Hd as <-. apply Hdefault.
    + apply try_bind_Done in Hd as (_ & _ & [= <-]).
      rewrite dict_of_lookup_None; [done|].
      intros ([l' n'] & -> & Hin)%list_elem_of_fmap.
      apply elem_of_zip_l in Hin. done.
    + injection Hd as <-. apply Hdefault.
  - intros [->| ->] l; injection Hd as <-; apply Hdefault.
  - intros ns i l n -> Hl Hn Hlast.
    destruct ns as [|n0 ns]; [done|].
    apply try_bind_Done in Hd as (_ & _ & [= <-]).
    rewrite (dict_of_lookup_last _ i l n); [done| |].
    + by apply lookup_zip_Some.
    + intros j [l' n'] Hj Hkv. apply lookup_zip_Some in Hkv as [Hl' _].
      simpl. intros ->. by apply (Hlast j Hj).
Qed.

End FixedErrorInit.

(** ** The table of [Task.evaluate] *)

Section TableProofs.
Import Dynascale.
Variable Mc : ModelCls.
Variable Cc : ChallengeCls.

Lemma cols_ok_no_columns : cols_ok no_columns.
Proof. by repeat split. Qed.

Lemma cols_ok_set_id v d : cols_ok d -> cols_ok (set_id v d).
Proof. done. Qed.

Lemma append_row_cols n l e t lo co d :
  cols_ok d ->
  cols_ok (append_row n l e t lo co d)
  /\ keys (append_row n l e t lo co d) = keys d ++ [(n, l, e, t)]
  /\ col_cost (append_row n l e t lo co d) = col_cost d ++ [co].
Proof.
  intros (H1 & H2 & H3 & H4 & H5). split; [|split; [|done]].
  - unfold cols_ok, append_row. simpl. rewrite !length_app. simpl. lia.
  - unfold keys, append_row. simpl.
    rewrite !zip_with_app; try done.
    + rewrite !length_zip_with. lia.
    + rewrite !length_zip_with. lia.
Qed.

(** A training loop of a single horizon applies no control. *)
Lemma train_single_horizon ic T noisy (m : model Mc) (ch : challenge Cc) tr :
  train Mc Cc ic T noisy 1 m ch = Done tr -> t_total_control_cost tr = 0%Q.
Proof.
  unfold train. simpl. unfold horizon. simpl.
  intros (st & H & [= <-])%try_bind_Done.
  apply try_bind_Done in H as ([[x ch'] total] & H & [= <-]). simpl.
  apply try_bind_Done in H as ([x' ch''] & _ & [= _ _ <-]). done.
Qed.

(** What a combination does to the table: nothing if it is passed over,
    and else one more row, whose cost is within the budget. *)
Lemma combination_row (tk : task) in_dist noisy c och d och' d' :
  combination Mc Cc tk in_dist noisy c (och, d) = Done (och', d') ->
  (skipped c = true /\ d' = d)
  \/ (skipped c = false
      /\ exists lo co,
           d' = append_row c.1.1.1.1 c.1.1.1.2 c.1.1.2 c.1.2 lo co d
           /\ Qle_bool co c.2 = true
           /\ (_control_horizons tk = 1 -> co = 0%Q)).
Proof.
  destruct c as [[[[n latent] embed] T] budget]. unfold combination, skipped.
  destruct (embed <? latent); [intros [= <- <-]; by left|].
  intros ([ic ch1] & _ & H)%try_bind_Done.
  apply try_bind_Done in H as (tr & Htr & H).
  apply try_bind_Done in H as (u & Hle%assert_Done & H).
  apply try_bind_Done in H as ([loss ch2] & _ & [= <- <-]).
  right. split; [done|]. exists loss, (t_total_control_cost tr).
  split; [done|]. split; [done|]. intros Hh. rewrite Hh in Htr.
  by apply train_single_horizon in Htr.
Qed.

Lemma combinations_rows (tk : task) in_dist noisy l och d och' d' :
  for_each (combination Mc Cc tk in_dist noisy) l (och, d) = Done (och', d') ->
  cols_ok d ->
  cols_ok d'
  /\ keys d' = keys d ++ (fst <$> List.filter (fun c => negb (skipped c)) l)
  /\ col_id d' = col_id d
  /\ exists costs,
       col_cost d' = col_cost d ++ costs
       /\ Forall2 (fun co c => Qle_bool co c.2 = true) costs
                  (List.filter (fun c => negb (skipped c)) l)
       /\ (_control_horizons tk = 1 -> Forall (fun co => co = 0%Q) costs).
Proof.
  revert och d. induction l as [|c l IH]; intros och d; simpl.
  - intros [= <- <-] Hd. rewrite app_nil_r. split; [done|]. split; [done|].
    split; [done|]. exists []. rewrite app_nil_r. by repeat split.
  - intros ([och1 d1] & Hc & Hl)%try_bind_Done Hd.
    apply combination_row in Hc as [[Hs ->]|(Hs & lo & co & -> & Hle & Hone)];
      rewrite Hs; simpl.
    + by apply (IH och1 d).
    + destruct (append_row_cols c.1.1.1.1 c.1.1.1.2 c.1.1.2 c.1.2 lo co d Hd)
        as (Hd1 & Hk1 & Hc1).
      destruct (IH _ _ Hl Hd1) as (Hd' & Hk & Hid & costs & Hcosts & Hall & Hz).
      split; [done|]. split; [|split; [done|]].
      * rewrite Hk, Hk1, <- app_assoc. f_equal. simpl. f_equal.
        by destruct c as [[[[? ?] ?] ?] ?].
      * exists (co :: costs). rewrite Hcosts, Hc1, <- app_assoc.
        split; [done|]. split; [by constructor|].
        intros Hh. constructor; [by apply Hone|by apply Hz].
Qed.

Lemma repetitions_rows (tk : task) in_dist noisy l d k d' k' :
  for_each (repetition Mc Cc tk in_dist noisy) l (d, k) = Done (d', k') ->
  cols_ok d ->
  cols_ok d'
  /\ keys d' = keys d ++ mjoin (replicate (length l) (fst <$> evaluated tk))
  /\ k' = k + Z.of_nat (length l)
  /\ exists costs,
       col_cost d' = col_cost d ++ costs
       /\ Forall2 (fun co c => Qle_bool co c.2 = true) costs
                  (mjoin (replicate (length l) (evaluated tk)))
       /\ (_control_horizons tk = 1 -> Forall (fun co => co = 0%Q) costs).
Proof.
  revert d k. induction l as [|i l IH]; intros d k; simpl.
  - intros [= <- <-] Hd. rewrite app_nil_r. split; [done|]. split; [done|].
    split; [lia|]. exists []. rewrite app_nil_r. by repeat split.
  - intros ([d1 k1] & Hr & Hl)%try_bind_Done Hd.
    unfold repetition in Hr.
    apply try_bind_Done in Hr as ([och d0] & Hc & [= <- <-]).
    apply combinations_rows in Hc
      as (Hd0 & Hk0 & _ & costs0 & Hcosts0 & Hall0 & Hz0); [|done].
    destruct (IH _ _ Hl (cols_ok_set_id k d0 Hd0))
      as (Hd' & Hk & Hk' & costs & Hcosts & Hall & Hz).
    split; [done|]. split; [|split; [lia|]].
    + rewrite Hk. unfold keys in *. simpl. rewrite Hk0.
      by rewrite <- app_assoc.
    + exists (costs0 ++ costs). rewrite Hcosts. simpl. rewrite Hcosts0.
      rewrite <- app_assoc. split; [done|].
      split; [by apply Forall2_app|].
      intros Hh. apply Forall_app. split; [by apply Hz0|by apply Hz].
Qed.

Lemma DataFrame_rows d :
  cols_ok d ->
  exists rows, DataFrame d = Done rows
               /\ key <$> rows = keys d
               /\ r_cost <$> rows = col_cost d.
Proof.
  intros (H1 & H2 & H3 & H4 & H5). unfold DataFrame.
  rewrite bool_decide_eq_true_2 by done.
  eexists. split; [done|]. split.
  - apply fmap_zip_with_l.
    + by intros [[[? ?] ?] ?] [? ?].
    + unfold keys. rewrite !length_zip_with. lia.
  - rewrite <- (snd_zip (col_loss d) (col_cost d)) at 2 by lia.
    rewrite <- (fmap_zip_with_r
                  (fun '(n, l, e, t) '(lo, co) =>
                     {| r_n := n; r_latent_dim := l; r_embed_dim := e;
                        r_timesteps := t; r_loss := lo; r_cost := co;
                        r_id := col_id d |})
                  (fun r => (r_loss r, r_cost r))
                  (zip (zip (zip (col_n d) (col_latent_dim d)) (col_embed_dim d))
                       (col_timesteps d))
                  (zip (col_loss d) (col_cost d))) at 2.
    + by rewrite <- list_fmap_compose.
    + by intros [[[? ?] ?] ?] [? ?].
    + rewrite !length_zip_with. lia.
Qed.

(** What [evaluate] returns when it returns. *)
Lemma evaluate_rows (tk : task) in_dist noisy rows tk' :
  evaluate Mc Cc tk in_dist noisy = Done (rows, tk') ->
  key <$> rows
  = mjoin (replicate (Z.to_nat (_reps tk)) (fst <$> evaluated tk))
  /\ tk' = with_id (_id tk + Z.max 0 (_reps tk)) tk
  /\ Forall2 (fun co c => Qle_bool co c.2 = true) (r_cost <$> rows)
             (mjoin (replicate (Z.to_nat (_reps tk)) (evaluated tk)))
  /\ (_control_horizons tk = 1 -> Forall (fun co => co = 0%Q) (r_cost <$> rows)).
Proof.
  unfold evaluate. intros ([d next] & Hloop & H)%try_bind_Done.
  apply try_bind_Done in H as (df & Hdf & [= <- <-]).
  apply repetitions_rows in Hloop
    as (Hd & Hk & Hnext & costs & Hcosts & Hall & Hz);
    [|apply cols_ok_no_columns].
  rewrite length_seqZ in *.
  destruct (DataFrame_rows d Hd) as (rows & Hrows & Hkeys & Hcost).
  rewrite Hrows in Hdf. injection Hdf as <-.
  rewrite Hkeys, Hk, Hcost, Hcosts. simpl.
  split; [done|]. split; [|done].
  unfold with_id. f_equal. lia.
Qed.

(** *** When [evaluate] raises, and when it has nothing to do *)

Lemma for_each_cons {A S} (body : A -> S -> try S) x l st :
  for_each body (x :: l) st = try_bind (body x st) (for_each body l).
Proof. done. Qed.

Lemma combinations_cases (tk : task) in_dist noisy l st :
  (exists st', for_each (combination Mc Cc tk in_dist noisy) l st = Done st')
  \/ for_each (combination Mc Cc tk in_dist noisy) l st = Raise AssertionError.
Proof.
  revert st. induction l as [|c l IH]; intros st; simpl.
  - left. by eexists.
  - destruct (combination_cases Mc Cc tk in_dist noisy c st) as [[st' ->]| ->];
      [apply IH|by right].
Qed.

Lemma repetitions_cases (tk : task) in_dist noisy l st :
  (exists st', for_each (repetition Mc Cc tk in_dist noisy) l st = Done st')
  \/ for_each (repetition Mc Cc tk in_dist noisy) l st = Raise AssertionError.
Proof.
  revert st. induction l as [|i l IH]; intros [d k].
  - left. by eexists.
  - rewrite for_each_cons.
    assert (Hrep : (exists st', repetition Mc Cc tk in_dist noisy i (d, k)
                                = Done st')
                   \/ repetition Mc Cc tk in_dist noisy i (d, k)
                      = Raise AssertionError).
    { unfold repetition.
      destruct (combinations_cases tk in_dist noisy
                  (product (_N tk) (_L tk) (_E tk) (_T tk) (_C tk)) (None, d))
        as [[[och d'] ->]| ->]; [left; by eexists|by right]. }
    destruct Hrep as [[st' ->]| ->]; [apply IH|by right].
Qed.

Lemma combinations_skipped (tk : task) in_dist noisy l st :
  List.filter (fun c => negb (skipped c)) l = [] ->
  for_each (combination Mc Cc tk in_dist noisy) l st = Done st.
Proof.
  induction l as [|c l IH]; simpl; [done|].
  destruct (skipped c) eqn:Hs; simpl; [|done]. intros Hl.
  destruct c as [[[[n latent] embed] T] budget], st as [och d].
  unfold combination. unfold skipped in Hs. rewrite Hs. simpl. by apply IH.
Qed.

Lemma repetitions_skipped (tk : task) in_dist noisy l d k :
  evaluated tk = [] -> cols_ok d -> col_n d = [] ->
  exists d',
    for_each (repetition Mc Cc tk in_dist noisy) l (d, k)
    = Done (d', k + Z.of_nat (length l))
    /\ DataFrame d' = Done [].
Proof.
  intros He. revert d k. induction l as [|i l IH]; intros d k Hd Hn.
  - exists d. simpl. split; [do 2 f_equal; lia|].
    destruct (DataFrame_rows d Hd) as (rows & -> & Hk & _).
    unfold keys in Hk. rewrite Hn in Hk. simpl in Hk.
    by apply fmap_nil_inv in Hk as ->.
  - assert (Hrep : repetition Mc Cc tk in_dist noisy i (d, k)
                   = Done (set_id k d, k + 1)).
    { unfold repetition.
      by rewrite (combinations_skipped tk in_dist noisy _ (None, d) He). }
    rewrite for_each_cons, Hrep. simpl.
    destruct (IH (set_id k d) (k + 1)) as (d' & -> & Hdf); try done.
    exists d'. split; [do 2 f_equal; lia|done].
Qed.

(** X14: the table lists the combinations that were not passed over, in the
    order of the loop and once for every repetition, so it has
    [reps * len(evaluated)] rows; and the counter of the task has advanced
    by the number of repetitions. *)
Theorem evaluate_rows_in_loop_order (tk : task) (in_dist noisy : bool)
    (rows : list df_row) (tk' : task) :
  evaluate Mc Cc tk in_dist noisy = Done (rows, tk') ->
  key <$> rows
  = mjoin (replicate (Z.to_nat (_reps tk)) (fst <$> evaluated tk))
  /\ length rows = (Z.to_nat (_reps tk) * length (evaluated tk))%nat
  /\ tk' = with_id (_id tk + Z.max 0 (_reps tk)) tk.
Proof.
  intros (Hk & Htk & _)%evaluate_rows. split; [done|]. split; [|done].
  rewrite <- (length_fmap key), Hk. clear.
  induction (Z.to_nat (_reps tk)) as [|n IH]; simpl; [done|].
  rewrite length_app, IH, length_fmap. done.
Qed.

(** X15: no row of a table that [evaluate] returns has a cost above the budget
    of its combination. *)
Theorem evaluate_within_budget (tk : task) (in_dist noisy : bool)
    (rows : list df_row) (tk' : task) :
  evaluate Mc Cc tk in_dist noisy = Done (rows, tk') ->
  Forall2 (fun r c => (r_cost r <= c.2)%Q) rows
          (mjoin (replicate (Z.to_nat (_reps tk)) (evaluated tk))).
Proof.
  intros (_ & _ & Hall & _)%evaluate_rows.
  apply Forall2_fmap_l in Hall.
  eapply Forall2_impl; [exact Hall|]. intros r c H. by apply Qle_bool_iff.
Qed.

(** X16: with a single control horizon the model is never asked for a control
    and every row has cost 0. *)
Theorem single_horizon_costs_nothing (tk : task) (in_dist noisy : bool)
    (rows : list df_row) (tk' : task) :
  _control_horizons tk = 1 ->
  evaluate Mc Cc tk in_dist noisy = Done (rows, tk') ->
  Forall (fun r => r_cost r = 0%Q) rows.
Proof.
  intros Hh (_ & _ & _ & Hz)%evaluate_rows.
  specialize (Hz Hh). by apply Forall_fmap in Hz.
Qed.

(** X17: [evaluate] returns a table or raises an AssertionError, whatever the
    subclasses of [Model] and [Challenge] compute: no index is out of
    range, [x] is bound when a later horizon reads it, and the columns of
    the table are equally long. *)
Theorem evaluate_fails_only_by_assertion (tk : task) (in_dist noisy : bool) :
  (exists rows tk', evaluate Mc Cc tk in_dist noisy = Done (rows, tk'))
  \/ evaluate Mc Cc tk in_dist noisy = Raise AssertionError.
Proof.
  unfold evaluate.
  destruct (repetitions_cases tk in_dist noisy (seqZ 0 (_reps tk))
              (no_columns, _id tk)) as [[[d next] Hloop]|Hloop];
    rewrite Hloop; simpl; [|by right].
  apply repetitions_rows in Hloop as (Hd & _); [|apply cols_ok_no_columns].
  destruct (DataFrame_rows d Hd) as (rows & -> & _). simpl.
  left. by eexists _, _.
Qed.

(** X18: with no repetition to run, or with every combination passed over
    because its embedding is smaller than its latent dimension, [evaluate]
    returns an empty table without consulting the model or the challenge;
    the counter still advances by the number of repetitions. *)
Theorem evaluate_nothing_to_do (tk : task) (in_dist noisy : bool) :
  _reps tk <= 0 \/ evaluated tk = [] ->
  evaluate Mc Cc tk in_dist noisy
  = Done ([], with_id (_id tk + Z.max 0 (_reps tk)) tk).
Proof.
  intros [Hr|He]; unfold evaluate.
  - rewrite seqZ_nil by done. simpl. unfold with_id. do 3 f_equal. lia.
  - destruct (repetitions_skipped tk in_dist noisy (seqZ 0 (_reps tk))
                no_columns (_id tk) He cols_ok_no_columns eq_refl)
      as (d' & Hloop & Hdf).
    rewrite Hloop. simpl. rewrite Hdf. simpl.
    unfold with_id. rewrite length_seqZ. do 3 f_equal. lia.
Qed.

(** *** What the model is given, and the dimensions of the challenge *)


Lemma make_data_dims (ch : challenge Cc) ic control T noisy x ch' :
  make_data Cc ch ic control T noisy = Done (x, ch') ->
  0 < T /\ shape x = [nth 0 (shape ic) 0; T; embed_dim ch]
  /\ latent_dim ch' = latent_dim ch /\ embed_dim ch' = embed_dim ch.
Proof.
  unfold make_data.
  intros (u1 & HT%assert_Done & H)%try_bind_Done.
  apply try_bind_Done in H as (u2 & _ & H).
  apply try_bind_Done in H as (u3 & _ & H).
  destruct (c_make_data Cc _ _ _ ic _ T noisy) as [x0 c].
  apply try_bind_Done in H as (u4 & Hs%assert_Done & [= <- <-]).
  apply shape_is_true in Hs. split; [lia|]. done.
Qed.

(** A horizon that is the first, or that starts from a batch of [n]
    trajectories, leaves a batch of [n] trajectories of [T] steps, on
    which it has fit the model, and the dimensions of the challenge as
    they were. *)
Lemma horizon_batch ic n e T noisy j (st st' : train_state Mc Cc) :
  shape ic = [n; e] -> embed_dim (t_challenge st) = e ->
  (j = 0 \/ exists x, t_x st = Some x /\ shape x = [n; T; e]) ->
  horizon Mc Cc ic T noisy j st = Done st' ->
  exists x, t_x st' = Some x /\ shape x = [n; T; e]
            /\ t_model st' = fit Mc (t_model st) x
            /\ embed_dim (t_challenge st') = e
            /\ latent_dim (t_challenge st') = latent_dim (t_challenge st).
Proof.
  intros Hic He Hst. unfold horizon.
  intros ([[x ch] total] & H & [= <-])%try_bind_Done. simpl.
  destruct (Z.eqb_spec j 0) as [->|Hj].
  - apply try_bind_Done in H as ([x' ch'] & Hd & [= -> -> _]).
    apply make_data_dims in Hd as (_ & Hx & Hl & He').
    rewrite Hic, He in Hx. simpl in Hx.
    exists x. repeat split; try done. congruence.
  - destruct Hst as [?|(x0 & Hx0 & Hs0)]; [done|]. rewrite Hx0 in H.
    apply try_bind_Done in H as (control & _ & H).
    apply try_bind_Done in H as (cost & _ & H).
    apply try_bind_Done in H as (x1 & Hfirst & H).
    apply try_bind_Done in H as ([x' ch'] & Hd & [= -> -> _]).
    apply make_data_dims in Hd as (_ & Hx & Hl & He').
    unfold first_step, at_step in Hfirst. rewrite Hs0 in Hfirst.
    destruct (_ && _); [|done]. injection Hfirst as <-.
    simpl in Hx. rewrite He in Hx.
    exists x. repeat split; try done. congruence.
Qed.

Lemma for_each_horizon_batch ic n e T noisy l (st0 st : train_state Mc Cc) :
  shape ic = [n; e] -> embed_dim (t_challenge st0) = e ->
  (l = [] \/ head l = Some 0
   \/ exists x, t_x st0 = Some x /\ shape x = [n; T; e]) ->
  for_each (horizon Mc Cc ic T noisy) l st0 = Done st ->
  embed_dim (t_challenge st) = e
  /\ latent_dim (t_challenge st) = latent_dim (t_challenge st0)
  /\ (l = [] \/ exists x, t_x st = Some x /\ shape x = [n; T; e]).
Proof.
  intros Hic. revert st0. induction l as [|j l IH]; intros st0 He Hst.
  - intros [= <-]. split; [done|]. split; [done|by left].
  - rewrite for_each_cons. intros (st1 & H1 & Hl)%try_bind_Done.
    apply (horizon_batch ic n e T) in H1
      as (x & Hx & Hs & _ & He1 & Hl1); [|done|done|].
    2:{ destruct Hst as [?|[[= ->]|?]]; [done|by left|by right]. }
    assert (Hst1 : l = [] \/ head l = Some 0
                   \/ exists x, t_x st1 = Some x /\ shape x = [n; T; e]).
    { right. right. by exists x. }
    destruct (IH st1 He1 Hst1 Hl) as (He' & Hl' & Hb).
    split; [done|]. split; [congruence|]. right.
    destruct Hb as [->|Hb]; [|done]. injection Hl as <-. by exists x.
Qed.

(** X19: in every control horizon of a training loop that completes, the
    model is fit on a batch of shape [(n, timesteps, embed_dim)], where
    [n] is the number of initial conditions. *)
Theorem fit_receives_full_batches ic n e T noisy H j
    (m : model Mc) (ch : challenge Cc) final :
  shape ic = [n; e] -> embed_dim ch = e -> 0 <= j < H ->
  train Mc Cc ic T noisy H m ch = Done final ->
  exists prev next x,
    train Mc Cc ic T noisy j m ch = Done prev
    /\ train Mc Cc ic T noisy (j + 1) m ch = Done next
    /\ t_x next = Some x
    /\ shape x = [n; T; e]
    /\ t_model next = fit Mc (t_model prev) x.
Proof.
  intros Hic He Hj Hfinal.
  destruct (train_prefix Mc Cc ic T noisy H (j + 1) m ch final) as [next Hnext];
    [lia|done|].
  pose proof Hnext as Hstep. rewrite train_succ in Hstep by lia.
  apply try_bind_Done in Hstep as (prev & Hprev & Hstep).
  pose proof Hprev as Hloop. unfold train in Hloop.
  apply (for_each_horizon_batch ic n e T) in Hloop as (He' & _ & Hb);
    [|done|done|].
  2:{ destruct (Z.eq_dec j 0) as [->|Hne]; [by left|].
      right. left. by rewrite seqZ_cons by lia. }
  apply (horizon_batch ic n e T) in Hstep as (x & Hx & Hs & Hm & _);
    [|done|done|].
  2:{ destruct Hb as [Hnil|Hb]; [|by right]. left.
      destruct (Z.eq_dec j 0) as [->|Hne]; [done|].
      rewrite seqZ_cons in Hnil by lia. done. }
  by exists prev, next, x.
Qed.



End TableProofs.

(** ** The theorems above on the synthetic system and model *)

Lemma e_fall_above n : n <= 49 -> fgt (e_fall n) (Num (1901 # 2)) = true.
Proof.
  intros H. unfold e_fall, numZ. simpl. apply Qltb_lt.
  unfold Qlt. simpl. lia.
Qed.

Lemma e_fall_below n : 50 <= n -> flt (e_fall n) (Num (1901 # 2)) = true.
Proof.
  intros H. unfold e_fall, numZ. simpl. apply Qltb_lt.
  unfold Qlt. simpl. lia.
Qed.

Lemma e_fall_falls n m : n <= m -> fgt (e_fall m) (e_fall n) = false.
Proof.
  intros H. apply not_true_is_false. intros Hf.
  apply (numZ_fgt (1000 - m) (1000 - n)) in Hf. lia.
Qed.


Lemma search_answer_range_witness :
  let T := toy_env e_inv 1 100 1 0 (1 # 10) in
  0 <= n_max T < 2 ^ 52 /\ 1 <= n_start T
  /\ exists v, fst (search T (exp_fuel T) (init_session T tt)) = Some v
               /\ (v = Inf \/ v = Fin (-1)
                   \/ exists n, v = Fin n /\ 1 <= n <= n_max T).
Proof.
  intros T. split; [simpl; lia|]. split; [simpl; lia|].
  apply (search_answer_range T (exp_fuel T) (init_session T tt));
    [simpl; lia|simpl; lia|lia].
Defined.


Lemma models_bounded_witness :
  let T := toy_env e_inv 1 100 1 2 (1 # 10) in
  0 <= n_max T /\ 1 <= n_start T
  /\ (models_built (snd (search T 50 (init_session T tt)))
      <= Z.to_nat (n_max T))%nat.
Proof.
  intros T. split; [simpl; lia|]. split; [simpl; lia|].
  apply (models_bounded T 50 tt); simpl; lia.
Defined.

Lemma pool_bounded_witness :
  let T := toy_env e_inv 1 100 1 2 (1 # 10) in
  gen_ok T /\ 0 <= n_max T
  /\ (length (master_training_set (snd (search T 50 (init_session T tt))))
      <= Z.to_nat (Z.max 10 (n_max T)))%nat.
Proof.
  intros T. split; [apply toy_gen_ok|]. split; [simpl; lia|].
  apply (pool_bounded T 50 tt); [apply toy_gen_ok|simpl; lia].
Defined.

Lemma binary_phase_keeps_bracket_witness :
  let T := toy_env e_fall 1 100 1 0 (1901 # 2) in
  let b := {| n_lower := 32; error_lower := e_fall 32;
              n_upper := 64; error_upper := e_fall 64 |} in
  bracket_ok T (windowed T e_fall) b /\ n_upper b < 2 ^ 52
  /\ exists bs final v,
       fst (bin_loop T 33 b (init_session T tt))
       = (Returned Converged (Fin v), bs)
       /\ Forall (bracket_ok T (windowed T e_fall)) bs
       /\ last bs = Some final
       /\ n_upper final - n_lower final <= Z.max (n_precision T) 1
       /\ ceil_half (n_lower final) (n_upper final) = Some v
       /\ n_lower b <= n_lower final /\ n_lower final < v <= n_upper final
       /\ n_upper final <= n_upper b.
Proof.
  intros T b.
  assert (Hb : bracket_ok T (windowed T e_fall) b).
  { unfold bracket_ok, windowed. simpl. split; [lia|].
    split; [done|]. split; [done|].
    split; [by apply e_fall_above|by apply e_fall_below]. }
  split; [exact Hb|]. split; [simpl; lia|].
  apply (binary_phase_keeps_bracket T e_fall (init_session T tt) b 33);
    [apply toy_gen_ok|apply toy_realises|apply memo_ok_init
    |exact Hb|simpl; lia| |].
  - intros n Hn. unfold windowed. simpl.
    destruct (Z.le_gt_cases n 49);
      [left; by apply e_fall_above|right; apply e_fall_below; lia].
  - vm_compute. lia.
Defined.

Lemma search_finds_crossing_witness :
  let T := toy_env e_fall 1 100 1 0 (1901 # 2) in
  fst (search T 101 (init_session T tt)) = Some (Fin 50)
  /\ 10 <= n_max T < 2 ^ 52
  /\ (fst (search T 101 (init_session T tt)) = Some (Fin (-1))
      \/ exists l u v,
           fst (search T 101 (init_session T tt)) = Some (Fin v)
           /\ n_start T <= l /\ l < v <= u /\ u <= n_max T
           /\ u - l <= Z.max (n_precision T) 1
           /\ (forall n, n_start T <= n <= l ->
                 fle (windowed T e_fall n) (target_error T) = false)
           /\ (forall n, u <= n <= n_max T ->
                 fle (windowed T e_fall n) (target_error T) = true)).
Proof.
  intros T. split; [vm_compute; reflexivity|]. split; [simpl; lia|].
  apply (search_finds_crossing T e_fall tt 101);
    [apply toy_gen_ok|apply toy_realises|simpl; lia|simpl; lia| | | |].
  - intros n m Hn Hm. unfold windowed. simpl. apply e_fall_falls. lia.
  - intros n Hn. unfold windowed. simpl.
    destruct (Z.le_gt_cases n 49);
      [left; by apply e_fall_above|right; apply e_fall_below; lia].
  - unfold windowed. simpl. by apply e_fall_above.
  - vm_compute. lia.
Defined.

Lemma model_run_empty_window_witness :
  let T := toy_env e_inv 1 1 5 1 (1 # 10) in
  model_run T 1 1 (init_session T tt) = ((NaN, NaN), init_session T tt)
  /\ search T 1 (init_session T tt) = (Some (Fin 1), init_session T tt).
Proof.
  intros T. destruct (model_run_empty_window T) as [Hrun Hsearch]. split.
  - apply Hrun; simpl; lia.
  - apply (Hsearch 0%nat); simpl; lia.
Defined.

Lemma n_starts_lookup_witness :
  exists self,
    FixedError.init [2; 3; 3; 5] (Num 1) 5 (Some [10; 20; 30; 40]) 0 10000
    = Dynascale.Done self
    /\ FixedError.n_start_for self 2 = 10
    /\ FixedError.n_start_for self 3 = 30
    /\ FixedError.n_start_for self 4 = 1.
Proof.
  destruct (FixedError.init [2; 3; 3; 5] (Num 1) 5 (Some [10; 20; 30; 40])
              0 10000) as [self|e] eqn:Hinit.
  - exists self. split; [done|].
    destruct (n_starts_lookup [2; 3; 3; 5] (Num 1) 5 (Some [10; 20; 30; 40])
                0 10000 self Hinit) as (Hout & _ & Hin).
    split; [|split].
    + apply (Hin [10; 20; 30; 40] 0%nat 2 10); try done.
      intros [|[|[|[|j]]]] Hj; try lia; done.
    + apply (Hin [10; 20; 30; 40] 2%nat 3 30); try done.
      intros [|[|[|[|j]]]] Hj; try lia; done.
    + apply Hout. intros Hin4. repeat (apply elem_of_cons in Hin4 as [?|Hin4]; [lia|]).
      by apply elem_of_nil in Hin4.
  - exfalso. vm_compute in Hinit. discriminate.
Defined.

Lemma evaluate_rows_in_loop_order_witness :
  let tk := toy_task 2 2 3 3 in
  exists rows tk',
    Dynascale.evaluate toy_model toy_challenge tk true false
    = Dynascale.Done (rows, tk')
    /\ key <$> rows
       = mjoin (replicate (Z.to_nat (Dynascale._reps tk)) (fst <$> evaluated tk))
    /\ length rows = (Z.to_nat (Dynascale._reps tk) * length (evaluated tk))%nat
    /\ tk' = with_id (Dynascale._id tk + Z.max 0 (Dynascale._reps tk)) tk.
Proof.
  intros tk.
  destruct (Dynascale.evaluate toy_model toy_challenge tk true false)
    as [[rows tk']|e] eqn:Heval.
  - exists rows, tk'. split; [done|].
    exact (evaluate_rows_in_loop_order toy_model toy_challenge tk true false
             rows tk' Heval).
  - exfalso. vm_compute in Heval. discriminate.
Defined.

Lemma evaluate_within_budget_witness :
  let tk := toy_task 2 2 3 3 in
  exists rows tk',
    Dynascale.evaluate toy_model toy_challenge tk true false
    = Dynascale.Done (rows, tk')
    /\ Forall2 (fun r c => (Dynascale.r_cost r <= c.2)%Q) rows
               (mjoin (replicate (Z.to_nat (Dynascale._reps tk)) (evaluated tk))).
Proof.
  intros tk.
  destruct (Dynascale.evaluate toy_model toy_challenge tk true false)
    as [[rows tk']|e] eqn:Heval.
  - exists rows, tk'. split; [done|].
    exact (evaluate_within_budget toy_model toy_challenge tk true false
             rows tk' Heval).
  - exfalso. vm_compute in Heval. discriminate.
Defined.

Lemma single_horizon_costs_nothing_witness :
  let tk := toy_task 1 2 3 3 in
  exists rows tk',
    Dynascale.evaluate toy_model toy_challenge tk true false
    = Dynascale.Done (rows, tk')
    /\ length rows = 2%nat
    /\ Forall (fun r => Dynascale.r_cost r = 0%Q) rows.
Proof.
  intros tk.
  destruct (Dynascale.evaluate toy_model toy_challenge tk true false)
    as [[rows tk']|e] eqn:Heval.
  - exists rows, tk'. split; [done|]. split.
    + vm_compute in Heval. by injection Heval as <- _.
    + exact (single_horizon_costs_nothing toy_model toy_challenge tk true false
               rows tk' eq_refl Heval).
  - exfalso. vm_compute in Heval. discriminate.
Defined.

Lemma evaluate_nothing_to_do_witness :
  let tk := {| Dynascale._N := [1; 2]; Dynascale._L := [2; 3];
               Dynascale._E := [1]; Dynascale._T := [3];
               Dynascale._C := [1%Q]; Dynascale._control_horizons := 2;
               Dynascale._reps := 3; Dynascale._test_examples := 2;
               Dynascale._test_timesteps := 3; Dynascale._id := 4 |} in
  evaluated tk = []
  /\ Dynascale.evaluate toy_model toy_challenge tk true false
     = Dynascale.Done ([], with_id 7 tk).
Proof.
  intros tk. split; [reflexivity|].
  exact (evaluate_nothing_to_do toy_model toy_challenge tk true false
           (or_intror eq_refl)).
Defined.

Lemma search_stops_at_start_witness :
  let T := toy_env e_inv 1 100 5 0 2 in
  fgt (windowed T e_inv (n_start T)) (target_error T) = false
  /\ search T 1 (init_session T tt)
     = (Some (Fin (n_start T)),
        snd (model_run T (n_start T) (n_window T) (init_session T tt))).
Proof.
  intros T. split; [reflexivity|].
  apply (search_stops_at_start T e_inv tt 0);
    [apply toy_gen_ok|apply toy_realises|simpl; lia|simpl; lia|reflexivity].
Defined.

Lemma fit_receives_full_batches_witness :
  let ic := {| Dynascale.shape := [1; 1]; Dynascale.data := [5%Q] |} in
  let m := Dynascale.model_init toy_model 1 3 1 in
  let ch := Dynascale.challenge_init toy_challenge 1 1 in
  exists final prev next x,
    Dynascale.train toy_model toy_challenge ic 3 false 3 m ch
    = Dynascale.Done final
    /\ Dynascale.train toy_model toy_challenge ic 3 false 2 m ch
       = Dynascale.Done prev
    /\ Dynascale.train toy_model toy_challenge ic 3 false (2 + 1) m ch
       = Dynascale.Done next
    /\ Dynascale.t_x next = Some x
    /\ Dynascale.shape x = [1; 3; 1]
    /\ Dynascale.t_model next
       = Dynascale.fit toy_model (Dynascale.t_model prev) x.
Proof.
  intros ic m ch.
  destruct (Dynascale.train toy_model toy_challenge ic 3 false 3 m ch)
    as [final|e] eqn:Hfinal.
  - exists final.
    destruct (fit_receives_full_batches toy_model toy_challenge ic 1 1 3
                false 3 2 m ch final eq_refl eq_refl ltac:(lia) Hfinal)
      as (prev & next & x & H).
    exists prev, next, x. split; [done|exact H].
  - exfalso. vm_compute in Hfinal. discriminate.
Defined.

